(** * SOGAS-RH V2 — authentication core

    A shallow embedding of the TypeScript authentication core of the
    backend: the token service (services/token.service.ts), the
    Prisma-backed stores (repos/auth.prisma.store.ts), the orchestrating
    service (services/auth.service.ts), the HTTP controller
    (controllers/auth.controller.ts) and the bearer middleware
    (middlewares/auth.middleware.ts).

    Conventions of the embedding

    - A value of TypeScript type [any] or read from a request body is a
      [JsVal]; a value with a declared type has the matching Rocq type.
    - [throw] is the [Throw] outcome; [async] code that touches the
      database is a function [Db -> Db * Outcome A]: what was written before
      a throw stays written, since the source opens no transaction.
    - A JSON Web Token is a symbolic term: it records the secret it was
      signed with, and its signature verifies exactly under that secret.
    - [Date.now()], [crypto.randomUUID()] and the identifier the database
      gives a new session row are the fields of a [Draw], one per request. *)

From Stdlib Require Import ZArith Ascii.
From stdpp Require Import gmap strings list.

Local Open Scope Z_scope.
Local Open Scope string_scope.

(** ** JavaScript values and exceptions *)

(** The values the code inspects at run time: [undefined], a string, an
    array of strings, and any other value, of which only truthiness is ever
    observed. *)
Inductive JsVal :=
| JUndefined
| JString (s : string)
| JStrings (l : list string)
| JOther (truthy : bool).

#[global] Instance JsVal_eq_dec : EqDecision JsVal.
Proof. solve_decision. Defined.

(** [!!v] *)
Definition truthy (v : JsVal) : bool :=
  match v with
  | JUndefined => false
  | JString s => negb (bool_decide (s = ""))
  | JStrings _ => true
  | JOther b => b
  end.

(** [typeof v === 'string'] *)
Definition is_string (v : JsVal) : bool :=
  match v with JString _ => true | _ => false end.

(** [a || b] where [a] is a string that may be absent and [b] is a string:
    an absent or empty [a] gives [b]. *)
Definition or_else (a : option string) (b : string) : string :=
  match a with
  | Some s => if bool_decide (s = "") then b else s
  | None => b
  end.

Inductive JwtErrorClass := TokenExpiredError | JsonWebTokenError.

(** What can be thrown: a plain [Error], one of jsonwebtoken's errors, an
    error of the Prisma client, or the [SyntaxError] of [JSON.parse]. *)
Inductive JsError :=
| Error (message : string)
| JwtError (cls : JwtErrorClass) (message : string)
| PrismaError (code : string) (message : string)
| SyntaxError (message : string).

#[global] Instance JwtErrorClass_eq_dec : EqDecision JwtErrorClass.
Proof. solve_decision. Defined.
#[global] Instance JsError_eq_dec : EqDecision JsError.
Proof. solve_decision. Defined.

(** [error.message] *)
Definition message_of (e : JsError) : string :=
  match e with
  | Error m => m
  | JwtError _ m => m
  | PrismaError _ m => m
  | SyntaxError m => m
  end.

(** [error instanceof jwt.TokenExpiredError] *)
Definition instanceof_TokenExpiredError (e : JsError) : bool :=
  match e with JwtError TokenExpiredError _ => true | _ => false end.

(** [error instanceof jwt.JsonWebTokenError]; [TokenExpiredError] is a
    subclass of [JsonWebTokenError]. *)
Definition instanceof_JsonWebTokenError (e : JsError) : bool :=
  match e with JwtError _ _ => true | _ => false end.

Inductive Outcome (A : Type) :=
| Ok (a : A)
| Throw (e : JsError).
Arguments Ok {A} a.
Arguments Throw {A} e.

Definition is_Ok {A} (o : Outcome A) : bool :=
  match o with Ok _ => true | Throw _ => false end.

(** The stable error kinds are plain errors whose message is the kind. *)
Definition INVALID_CREDENTIALS := Error "INVALID_CREDENTIALS".
Definition TOKEN_EXPIRED := Error "TOKEN_EXPIRED".
Definition INVALID_TOKEN := Error "INVALID_TOKEN".
Definition TOKEN_REVOKED := Error "TOKEN_REVOKED".
Definition SESSION_NOT_FOUND := Error "SESSION_NOT_FOUND".
Definition SESSION_REVOKED := Error "SESSION_REVOKED".
Definition TOKEN_REUSE_DETECTED := Error "TOKEN_REUSE_DETECTED".
Definition USER_NOT_FOUND := Error "USER_NOT_FOUND".

(** ** External libraries

    [ms] is the time-span parser jsonwebtoken applies to [expiresIn]
    (milliseconds, or nothing for a string it does not understand);
    [bcrypt_compare] is [bcrypt.compare]. *)
Class Platform := {
  ms : string -> option Z;
  bcrypt_compare : string -> string -> bool
}.

(** ** jsonwebtoken *)

(** The claims the services read from a decoded token. *)
Record JwtClaims := {
  sub : JsVal;
  email : JsVal;
  roleIds : JsVal;
  permissions : JsVal;
  sessionId : JsVal;
  jti : JsVal;
  type : JsVal
}.

Record Jws := {
  signedWith : string;
  claims : JwtClaims;
  iat : Z;
  exp : option Z;
  iss : string;
  aud : string
}.

(** A token is a string. It is the compact form of a signed token; or a
    string of three parts whose header reads as a JWT header and whose
    payload is not JSON, on which the library's [decode] lets the
    [SyntaxError] of [JSON.parse] escape (the argument is its message); or
    any other string, which the library reads no token from. *)
Inductive Token :=
| NotAJwt (raw : string)
| Signed (j : Jws)
| BadPayload (syntax_error : string).

Definition double_quote : string := String (Ascii.ascii_of_nat 34) EmptyString.

(** The message of [jwt.sign] for an [expiresIn] that [ms] does not read. *)
Definition invalid_expiresIn : string :=
  double_quote +:+ "expiresIn" +:+ double_quote
  +:+ " should be a number of seconds or string representing a timespan eg: "
  +:+ double_quote +:+ "1d" +:+ double_quote +:+ ", "
  +:+ double_quote +:+ "20h" +:+ double_quote +:+ ", 60".

Record SignOptions := {
  expiresIn : string;
  issuer : string;
  audience : string
}.

(** [jwt.sign(payload, secret, options)] at clock reading [now]
    (milliseconds). *)
Definition jwt_sign `{Platform} (now : Z) (payload : JwtClaims) (secret : string)
    (o : SignOptions) : Outcome Token :=
  if bool_decide (secret = "") then
    Throw (Error "secretOrPrivateKey must have a value")
  else
    match ms (expiresIn o) with
    | None => Throw (Error invalid_expiresIn)
    | Some span =>
        let iat := now / 1000 in
        Ok (Signed {| signedWith := secret; claims := payload; iat := iat;
                      exp := Some (iat + span / 1000);
                      iss := issuer o; aud := audience o |})
    end.

(** [jwt.verify(token, secret, {issuer, audience})]: structure, then
    signature, then expiry, then audience and issuer. What [decode] throws
    is passed on as it is. *)
Definition jwt_verify (now : Z) (token : Token) (secret : string)
    (issuer audience : string) : Outcome JwtClaims :=
  match token with
  | NotAJwt raw =>
      if bool_decide (raw = "") then Throw (JwtError JsonWebTokenError "jwt must be provided")
      else Throw (JwtError JsonWebTokenError "jwt malformed")
  | BadPayload m => Throw (SyntaxError m)
  | Signed j =>
      if bool_decide (secret = "") then
        Throw (JwtError JsonWebTokenError "secret or public key must be provided")
      else if negb (bool_decide (signedWith j = secret)) then
        Throw (JwtError JsonWebTokenError "invalid signature")
      else if match exp j with Some e => bool_decide (e <= now / 1000) | None => false end then
        Throw (JwtError TokenExpiredError "jwt expired")
      else if negb (bool_decide (aud j = audience)) then
        Throw (JwtError JsonWebTokenError ("jwt audience invalid. expected: " +:+ audience))
      else if negb (bool_decide (iss j = issuer)) then
        Throw (JwtError JsonWebTokenError ("jwt issuer invalid. expected: " +:+ issuer))
      else Ok (claims j)
  end.

(** ** services/token.service.ts *)

Record TokenConfig := {
  cfg_accessSecret : option string;
  cfg_refreshSecret : option string;
  cfg_accessExpiresIn : option string;
  cfg_refreshExpiresIn : option string
}.

(** The variables of [process.env] the constructor reads. *)
Record ProcessEnv := {
  JWT_ACCESS_SECRET : option string;
  JWT_REFRESH_SECRET : option string;
  JWT_ACCESS_EXPIRES_IN : option string;
  JWT_REFRESH_EXPIRES_IN : option string
}.

Record TokenService := {
  accessSecret : string;
  refreshSecret : string;
  accessExpiresIn : string;
  refreshExpiresIn : string
}.

(** [config?.field] *)
Definition cfg {A} (config : option TokenConfig) (f : TokenConfig -> option A) : option A :=
  match config with Some c => f c | None => None end.

(** [new TokenService(config)] *)
Definition new_TokenService (config : option TokenConfig) (env : ProcessEnv) : TokenService :=
  {| accessSecret :=
       or_else (cfg config cfg_accessSecret)
         (or_else (JWT_ACCESS_SECRET env) "access-secret-change-me");
     refreshSecret :=
       or_else (cfg config cfg_refreshSecret)
         (or_else (JWT_REFRESH_SECRET env) "refresh-secret-change-me");
     accessExpiresIn :=
       or_else (cfg config cfg_accessExpiresIn)
         (or_else (JWT_ACCESS_EXPIRES_IN env) "15m");
     refreshExpiresIn :=
       or_else (cfg config cfg_refreshExpiresIn)
         (or_else (JWT_REFRESH_EXPIRES_IN env) "7d") |}.

Record AccessPayloadIn := {
  ai_userId : string;
  ai_email : string;
  ai_roleIds : list string;
  ai_permissions : list string
}.

Record RefreshPayloadIn := {
  ri_userId : string;
  ri_sessionId : string;
  ri_jti : string
}.

Definition generateAccessToken `{Platform} (ts : TokenService) (now : Z)
    (payload : AccessPayloadIn) : Outcome Token :=
  jwt_sign now
    {| sub := JString (ai_userId payload);
       email := JString (ai_email payload);
       roleIds := JStrings (ai_roleIds payload);
       permissions := JStrings (ai_permissions payload);
       sessionId := JUndefined;
       jti := JUndefined;
       type := JString "access" |}
    (accessSecret ts)
    {| expiresIn := accessExpiresIn ts; issuer := "sogas-rh"; audience := "sogas-rh-api" |}.

Definition generateRefreshToken `{Platform} (ts : TokenService) (now : Z)
    (payload : RefreshPayloadIn) : Outcome Token :=
  jwt_sign now
    {| sub := JString (ri_userId payload);
       email := JUndefined;
       roleIds := JUndefined;
       permissions := JUndefined;
       sessionId := JString (ri_sessionId payload);
       jti := JString (ri_jti payload);
       type := JString "refresh" |}
    (refreshSecret ts)
    {| expiresIn := refreshExpiresIn ts; issuer := "sogas-rh"; audience := "sogas-rh-api" |}.

(** What the verifiers hand back; the fields are whatever the token held. *)
Record AccessPayload := {
  ap_userId : JsVal;
  ap_email : JsVal;
  ap_roleIds : JsVal;
  ap_permissions : JsVal
}.

Record RefreshPayload := {
  rp_userId : JsVal;
  rp_sessionId : JsVal;
  rp_jti : JsVal
}.

(** The [catch] block shared by the two verifiers. *)
Definition rethrow_verify_error {A} (error : JsError) : Outcome A :=
  if instanceof_TokenExpiredError error then Throw TOKEN_EXPIRED
  else if instanceof_JsonWebTokenError error then Throw INVALID_TOKEN
  else Throw error.

(** [v || []] *)
Definition or_empty_array (v : JsVal) : JsVal :=
  if truthy v then v else JStrings [].

Definition verifyAccessToken (ts : TokenService) (now : Z) (token : Token)
    : Outcome AccessPayload :=
  let try_block :=
    match jwt_verify now token (accessSecret ts) "sogas-rh" "sogas-rh-api" with
    | Throw e => Throw e
    | Ok decoded =>
        if negb (bool_decide (type decoded = JString "access")) then
          Throw (Error "Invalid token type")
        else
          Ok {| ap_userId := sub decoded;
                ap_email := email decoded;
                ap_roleIds := or_empty_array (roleIds decoded);
                ap_permissions := or_empty_array (permissions decoded) |}
    end in
  match try_block with
  | Ok r => Ok r
  | Throw error => rethrow_verify_error error
  end.

Definition verifyRefreshToken (ts : TokenService) (now : Z) (token : Token)
    : Outcome RefreshPayload :=
  let try_block :=
    match jwt_verify now token (refreshSecret ts) "sogas-rh" "sogas-rh-api" with
    | Throw e => Throw e
    | Ok decoded =>
        if negb (bool_decide (type decoded = JString "refresh")) then
          Throw (Error "Invalid token type")
        else
          Ok {| rp_userId := sub decoded;
                rp_sessionId := sessionId decoded;
                rp_jti := jti decoded |}
    end in
  match try_block with
  | Ok r => Ok r
  | Throw error => rethrow_verify_error error
  end.

(** [TokenService.decode]: the claims of a token, read without any check;
    [null] for a string that holds no token. *)
Definition decode (token : Token) : Outcome (option JwtClaims) :=
  match token with
  | NotAJwt _ => Ok None
  | Signed j => Ok (Some (claims j))
  | BadPayload m => Throw (SyntaxError m)
  end.

(** ** services/hash.service.ts *)

Record HashService := { saltRounds : Z }.

(** [HashService.verify] *)
Definition hash_verify `{Platform} (hs : HashService) (password hash : string) : bool :=
  bcrypt_compare password hash.

(** ** The database and the effect of a request *)

Record RoleLink := {
  roleId : string;
  rolePerms : list string
}.

Record UserRow := {
  row_id : string;
  row_email : string;
  row_passwordHash : string;
  roleLinks : list RoleLink
}.

(** A row of the session table; its primary key is the key of the map. *)
Record SessionRow := {
  row_userId : string;
  row_currentRefreshJti : string;
  row_createdAt : Z;
  row_revokedAt : option Z
}.

Record Db := {
  users : list UserRow;
  sessions : gmap string SessionRow;
  revokedTokens : gset string
}.

(** What one request draws from its environment. *)
Record Draw := {
  now : Z;
  randomUUID : string;
  newSessionId : string
}.

Definition M (A : Type) : Type := Db -> Db * Outcome A.

Definition ret {A} (a : A) : M A := fun db => (db, Ok a).
Definition throw {A} (e : JsError) : M A := fun db => (db, Throw e).
Definition bind {A B} (m : M A) (k : A -> M B) : M B :=
  fun db =>
    match m db with
    | (db', Ok a) => k a db'
    | (db', Throw e) => (db', Throw e)
    end.
Definition lift {A} (o : Outcome A) : M A := fun db => (db, o).
Definition try_catch {A} (m : M A) (handler : JsError -> M A) : M A :=
  fun db =>
    match m db with
    | (db', Ok a) => (db', Ok a)
    | (db', Throw e) => handler e db'
    end.

Notation "'let*' x ':=' m 'in' k" := (bind m (fun x => k))
  (at level 10, x name, m at level 100, k at level 200).
Notation "'do' m 'then' k" := (bind m (fun _ => k))
  (at level 10, m at level 100, k at level 200).

(** The Prisma client checks the arguments of a query at run time: a key
    that is not a string is refused before the database is reached. *)
Definition prisma_string (v : JsVal) : M string :=
  match v with
  | JString s => ret s
  | _ => throw (PrismaError "PrismaClientValidationError" "Invalid invocation")
  end.

(** ** repos/auth.prisma.store.ts *)

Record UserRecord := {
  u_id : string;
  u_email : string;
  u_passwordHash : string;
  u_roleIds : list string;
  u_permissions : list string
}.

Record SessionRecord := {
  s_id : string;
  s_userId : string;
  currentRefreshJti : string;
  createdAt : Z;
  revokedAt : option Z
}.

(** [new Set()] filled by [add] and read back by [Array.from]: each name
    once, in the order of its first insertion. *)
Definition set_add (acc : list string) (x : string) : list string :=
  if bool_decide (x ∈ acc) then acc else acc ++ [x].

Module PrismaUserRepository.

Definition findByEmail (email : string) : M (option UserRecord) :=
  fun db =>
    match List.find (fun u => bool_decide (row_email u = email)) (users db) with
    | None => (db, Ok None)
    | Some user =>
        let roleIds := List.map roleId (roleLinks user) in
        let permissions :=
          fold_left (fun set link => fold_left set_add (rolePerms link) set)
                    (roleLinks user) [] in
        (db, Ok (Some {| u_id := row_id user;
                         u_email := row_email user;
                         u_passwordHash := row_passwordHash user;
                         u_roleIds := roleIds;
                         u_permissions := permissions |}))
    end.

End PrismaUserRepository.

Module PrismaSessionStore.

Definition record_of (sessionId : string) (r : SessionRow) : SessionRecord :=
  {| s_id := sessionId;
     s_userId := row_userId r;
     currentRefreshJti := row_currentRefreshJti r;
     createdAt := row_createdAt r;
     revokedAt := row_revokedAt r |}.

(** [prisma.session.create]: the row gets the identifier the database
    generates and the creation time. An identifier already taken is a
    unique-constraint failure; the session table has a foreign key to the
    user table, so a [userId] no user row has is a foreign-key failure. *)
Definition create (io : Draw) (userId refreshJti : string) : M SessionRecord :=
  fun db =>
    match sessions db !! newSessionId io with
    | Some _ => (db, Throw (PrismaError "P2002" "Unique constraint failed"))
    | None =>
      if negb (existsb (fun u => bool_decide (row_id u = userId)) (users db)) then
        (db, Throw (PrismaError "P2003" "Foreign key constraint failed"))
      else
        let r := {| row_userId := userId;
                    row_currentRefreshJti := refreshJti;
                    row_createdAt := now io;
                    row_revokedAt := None |} in
        ({| users := users db;
            sessions := <[newSessionId io := r]> (sessions db);
            revokedTokens := revokedTokens db |},
         Ok (record_of (newSessionId io) r))
    end.

Definition get (sessionId : string) : M (option SessionRecord) :=
  fun db => (db, Ok (record_of sessionId <$> sessions db !! sessionId)).

(** [prisma.session.update] fails when no row has the identifier. *)
Definition update (sessionId : string) (f : SessionRow -> SessionRow) : M unit :=
  fun db =>
    match sessions db !! sessionId with
    | None => (db, Throw (PrismaError "P2025" "Record to update not found"))
    | Some r =>
        ({| users := users db;
            sessions := <[sessionId := f r]> (sessions db);
            revokedTokens := revokedTokens db |}, Ok tt)
    end.

Definition setRefreshJti (sessionId newJti : string) : M unit :=
  update sessionId (fun r =>
    {| row_userId := row_userId r;
       row_currentRefreshJti := newJti;
       row_createdAt := row_createdAt r;
       row_revokedAt := row_revokedAt r |}).

Definition revoke (io : Draw) (sessionId : string) : M unit :=
  update sessionId (fun r =>
    {| row_userId := row_userId r;
       row_currentRefreshJti := row_currentRefreshJti r;
       row_createdAt := row_createdAt r;
       row_revokedAt := Some (now io) |}).

End PrismaSessionStore.

Module PrismaRevocationStore.

Definition isRevoked (jti : string) : M bool :=
  fun db => (db, Ok (bool_decide (jti ∈ revokedTokens db))).

(** [upsert] with an empty [update]: inserts the identifier when it is
    not there yet. *)
Definition revoke (jti : string) : M unit :=
  fun db =>
    ({| users := users db;
        sessions := sessions db;
        revokedTokens := {[jti]} ∪ revokedTokens db |}, Ok tt).

End PrismaRevocationStore.

(** ** services/auth.service.ts *)

Record LoginUser := {
  lu_id : string;
  lu_email : string;
  lu_roleIds : list string;
  lu_permissions : list string
}.

Record Tokens := {
  accessToken : Token;
  refreshToken : Token
}.

Record LoginResponse := {
  user : LoginUser;
  tokens : Tokens
}.

(** [RefreshResponse] has the two fields of [Tokens]. *)
Definition RefreshResponse := Tokens.

(** The dependencies of the service. The repository and the two stores are
    the Prisma-backed ones; the token and hash services are optional. *)
Record Deps := {
  tokenService : option TokenService;
  hashService : option HashService
}.

Module AuthService.

Import PrismaUserRepository.

Definition loginWithPassword `{Platform} (deps : Deps) (io : Draw)
    (email password : string) : M LoginResponse :=
  match hashService deps with
  | None => throw (Error "HashService not configured")
  | Some hashService =>
  match tokenService deps with
  | None => throw (Error "TokenService not configured")
  | Some tokenService =>
      (* 1. Find user by email *)
      let* user := findByEmail email in
      match user with
      | None => throw INVALID_CREDENTIALS
      | Some user =>
          (* 2. Verify password *)
          let isValidPassword := hash_verify hashService password (u_passwordHash user) in
          if negb isValidPassword then throw INVALID_CREDENTIALS
          else
            (* 3. Generate refresh JTI *)
            let refreshJti := randomUUID io in
            (* 4. Create session *)
            let* session := PrismaSessionStore.create io (u_id user) refreshJti in
            (* 5. Generate tokens *)
            let* accessToken :=
              lift (generateAccessToken tokenService (now io)
                      {| ai_userId := u_id user;
                         ai_email := u_email user;
                         ai_roleIds := u_roleIds user;
                         ai_permissions := u_permissions user |}) in
            let* refreshToken :=
              lift (generateRefreshToken tokenService (now io)
                      {| ri_userId := u_id user;
                         ri_sessionId := s_id session;
                         ri_jti := refreshJti |}) in
            (* 6. Return response *)
            ret {| user := {| lu_id := u_id user;
                              lu_email := u_email user;
                              lu_roleIds := u_roleIds user;
                              lu_permissions := u_permissions user |};
                   tokens := {| accessToken := accessToken;
                                refreshToken := refreshToken |} |}
      end
  end
  end.

Definition refreshTokens `{Platform} (deps : Deps) (io : Draw)
    (refreshToken : Token) : M RefreshResponse :=
  match tokenService deps with
  | None => throw (Error "TokenService not configured")
  | Some tokenService =>
      (* 1. Verify refresh token *)
      let* payload :=
        try_catch (lift (verifyRefreshToken tokenService (now io) refreshToken))
                  (fun _ => throw INVALID_TOKEN) in
      (* 2. Check if JTI is revoked *)
      let* jti := prisma_string (rp_jti payload) in
      let* isRevoked := PrismaRevocationStore.isRevoked jti in
      if isRevoked then throw TOKEN_REVOKED
      else
        (* 3. Get session *)
        let* sessionId := prisma_string (rp_sessionId payload) in
        let* session := PrismaSessionStore.get sessionId in
        match session with
        | None => throw SESSION_NOT_FOUND
        | Some session =>
            (* 4. Check if session is revoked *)
            if bool_decide (is_Some (revokedAt session)) then throw SESSION_REVOKED
            else
              (* 5. Verify JTI matches current session JTI *)
              if negb (bool_decide (currentRefreshJti session = jti)) then
                (* Token reuse detected - revoke session *)
                do PrismaSessionStore.revoke io (s_id session) then
                do PrismaRevocationStore.revoke jti then
                throw TOKEN_REUSE_DETECTED
              else
                (* 6. Get user *)
                let* userId := prisma_string (rp_userId payload) in
                let* user := findByEmail userId in
                match user with
                | None => throw USER_NOT_FOUND
                | Some user =>
                    (* 7. Revoke old refresh token *)
                    do PrismaRevocationStore.revoke jti then
                    (* 8. Generate new refresh JTI *)
                    let newRefreshJti := randomUUID io in
                    (* 9. Update session with new JTI *)
                    do PrismaSessionStore.setRefreshJti (s_id session) newRefreshJti then
                    (* 10. Generate new tokens *)
                    let* accessToken :=
                      lift (generateAccessToken tokenService (now io)
                              {| ai_userId := u_id user;
                                 ai_email := u_email user;
                                 ai_roleIds := u_roleIds user;
                                 ai_permissions := u_permissions user |}) in
                    let* newRefreshToken :=
                      lift (generateRefreshToken tokenService (now io)
                              {| ri_userId := u_id user;
                                 ri_sessionId := s_id session;
                                 ri_jti := newRefreshJti |}) in
                    ret {| accessToken := accessToken;
                           refreshToken := newRefreshToken |}
                end
        end
  end.

Definition logout (io : Draw) (sessionId : string) : M unit :=
  let* session := PrismaSessionStore.get sessionId in
  match session with
  | None => ret tt (* Idempotent *)
  | Some session =>
      (* Revoke the session *)
      do PrismaSessionStore.revoke io sessionId then
      (* Revoke the current refresh token *)
      if negb (bool_decide (currentRefreshJti session = "")) then
        PrismaRevocationStore.revoke (currentRefreshJti session)
      else ret tt
  end.

Definition logoutWithToken (deps : Deps) (io : Draw) (refreshToken : Token) : M unit :=
  match tokenService deps with
  | None => throw (Error "TokenService not configured")
  | Some tokenService =>
      try_catch
        (let* payload := lift (verifyRefreshToken tokenService (now io) refreshToken) in
         let* sessionId := prisma_string (rp_sessionId payload) in
         logout io sessionId)
        (fun _ => ret tt) (* Token invalid or expired - logout is idempotent *)
  end.

End AuthService.

(** ** HTTP

    The JSON bodies the handlers send. *)
Inductive ResponseBody :=
| CodeMessage (code message : string)
| LoginOk (tokens : Tokens) (user : LoginUser)
| RefreshOk (accessToken refreshToken : Token)
| Success (success : bool)
| ErrorMessage (error message : string).

Record Response := {
  status : Z;
  json : ResponseBody
}.

(** A body field that holds a token when it is a string. *)
Inductive TokenField :=
| TokenAbsent
| TokenText (t : Token)
| TokenOther (truthy : bool).

Definition token_truthy (f : TokenField) : bool :=
  match f with
  | TokenAbsent => false
  | TokenText (NotAJwt raw) => negb (bool_decide (raw = ""))
  | TokenText (Signed _) => true
  | TokenText (BadPayload _) => true
  | TokenOther b => b
  end.

Definition token_is_string (f : TokenField) : bool :=
  match f with TokenText _ => true | _ => false end.

Record LoginBody := {
  lb_email : JsVal;
  lb_password : JsVal
}.

Record RefreshBody := {
  rb_refreshToken : TokenField
}.

Record LogoutBody := {
  ob_sessionId : JsVal;
  ob_refreshToken : TokenField
}.

Definition Handler : Type := Db -> Db * Response.

Definition respond (status : Z) (json : ResponseBody) : Handler :=
  fun db => (db, {| status := status; json := json |}).

(** ** controllers/auth.controller.ts *)

Module AuthController.

Definition login `{Platform} (deps : Deps) (io : Draw) (body : LoginBody) : Handler :=
  match lb_email body, lb_password body with
  | JString email, JString password =>
      if bool_decide (email = "") || bool_decide (password = "") then
        respond 400 (CodeMessage "BAD_REQUEST" "Email and password are required")
      else
        fun db =>
          match AuthService.loginWithPassword deps io email password db with
          | (db', Ok result) =>
              respond 200 (LoginOk (tokens result) (user result)) db'
          | (db', Throw error) =>
              if bool_decide (message_of error = "INVALID_CREDENTIALS") then
                respond 401 (CodeMessage "INVALID_CREDENTIALS" "Invalid email or password") db'
              else
                respond 400 (CodeMessage "BAD_REQUEST" "Authentication failed") db'
          end
  | _, _ => respond 400 (CodeMessage "BAD_REQUEST" "Email and password are required")
  end.

Definition refresh `{Platform} (deps : Deps) (io : Draw) (body : RefreshBody) : Handler :=
  match rb_refreshToken body with
  | TokenText token =>
      if negb (token_truthy (TokenText token)) then
        respond 400 (CodeMessage "BAD_REQUEST" "Refresh token is required")
      else
        fun db =>
          match AuthService.refreshTokens deps io token db with
          | (db', Ok result) =>
              respond 200 (RefreshOk (accessToken result) (refreshToken result)) db'
          | (db', Throw error) =>
              if bool_decide (message_of error = "TOKEN_EXPIRED") then
                respond 401 (CodeMessage "TOKEN_EXPIRED" "Refresh token expired") db'
              else if bool_decide (message_of error = "TOKEN_REVOKED")
                      || bool_decide (message_of error = "SESSION_REVOKED") then
                respond 401 (CodeMessage "TOKEN_REVOKED" "Token has been revoked") db'
              else if bool_decide (message_of error = "TOKEN_REUSE_DETECTED") then
                respond 401 (CodeMessage "TOKEN_REUSE_DETECTED"
                               "Token reuse detected - session revoked") db'
              else if bool_decide (message_of error = "INVALID_TOKEN") then
                respond 401 (CodeMessage "INVALID_TOKEN" "Invalid refresh token") db'
              else
                respond 400 (CodeMessage "BAD_REQUEST" "Token refresh failed") db'
          end
  | _ => respond 400 (CodeMessage "BAD_REQUEST" "Refresh token is required")
  end.

Definition logout (deps : Deps) (io : Draw) (body : LogoutBody) : Handler :=
  let sessionId := ob_sessionId body in
  let token := ob_refreshToken body in
  (* Validation: at least one identifier required *)
  if negb (truthy sessionId) && negb (token_truthy token) then
    respond 400 (CodeMessage "BAD_REQUEST" "Either sessionId or refreshToken is required")
  (* Validate types if present *)
  else if truthy sessionId && negb (is_string sessionId) then
    respond 400 (CodeMessage "BAD_REQUEST" "Invalid sessionId format")
  else if token_truthy token && negb (token_is_string token) then
    respond 400 (CodeMessage "BAD_REQUEST" "Invalid refreshToken format")
  else
    fun db =>
      (* Call logout service (idempotent) *)
      let by_session : M unit :=
        match sessionId with
        | JString s => if truthy sessionId then AuthService.logout io s else ret tt
        | _ => ret tt
        end in
      let service_call : M unit :=
        match token with
        | TokenText t =>
            if token_truthy token then AuthService.logoutWithToken deps io t
            else by_session
        | _ => by_session
        end in
      match service_call db with
      | (db', Ok _) =>
          (* Always return success (idempotent) *)
          respond 200 (Success true) db'
      | (db', Throw _) =>
          (* Even on error, return success (idempotent logout) *)
          respond 200 (Success true) db'
      end.

End AuthController.

(** ** middlewares/auth.middleware.ts *)

Definition lower_ascii (c : Ascii.ascii) : Ascii.ascii :=
  let n := Ascii.nat_of_ascii c in
  if (65 <=? n)%nat && (n <=? 90)%nat then Ascii.ascii_of_nat (n + 32) else c.

(** [s.toLowerCase()], exact on the letters of [bearer]. *)
Fixpoint toLowerCase (s : string) : string :=
  match s with
  | EmptyString => EmptyString
  | String c s' => String (lower_ascii c) (toLowerCase s')
  end.

(** The [Authorization] header: absent (or empty), or the parts that
    [authHeader.trim().split(/\s+/)] yields, of which the second is read as
    a token. *)
Record AuthorizationHeader := {
  scheme : string;
  credentials : list Token
}.

Inductive MiddlewareResult :=
| Next (user : AccessPayload)
| Respond (r : Response).

Definition requireAuth (tokenService : TokenService) (clock : Z)
    (authHeader : option AuthorizationHeader) : MiddlewareResult :=
  match authHeader with
  | None =>
      Respond {| status := 401; json := ErrorMessage "Unauthorized" "Authentication required" |}
  | Some h =>
      match credentials h with
      | [token] =>
          if negb (bool_decide (toLowerCase (scheme h) = "bearer")) then
            Respond {| status := 401;
                       json := ErrorMessage "Unauthorized" "Invalid authorization format" |}
          else if negb (token_truthy (TokenText token)) then
            Respond {| status := 401; json := ErrorMessage "Unauthorized" "Token missing" |}
          else
            match verifyAccessToken tokenService clock token with
            | Ok payload =>
                Next {| ap_userId := ap_userId payload;
                        ap_email := ap_email payload;
                        ap_roleIds := ap_roleIds payload;
                        ap_permissions := ap_permissions payload |}
            | Throw error =>
                if bool_decide (message_of error = "TOKEN_EXPIRED") then
                  Respond {| status := 401; json := ErrorMessage "Unauthorized" "Token expired" |}
                else if bool_decide (message_of error = "INVALID_TOKEN") then
                  Respond {| status := 401; json := ErrorMessage "Unauthorized" "Invalid token" |}
                else
                  Respond {| status := 401;
                             json := ErrorMessage "Unauthorized" "Authentication failed" |}
            end
      | _ =>
          Respond {| status := 401;
                     json := ErrorMessage "Unauthorized" "Invalid authorization format" |}
      end
  end.

(** [req.user], read at its declared type [AuthenticatedUser]. *)
Record AuthenticatedUser := {
  au_userId : string;
  au_email : string;
  au_roleIds : list string;
  au_permissions : list string
}.

(** What a guard does with a request: call [next()] or answer. *)
Inductive GuardResult :=
| GuardNext
| GuardRespond (r : Response).

(** [requiredIds.some((id) => held.includes(id))] *)
Definition some_included (required held : list string) : bool :=
  existsb (fun x => bool_decide (x ∈ held)) required.

(** [requiredIds.every((id) => held.includes(id))] *)
Definition every_included (required held : list string) : bool :=
  forallb (fun x => bool_decide (x ∈ held)) required.

(** The two refusals of the guards. *)
Definition unauthorized : GuardResult :=
  GuardRespond {| status := 401;
                  json := ErrorMessage "Unauthorized" "Authentication required" |}.

Definition forbidden : GuardResult :=
  GuardRespond {| status := 403;
                  json := ErrorMessage "Forbidden" "Insufficient permissions" |}.

Definition requireRole (roleIds : list string) (user : option AuthenticatedUser)
    : GuardResult :=
  match user with
  | None =>
      GuardRespond {| status := 401;
                      json := ErrorMessage "Unauthorized" "Authentication required" |}
  | Some user =>
      let userRoleIds := au_roleIds user in
      let hasRole := some_included roleIds userRoleIds in
      if negb hasRole then
        GuardRespond {| status := 403;
                        json := ErrorMessage "Forbidden" "Insufficient permissions" |}
      else GuardNext
  end.

Definition requirePermission (permissions : list string) (user : option AuthenticatedUser)
    : GuardResult :=
  match user with
  | None =>
      GuardRespond {| status := 401;
                      json := ErrorMessage "Unauthorized" "Authentication required" |}
  | Some user =>
      let userPermissions := au_permissions user in
      let hasPermission := some_included permissions userPermissions in
      if negb hasPermission then
        GuardRespond {| status := 403;
                        json := ErrorMessage "Forbidden" "Insufficient permissions" |}
      else GuardNext
  end.

Definition requireAllPermissions (permissions : list string)
    (user : option AuthenticatedUser) : GuardResult :=
  match user with
  | None =>
      GuardRespond {| status := 401;
                      json := ErrorMessage "Unauthorized" "Authentication required" |}
  | Some user =>
      let userPermissions := au_permissions user in
      let hasAllPermissions := every_included permissions userPermissions in
      if negb hasAllPermissions then
        GuardRespond {| status := 403;
                        json := ErrorMessage "Forbidden" "Insufficient permissions" |}
      else GuardNext
  end.

(** The claims of a user as [requireAuth] finds them in a token the token
    service made for that user. *)
Definition payload_of_user (u : AuthenticatedUser) : AccessPayload :=
  {| ap_userId := JString (au_userId u);
     ap_email := JString (au_email u);
     ap_roleIds := JStrings (au_roleIds u);
     ap_permissions := JStrings (au_permissions u) |}.

(** ** types/auth.ts *)

Definition hasRole (userRoles : list string) (requiredRole : string) : bool :=
  bool_decide (requiredRole ∈ userRoles).

Definition hasPermission (userPermissions : list string) (requiredPermission : string)
    : bool :=
  bool_decide (requiredPermission ∈ userPermissions).

Definition hasAnyRole (userRoles requiredRoles : list string) : bool :=
  existsb (fun role => bool_decide (role ∈ userRoles)) requiredRoles.

Definition hasAllRoles (userRoles requiredRoles : list string) : bool :=
  forallb (fun role => bool_decide (role ∈ userRoles)) requiredRoles.

Definition hasAnyPermission (userPermissions requiredPermissions : list string) : bool :=
  existsb (fun perm => bool_decide (perm ∈ userPermissions)) requiredPermissions.

Definition hasAllPermissions (userPermissions requiredPermissions : list string) : bool :=
  forallb (fun perm => bool_decide (perm ∈ userPermissions)) requiredPermissions.

(** ** repos/auth.prisma.store.ts, app.ts and routes/auth.routes.ts *)

(** [new HashService(config)]: [config?.saltRounds || 10], where 0 is falsy. *)
Definition new_HashService (saltRounds : option Z) : HashService :=
  {| saltRounds := match saltRounds with
                   | Some n => if bool_decide (n = 0) then 10 else n
                   | None => 10
                   end |}.

Definition buildPrismaAuthService (env : ProcessEnv) : Deps :=
  {| tokenService := Some (new_TokenService None env);
     hashService := Some (new_HashService None) |}.

(** The three routes of the authentication router. *)
Inductive AuthRoute :=
| PostLogin (body : LoginBody)
| PostRefresh (body : RefreshBody)
| PostLogout (body : LogoutBody).

(** [buildAuthRoutes]: [/login] and [/refresh] go straight to their
    handlers, [/logout] goes through [requireAuth()] first. The middleware
    uses the token service its module builds from the environment. *)
Definition buildAuthRoutes `{Platform} (deps : Deps) (env : ProcessEnv) (io : Draw)
    (authorization : option AuthorizationHeader) (route : AuthRoute) : Handler :=
  match route with
  | PostLogin body => AuthController.login deps io body
  | PostRefresh body => AuthController.refresh deps io body
  | PostLogout body =>
      match requireAuth (new_TokenService None env) (now io) authorization with
      | Respond r => fun db => (db, r)
      | Next _ => AuthController.logout deps io body
      end
  end.

(** [buildApp]: the router over the Prisma-backed service. *)
Definition buildApp `{Platform} (env : ProcessEnv) (io : Draw)
    (authorization : option AuthorizationHeader) (route : AuthRoute) : Handler :=
  buildAuthRoutes (buildPrismaAuthService env) env io authorization route.

(** ** config/auth.ts *)

(** A JavaScript number that holds an integer: exactly, when its magnitude
    is at most 2^53, and otherwise as some nearby double this development
    does not compute. *)
Inductive JsNumber :=
| Exact (n : Z)
| Rounded.

Definition js_integer (n : Z) : JsNumber :=
  if bool_decide (Z.abs n <= 2 ^ 53) then Exact n else Rounded.

(** [a * k] for an integer constant [k]. *)
Definition js_times (a : JsNumber) (k : Z) : JsNumber :=
  match a with
  | Exact n => js_integer (n * k)
  | Rounded => Rounded
  end.

(** [parseInt(value, 10)] on an arbitrary string is left to the platform;
    nothing stands for [NaN]. *)
Class Builtins := {
  parseInt10 : string -> option JsNumber
}.

Definition toBool (value : option string) : bool :=
  match value with
  | Some v => bool_decide (toLowerCase v = "true")
  | None => false
  end.

Definition toInt `{Builtins} (value : option string) (defaultValue : JsNumber) : JsNumber :=
  match value with
  | None => defaultValue
  | Some v =>
      if bool_decide (v = "") then defaultValue
      else match parseInt10 v with
           | None => defaultValue
           | Some parsed => parsed
           end
  end.

(** [\d] *)
Definition is_digit (c : Ascii.ascii) : bool :=
  let n := Ascii.nat_of_ascii c in
  (48 <=? n)%nat && (n <=? 57)%nat.

Fixpoint all_digits (s : string) : bool :=
  match s with
  | EmptyString => true
  | String c s' => is_digit c && all_digits s'
  end.

(** The decimal value of a string of digits, most significant first. *)
Fixpoint decimal_value (acc : Z) (s : string) : Z :=
  match s with
  | EmptyString => acc
  | String c s' => decimal_value (10 * acc + (Z.of_nat (Ascii.nat_of_ascii c) - 48)) s'
  end.

(** A string cut before its last character. *)
Fixpoint split_last (s : string) : option (string * Ascii.ascii) :=
  match s with
  | EmptyString => None
  | String c s' =>
      match split_last s' with
      | None => Some (EmptyString, c)
      | Some (front, last) => Some (String c front, last)
      end
  end.

(** [duration.match(/^(\d+)([mhd])$/)]: the two groups, when the whole
    string is one or more digits followed by one of [m], [h], [d]. *)
Definition match_duration (duration : string) : option (string * Ascii.ascii) :=
  match split_last duration with
  | None => None
  | Some (digits, unit) =>
      if negb (bool_decide (digits = "")) && all_digits digits
         && (bool_decide (unit = "m"%char) || bool_decide (unit = "h"%char)
             || bool_decide (unit = "d"%char))
      then Some (digits, unit)
      else None
  end.

Definition invalid_duration (duration : string) : JsError :=
  Error ("Format de durée invalide: " +:+ duration +:+ ". Utilisez "
         +:+ double_quote +:+ "15m" +:+ double_quote +:+ ", "
         +:+ double_quote +:+ "2h" +:+ double_quote +:+ ", "
         +:+ double_quote +:+ "30d" +:+ double_quote).

Definition parseDuration (duration : string) : Outcome JsNumber :=
  match match_duration duration with
  | None => Throw (invalid_duration duration)
  | Some (digits, unit) =>
      let value := js_integer (decimal_value 0 digits) in
      if bool_decide (unit = "m"%char) then Ok (js_times (js_times value 60) 1000)
      else if bool_decide (unit = "h"%char) then
        Ok (js_times (js_times (js_times value 60) 60) 1000)
      else if bool_decide (unit = "d"%char) then
        Ok (js_times (js_times (js_times (js_times value 24) 60) 60) 1000)
      else Throw (Error ("Unité de temps non supportée: " +:+ String unit EmptyString))
  end.

(** The variables of [process.env] the configuration module reads. The two
    secrets are the ones the token service reads too. *)
Record ConfigEnv := {
  token_env : ProcessEnv;
  JWT_ACCESS_EXPIRES : option string;
  JWT_REFRESH_EXPIRES : option string;
  BCRYPT_SALT_ROUNDS : option string;
  MFA_ENABLED : option string;
  NODE_ENV : option string
}.

Record CookieOptions := {
  httpOnly : bool;
  secure : bool;
  sameSite : string;
  maxAge : JsNumber;
  path : string
}.

Record AuthConfig := {
  configVersion : string;
  jwtAccessSecret : string;
  jwtRefreshSecret : string;
  jwtAccessExpires : string;
  jwtRefreshExpires : string;
  jwtAccessExpiresMs : JsNumber;
  jwtRefreshExpiresMs : JsNumber;
  bcryptSaltRounds : JsNumber;
  mfaEnabled : bool;
  lockoutDurationMinutes : Z;
  maxFailedAttempts : Z;
  sessionTimeoutMinutes : Z;
  refreshTokenCookieName : string;
  cookieOptions : CookieOptions
}.

(** Evaluating the module: the checks on the secrets, then the fields of
    [authConfig] in the order they are written. *)
Definition authConfig `{Builtins} (env : ConfigEnv) : Outcome AuthConfig :=
  let access_expires := or_else (JWT_ACCESS_EXPIRES env) "15m" in
  let refresh_expires := or_else (JWT_REFRESH_EXPIRES env) "30d" in
  match JWT_ACCESS_SECRET (token_env env), JWT_REFRESH_SECRET (token_env env) with
  | None, _ =>
      Throw (Error "JWT_ACCESS_SECRET est obligatoire dans les variables d'environnement")
  | Some access, refresh =>
      if bool_decide (access = "") then
        Throw (Error "JWT_ACCESS_SECRET est obligatoire dans les variables d'environnement")
      else
        match refresh with
        | None =>
            Throw (Error "JWT_REFRESH_SECRET est obligatoire dans les variables d'environnement")
        | Some refresh =>
            if bool_decide (refresh = "") then
              Throw (Error "JWT_REFRESH_SECRET est obligatoire dans les variables d'environnement")
            else if bool_decide (access = refresh) then
              Throw (Error "JWT_ACCESS_SECRET et JWT_REFRESH_SECRET doivent être différents pour la sécurité")
            else
              match parseDuration access_expires with
              | Throw e => Throw e
              | Ok accessMs =>
                  match parseDuration refresh_expires with
                  | Throw e => Throw e
                  | Ok refreshMs =>
                      Ok {| configVersion := "1.0.0";
                            jwtAccessSecret := access;
                            jwtRefreshSecret := refresh;
                            jwtAccessExpires := access_expires;
                            jwtRefreshExpires := refresh_expires;
                            jwtAccessExpiresMs := accessMs;
                            jwtRefreshExpiresMs := refreshMs;
                            bcryptSaltRounds := toInt (BCRYPT_SALT_ROUNDS env) (Exact 12);
                            mfaEnabled := toBool (MFA_ENABLED env);
                            lockoutDurationMinutes := 30;
                            maxFailedAttempts := 5;
                            sessionTimeoutMinutes := 120;
                            refreshTokenCookieName := "sogas_refresh_token";
                            cookieOptions :=
                              {| httpOnly := true;
                                 secure := bool_decide (NODE_ENV env = Some "production");
                                 sameSite := "strict";
                                 maxAge := refreshMs;
                                 path := "/api/auth" |} |}
                  end
              end
        end
  end.

(** ** Vocabulary of the statements *)

Inductive Request :=
| ReqLogin (io : Draw) (email password : string)
| ReqRefresh (io : Draw) (refreshToken : Token)
| ReqLogout (io : Draw) (sessionId : string)
| ReqLogoutWithToken (io : Draw) (refreshToken : Token).

(** The database after the service has handled a request. *)
Definition serve `{Platform} (deps : Deps) (r : Request) (db : Db) : Db :=
  match r with
  | ReqLogin io email password => fst (AuthService.loginWithPassword deps io email password db)
  | ReqRefresh io t => fst (AuthService.refreshTokens deps io t db)
  | ReqLogout io sessionId => fst (AuthService.logout io sessionId db)
  | ReqLogoutWithToken io t => fst (AuthService.logoutWithToken deps io t db)
  end.

Definition serve_all `{Platform} (deps : Deps) (rs : list Request) (db : Db) : Db :=
  fold_left (fun db r => serve deps r db) rs db.

(** The [jti] a token embeds. *)
Definition jti_of (token : Token) : JsVal :=
  match decode token with
  | Ok (Some c) => jti c
  | _ => JUndefined
  end.

(** The session a token names. *)
Definition session_of (token : Token) : JsVal :=
  match decode token with
  | Ok (Some c) => sessionId c
  | _ => JUndefined
  end.

(** The row a successful refresh leaves in the session table. *)
Definition rotated (row : SessionRow) (newJti : string) : SessionRow :=
  {| row_userId := row_userId row;
     row_currentRefreshJti := newJti;
     row_createdAt := row_createdAt row;
     row_revokedAt := row_revokedAt row |}.

(** The failures [refreshTokens] raises before it writes anything. *)
Definition early_failure (e : JsError) : Prop :=
  e = INVALID_TOKEN \/ e = TOKEN_REVOKED \/ e = SESSION_NOT_FOUND \/ e = SESSION_REVOKED.

(** A session whose revocation timestamp is set. *)
Definition session_revoked (db : Db) (sid : string) : Prop :=
  exists row, sessions db !! sid = Some row /\ is_Some (row_revokedAt row).

(** [db'] has every ledger entry and every revoked session of [db]. *)
Definition evolves (db db' : Db) : Prop :=
  revokedTokens db ⊆ revokedTokens db' /\
  forall sid, session_revoked db sid -> session_revoked db' sid.

(** A computation that never removes a ledger entry and never clears a
    revocation timestamp, however it ends. *)
Definition monotone {A} (m : M A) : Prop :=
  forall db, evolves db (fst (m db)).

(** The [currentRefreshJti] of a stored session. *)
Definition current_jti (db : Db) (sid : string) : option string :=
  row_currentRefreshJti <$> sessions db !! sid.

(** Successive refreshes, each presenting the refresh token the previous
    call issued; the result is the final database and the refresh tokens
    issued, oldest first, or nothing as soon as one call throws. *)
Fixpoint refresh_chain `{Platform} (deps : Deps) (ios : list Draw) (presented : Token)
    (db : Db) : option (Db * list Token) :=
  match ios with
  | [] => Some (db, [])
  | io :: ios' =>
      match AuthService.refreshTokens deps io presented db with
      | (db', Ok r) =>
          match refresh_chain deps ios' (refreshToken r) db' with
          | Some (db'', issued) => Some (db'', refreshToken r :: issued)
          | None => None
          end
      | (_, Throw _) => None
      end
  end.

(** The refresh token a request hands out, if any. *)
Definition issued_by `{Platform} (deps : Deps) (r : Request) (db : Db) : list Token :=
  match r with
  | ReqLogin io email password =>
      match snd (AuthService.loginWithPassword deps io email password db) with
      | Ok resp => [refreshToken (tokens resp)]
      | Throw _ => []
      end
  | ReqRefresh io t =>
      match snd (AuthService.refreshTokens deps io t db) with
      | Ok resp => [refreshToken resp]
      | Throw _ => []
      end
  | ReqLogout _ _ => []
  | ReqLogoutWithToken _ _ => []
  end.

(** The refresh tokens handed out while a list of requests is served. *)
Fixpoint issued_all `{Platform} (deps : Deps) (rs : list Request) (db : Db) : list Token :=
  match rs with
  | [] => []
  | r :: rs' => issued_by deps r db ++ issued_all deps rs' (serve deps r db)
  end.

(** A token whose session is stored and whose [jti] is either the current
    one of that session or in the ledger. *)
Definition accounted (db : Db) (t : Token) : Prop :=
  exists sid j row,
    session_of t = JString sid /\ jti_of t = JString j /\
    sessions db !! sid = Some row /\
    (row_currentRefreshJti row = j \/ j ∈ revokedTokens db).

(** [db'] keeps the ledger and the sessions of [db], and a session whose
    current [jti] has changed has its former one in the ledger. *)
Definition extends (db db' : Db) : Prop :=
  revokedTokens db ⊆ revokedTokens db' /\
  forall sid row, sessions db !! sid = Some row ->
    exists row', sessions db' !! sid = Some row' /\
      (row_currentRefreshJti row' = row_currentRefreshJti row \/
       row_currentRefreshJti row ∈ revokedTokens db').

(** A computation that leaves every session its current [jti]. *)
Definition conservative {A} (m : M A) : Prop :=
  forall db, extends db (fst (m db)).

(** The session row of a user, as [create] writes it. *)
Definition fresh_row (io : Draw) (userId : string) : SessionRow :=
  {| row_userId := userId;
     row_currentRefreshJti := randomUUID io;
     row_createdAt := now io;
     row_revokedAt := None |}.

(** The row [revoke] leaves. *)
Definition revoked_row (io : Draw) (row : SessionRow) : SessionRow :=
  {| row_userId := row_userId row;
     row_currentRefreshJti := row_currentRefreshJti row;
     row_createdAt := row_createdAt row;
     row_revokedAt := Some (now io) |}.

(** The summary of a user that [loginWithPassword] returns. *)
Definition summary_of (u : UserRecord) : LoginUser :=
  {| lu_id := u_id u; lu_email := u_email u;
     lu_roleIds := u_roleIds u; lu_permissions := u_permissions u |}.

(** A user as the guards see it after [requireAuth]. *)
Definition authenticated (u : UserRecord) : AuthenticatedUser :=
  {| au_userId := u_id u; au_email := u_email u;
     au_roleIds := u_roleIds u; au_permissions := u_permissions u |}.

(** The database after a session row has been written at [sid]. *)
Definition with_session (db : Db) (sid : string) (row : SessionRow) : Db :=
  {| users := users db;
     sessions := <[sid := row]> (sessions db);
     revokedTokens := revokedTokens db |}.

(** The ledger after [logout] has dealt with a session whose current [jti]
    is [jti]: the [jti] is added unless it is the empty string. *)
Definition ledger_after_logout (db : Db) (jti : string) : gset string :=
  if bool_decide (jti = "") then revokedTokens db else {[jti]} ∪ revokedTokens db.

(** [db'] has the users of [db], and every session of [db] with the same
    owner and creation time. *)
Definition frames (db db' : Db) : Prop :=
  users db' = users db /\
  forall sid row, sessions db !! sid = Some row ->
    exists row', sessions db' !! sid = Some row' /\
      row_userId row' = row_userId row /\ row_createdAt row' = row_createdAt row.

Definition framing {A} (m : M A) : Prop :=
  forall db, frames db (fst (m db)).

(** A login body the handler accepts: both fields are strings and neither
    is empty. *)
Definition well_formed_login (body : LoginBody) : bool :=
  truthy (lb_email body) && truthy (lb_password body)
  && is_string (lb_email body) && is_string (lb_password body).

(** Milliseconds in one unit of [parseDuration]. *)
Definition unit_factor (unit : Ascii.ascii) : Z :=
  if bool_decide (unit = "m"%char) then 60000
  else if bool_decide (unit = "h"%char) then 3600000
  else if bool_decide (unit = "d"%char) then 86400000
  else 0.

(** ** Concrete data used to exercise the definitions *)

Module Fixture.

Definition ms_of (s : string) : option Z :=
  if bool_decide (s = "15m") then Some 900000
  else if bool_decide (s = "7d") then Some 604800000
  else None.

Definition compare (password hash : string) : bool :=
  bool_decide (hash = "$2b$" +:+ password).

Definition platform : Platform :=
  {| ms := ms_of; bcrypt_compare := compare |}.

Definition no_env : ProcessEnv :=
  {| JWT_ACCESS_SECRET := None; JWT_REFRESH_SECRET := None;
     JWT_ACCESS_EXPIRES_IN := None; JWT_REFRESH_EXPIRES_IN := None |}.

(** [new TokenService()] with nothing in the environment. *)
Definition default_service : TokenService := new_TokenService None no_env.

(** A service given the same secret twice. *)
Definition one_secret_service : TokenService :=
  new_TokenService
    (Some {| cfg_accessSecret := Some "k"; cfg_refreshSecret := Some "k";
             cfg_accessExpiresIn := None; cfg_refreshExpiresIn := None |})
    no_env.

Definition deps : Deps :=
  {| tokenService := Some default_service;
     hashService := Some {| saltRounds := 10 |} |}.

Definition admin_links : list RoleLink :=
  [ {| roleId := "r1"; rolePerms := ["users.read"; "users.write"] |};
    {| roleId := "r2"; rolePerms := ["users.read"] |} ].

Definition alice : UserRow :=
  {| row_id := "u1"; row_email := "a@x.com";
     row_passwordHash := "$2b$P@ss1"; roleLinks := admin_links |}.

(** A user whose e-mail address is spelled like its identifier. *)
Definition looped : UserRow :=
  {| row_id := "loop"; row_email := "loop";
     row_passwordHash := "$2b$pw"; roleLinks := [] |}.

Definition db0 : Db :=
  {| users := [alice; looped]; sessions := ∅; revokedTokens := ∅ |}.

Definition draw (clock : Z) (uuid sid : string) : Draw :=
  {| now := clock; randomUUID := uuid; newSessionId := sid |}.

Definition alice_claims : AccessPayloadIn :=
  {| ai_userId := "u1"; ai_email := "a@x.com";
     ai_roleIds := ["r1"; "r2"]; ai_permissions := ["users.read"; "users.write"] |}.

Definition refresh_jws (secret : string) (type : string) (exp : Z) : Jws :=
  {| signedWith := secret;
     claims := {| sub := JString "u1"; email := JUndefined; roleIds := JUndefined;
                  permissions := JUndefined; sessionId := JString "s1";
                  jti := JString "j1"; type := JString type |};
     iat := 0; exp := Some exp; iss := "sogas-rh"; aud := "sogas-rh-api" |}.

(** Alice logs in at time 0; the login draws [j0] and the session is [s0]. *)
Definition io0 : Draw := draw 0 "j0" "s0".

Definition login0 : Db * Outcome LoginResponse :=
  AuthService.loginWithPassword (H:=platform) deps io0 "a@x.com" "P@ss1" db0.

Definition db1 : Db := fst login0.

Definition token0 : Token :=
  match snd login0 with
  | Ok r => refreshToken (tokens r)
  | Throw _ => NotAJwt ""
  end.

(** The same for the user whose e-mail address is its identifier. *)
Definition loop_login : Db * Outcome LoginResponse :=
  AuthService.loginWithPassword (H:=platform) deps io0 "loop" "pw" db0.

Definition loop_db1 : Db := fst loop_login.

Definition loop_token0 : Token :=
  match snd loop_login with
  | Ok r => refreshToken (tokens r)
  | Throw _ => NotAJwt ""
  end.

(** Seven days in milliseconds, the lifetime of a refresh token. *)
Definition seven_days : Z := 604800000.

Definition io1 : Draw := draw 1000 "j1" "s1".
Definition io2 : Draw := draw 2000 "j2" "s2".
Definition late : Draw := draw seven_days "j9" "s9".




(** One refresh after that login. *)
Definition loop_once : Db * list Token :=
  default (loop_db1, []) (refresh_chain (H:=platform) deps [io1] loop_token0 loop_db1).

Definition session_row (jti : string) (revokedAt : option Z) : SessionRow :=
  {| row_userId := "u1"; row_currentRefreshJti := jti;
     row_createdAt := 0; row_revokedAt := revokedAt |}.

(** Session [s1] has moved on to [j2], and [j1] is not in the ledger. *)
Definition db_rotated : Db :=
  {| users := [alice]; sessions := {[ "s1" := session_row "j2" None ]};
     revokedTokens := ∅ |}.

(** Session [s1] was revoked at time 100. *)
Definition db_revoked : Db :=
  {| users := [alice]; sessions := {[ "s1" := session_row "j1" (Some 100) ]};
     revokedTokens := {[ "j1" ]} |}.

(** A refresh token for session [s1] with [jti] [j1], good for a long time. *)
Definition token_j1 : Token :=
  Signed (refresh_jws "refresh-secret-change-me" "refresh" 1000000).

Definition payload_j1 : RefreshPayload :=
  {| rp_userId := JString "u1"; rp_sessionId := JString "s1"; rp_jti := JString "j1" |}.

(** What Alice's login token decodes to, and her session row. *)
Definition payload0 : RefreshPayload :=
  {| rp_userId := JString "u1"; rp_sessionId := JString "s0"; rp_jti := JString "j0" |}.

Definition row0 : SessionRow := session_row "j0" None.

Definition token_or_nothing (o : Outcome Token) : Token :=
  match o with
  | Ok t => t
  | Throw _ => NotAJwt ""
  end.

Definition alice_access : Token :=
  token_or_nothing (generateAccessToken (H:=platform) default_service 0 alice_claims).

Definition alice_refresh : Token :=
  token_or_nothing
    (generateRefreshToken (H:=platform) default_service 0
       {| ri_userId := "u1"; ri_sessionId := "s0"; ri_jti := "j0" |}).

Definition one_secret_access : Token :=
  token_or_nothing (generateAccessToken (H:=platform) one_secret_service 0 alice_claims).

(** Signed with the access secret, but typed as a refresh token. *)
Definition mistyped (exp : Z) : Token :=
  Signed (refresh_jws "access-secret-change-me" "refresh" exp).

Definition bearer (token : Token) : AuthorizationHeader :=
  {| scheme := "Bearer"; credentials := [token] |}.

(** The records [findByEmail] returns for the two users. *)
Definition alice_record : UserRecord :=
  {| u_id := "u1"; u_email := "a@x.com"; u_passwordHash := "$2b$P@ss1";
     u_roleIds := ["r1"; "r2"]; u_permissions := ["users.read"; "users.write"] |}.

Definition loop_record : UserRecord :=
  {| u_id := "loop"; u_email := "loop"; u_passwordHash := "$2b$pw";
     u_roleIds := []; u_permissions := [] |}.

Definition hash10 : HashService := {| saltRounds := 10 |}.

(** A service whose access-token lifetime the platform cannot read. *)
Definition unreadable_service : TokenService :=
  new_TokenService
    (Some {| cfg_accessSecret := None; cfg_refreshSecret := None;
             cfg_accessExpiresIn := Some "soon"; cfg_refreshExpiresIn := None |})
    no_env.

Definition unreadable_deps : Deps :=
  {| tokenService := Some unreadable_service; hashService := Some hash10 |}.

(** Session [s1] is revoked and the ledger is empty. *)
Definition db_revoked_only : Db :=
  {| users := [alice]; sessions := {[ "s1" := session_row "j1" (Some 100) ]};
     revokedTokens := ∅ |}.

(** The session row of the looped user after its login. *)
Definition loop_row : SessionRow :=
  {| row_userId := "loop"; row_currentRefreshJti := "j0";
     row_createdAt := 0; row_revokedAt := None |}.

Definition loop_payload : RefreshPayload :=
  {| rp_userId := JString "loop"; rp_sessionId := JString "s0"; rp_jti := JString "j0" |}.

(** A login and a refresh of the looped user, as requests. *)
Definition two_requests : list Request :=
  [ReqLogin io0 "loop" "pw"; ReqRefresh io1 loop_token0].

Definition reader : AuthenticatedUser :=
  {| au_userId := "u2"; au_email := "b@x.com";
     au_roleIds := ["r2"]; au_permissions := ["users.read"] |}.

Definition editor : AuthenticatedUser :=
  {| au_userId := "u1"; au_email := "a@x.com";
     au_roleIds := ["r1"; "r2"]; au_permissions := ["users.read"; "users.write"] |}.

Definition parse_int (s : string) : option JsNumber :=
  if bool_decide (s = "12") then Some (Exact 12)
  else if bool_decide (s = "10") then Some (Exact 10)
  else None.

Definition builtins : Builtins := {| parseInt10 := parse_int |}.

Definition config_env : ConfigEnv :=
  {| token_env := {| JWT_ACCESS_SECRET := Some "access-key";
                     JWT_REFRESH_SECRET := Some "refresh-key";
                     JWT_ACCESS_EXPIRES_IN := None; JWT_REFRESH_EXPIRES_IN := None |};
     JWT_ACCESS_EXPIRES := None; JWT_REFRESH_EXPIRES := Some "7d";
     BCRYPT_SALT_ROUNDS := Some "10"; MFA_ENABLED := Some "TRUE";
     NODE_ENV := Some "production" |}.

(** What the configuration module exports for that environment. *)
Definition config0 : AuthConfig :=
  {| configVersion := "1.0.0";
     jwtAccessSecret := "access-key";
     jwtRefreshSecret := "refresh-key";
     jwtAccessExpires := "15m";
     jwtRefreshExpires := "7d";
     jwtAccessExpiresMs := Exact 900000;
     jwtRefreshExpiresMs := Exact 604800000;
     bcryptSaltRounds := Exact 10;
     mfaEnabled := true;
     lockoutDurationMinutes := 30;
     maxFailedAttempts := 5;
     sessionTimeoutMinutes := 120;
     refreshTokenCookieName := "sogas_refresh_token";
     cookieOptions := {| httpOnly := true; secure := true; sameSite := "strict";
                         maxAge := Exact 604800000; path := "/api/auth" |} |}.

(** An environment with the two secrets and nothing else. *)
Definition secrets_only_env : ConfigEnv :=
  {| token_env := {| JWT_ACCESS_SECRET := Some "access-key";
                     JWT_REFRESH_SECRET := Some "refresh-key";
                     JWT_ACCESS_EXPIRES_IN := None; JWT_REFRESH_EXPIRES_IN := None |};
     JWT_ACCESS_EXPIRES := None; JWT_REFRESH_EXPIRES := None;
     BCRYPT_SALT_ROUNDS := None; MFA_ENABLED := None;
     NODE_ENV := None |}.

Definition secrets_only_config : AuthConfig :=
  {| configVersion := "1.0.0";
     jwtAccessSecret := "access-key";
     jwtRefreshSecret := "refresh-key";
     jwtAccessExpires := "15m";
     jwtRefreshExpires := "30d";
     jwtAccessExpiresMs := Exact 900000;
     jwtRefreshExpiresMs := Exact 2592000000;
     bcryptSaltRounds := Exact 12;
     mfaEnabled := false;
     lockoutDurationMinutes := 30;
     maxFailedAttempts := 5;
     sessionTimeoutMinutes := 120;
     refreshTokenCookieName := "sogas_refresh_token";
     cookieOptions := {| httpOnly := true; secure := false; sameSite := "strict";
                         maxAge := Exact 2592000000; path := "/api/auth" |} |}.

End Fixture.

(** * Properties *)

(** ** The token service *)

Lemma jwt_verify_Ok now token secret issuer audience decoded :
  jwt_verify now token secret issuer audience = Ok decoded ->
  exists j, token = Signed j /\ signedWith j = secret /\ secret <> "" /\
            claims j = decoded /\ iss j = issuer /\ aud j = audience /\
            (forall e, exp j = Some e -> now / 1000 < e).
Proof.
  unfold jwt_verify. destruct token as [raw|j|m];
    [case_bool_decide; discriminate| |discriminate].
  intros Hv.
  case_bool_decide as Hsecret; [discriminate|].
  case_bool_decide as Hsig; simpl in Hv; [|discriminate].
  assert (Hexp : forall e, exp j = Some e -> now / 1000 < e).
  { intros e He. rewrite He in Hv. case_bool_decide; [discriminate|lia]. }
  destruct (match exp j with Some e => bool_decide (e <= now / 1000) | None => false end);
    [discriminate|].
  case_bool_decide as Haud; simpl in Hv; [|discriminate].
  case_bool_decide as Hiss; simpl in Hv; [|discriminate].
  injection Hv as <-. exists j. repeat split; auto.
Qed.

Lemma jwt_sign_Ok `{Platform} now payload secret o token :
  jwt_sign now payload secret o = Ok token ->
  exists span, ms (expiresIn o) = Some span /\ secret <> "" /\
    token = Signed {| signedWith := secret; claims := payload; iat := now / 1000;
                      exp := Some (now / 1000 + span / 1000);
                      iss := issuer o; aud := audience o |}.
Proof.
  unfold jwt_sign. case_bool_decide; [discriminate|].
  destruct (ms (expiresIn o)) as [span|]; [|discriminate].
  intros [= <-]. eauto.
Qed.

Lemma rethrow_verify_error_Throw {A} (error : JsError) :
  exists e, rethrow_verify_error (A:=A) error = Throw e.
Proof.
  unfold rethrow_verify_error.
  destruct (instanceof_TokenExpiredError error); [eauto|].
  destruct (instanceof_JsonWebTokenError error); eauto.
Qed.

Lemma verifyRefreshToken_never_accepts_access ts now token decoded :
  decode token = Ok (Some decoded) ->
  type decoded = JString "access" ->
  is_Ok (verifyRefreshToken ts now token) = false.
Proof.
  intros Hd Ht. unfold verifyRefreshToken.
  destruct (jwt_verify now token (refreshSecret ts) "sogas-rh" "sogas-rh-api")
    as [c|e] eqn:Hv.
  - apply jwt_verify_Ok in Hv as (j & -> & _ & _ & <- & _).
    injection Hd as <-. rewrite Ht. reflexivity.
  - destruct (rethrow_verify_error_Throw (A:=RefreshPayload) e) as [e' ->]. reflexivity.
Qed.

Lemma verifyAccessToken_never_accepts_refresh ts now token decoded :
  decode token = Ok (Some decoded) ->
  type decoded = JString "refresh" ->
  is_Ok (verifyAccessToken ts now token) = false.
Proof.
  intros Hd Ht. unfold verifyAccessToken.
  destruct (jwt_verify now token (accessSecret ts) "sogas-rh" "sogas-rh-api")
    as [c|e] eqn:Hv.
  - apply jwt_verify_Ok in Hv as (j & -> & _ & _ & <- & _).
    injection Hd as <-. rewrite Ht. reflexivity.
  - destruct (rethrow_verify_error_Throw (A:=AccessPayload) e) as [e' ->]. reflexivity.
Qed.

(** A token signed with another secret than the one checked is refused as
    [INVALID_TOKEN], whatever its expiry. *)
Lemma jwt_verify_other_secret now j secret issuer audience :
  signedWith j <> secret ->
  exists m, jwt_verify now (Signed j) secret issuer audience
            = Throw (JwtError JsonWebTokenError m).
Proof.
  intros Hne. unfold jwt_verify.
  case_bool_decide; [eauto|]. case_bool_decide; [congruence|]. simpl. eauto.
Qed.

(** C7, as amended. A token made by [generateAccessToken] is never accepted
    by [verifyRefreshToken], and a token made by [generateRefreshToken] is
    never accepted by [verifyAccessToken]; when the two secrets of the
    service differ, the refusal is [INVALID_TOKEN]. *)
Theorem token_kinds_not_interchangeable `{Platform} ts now now' :
  (forall p token, generateAccessToken ts now p = Ok token ->
     is_Ok (verifyRefreshToken ts now' token) = false /\
     (accessSecret ts <> refreshSecret ts ->
      verifyRefreshToken ts now' token = Throw INVALID_TOKEN)) /\
  (forall p token, generateRefreshToken ts now p = Ok token ->
     is_Ok (verifyAccessToken ts now' token) = false /\
     (accessSecret ts <> refreshSecret ts ->
      verifyAccessToken ts now' token = Throw INVALID_TOKEN)).
Proof.
  split; intros p token Hgen; apply jwt_sign_Ok in Hgen as (span & _ & _ & ->).
  - split.
    + eapply verifyRefreshToken_never_accepts_access; reflexivity.
    + intros Hne. unfold verifyRefreshToken.
      edestruct (jwt_verify_other_secret now') as [m ->]; [exact Hne|]. reflexivity.
  - split.
    + eapply verifyAccessToken_never_accepts_refresh; reflexivity.
    + intros Hne. unfold verifyAccessToken.
      edestruct (jwt_verify_other_secret now') as [m ->];
        [exact (not_eq_sym Hne)|]. reflexivity.
Qed.

(** C10, as amended. A token that [jwt.verify] accepts under the secret of
    the verifier (good signature, not expired, expected audience and issuer)
    but whose [type] is not the expected one makes the verifier throw the
    plain error [Invalid token type]; this is neither [TOKEN_EXPIRED] nor
    [INVALID_TOKEN], and the bearer middleware answers it with its generic
    [Authentication failed]. *)
Theorem wrong_type_is_a_plain_error ts now token decoded :
  (jwt_verify now token (accessSecret ts) "sogas-rh" "sogas-rh-api" = Ok decoded ->
   type decoded <> JString "access" ->
   verifyAccessToken ts now token = Throw (Error "Invalid token type") /\
   forall h, toLowerCase (scheme h) = "bearer" -> credentials h = [token] ->
     requireAuth ts now (Some h)
     = Respond {| status := 401;
                  json := ErrorMessage "Unauthorized" "Authentication failed" |}) /\
  (jwt_verify now token (refreshSecret ts) "sogas-rh" "sogas-rh-api" = Ok decoded ->
   type decoded <> JString "refresh" ->
   verifyRefreshToken ts now token = Throw (Error "Invalid token type")) /\
  Error "Invalid token type" <> TOKEN_EXPIRED /\
  Error "Invalid token type" <> INVALID_TOKEN.
Proof.
  split; [|split; [|split; discriminate]].
  - intros Hv Ht.
    assert (Hplain : verifyAccessToken ts now token = Throw (Error "Invalid token type")).
    { unfold verifyAccessToken. rewrite Hv. case_bool_decide; [congruence|]. reflexivity. }
    split; [exact Hplain|].
    intros h Hscheme Hcred. unfold requireAuth. rewrite Hcred, Hscheme.
    apply jwt_verify_Ok in Hv as (j & -> & _).
    rewrite Hplain. reflexivity.
  - intros Hv Ht. unfold verifyRefreshToken. rewrite Hv.
    case_bool_decide; [congruence|]. reflexivity.
Qed.

(** ** The refresh protocol *)

Ltac unfold_service :=
  unfold AuthService.refreshTokens, AuthService.loginWithPassword,
    AuthService.logout, AuthService.logoutWithToken,
    PrismaUserRepository.findByEmail,
    PrismaSessionStore.get, PrismaSessionStore.create,
    PrismaSessionStore.revoke, PrismaSessionStore.setRefreshJti,
    PrismaSessionStore.update, PrismaSessionStore.record_of,
    PrismaRevocationStore.isRevoked, PrismaRevocationStore.revoke,
    prisma_string, try_catch, bind, lift, ret, throw in *.

Lemma jwt_sign_Throw `{Platform} now payload secret o e :
  jwt_sign now payload secret o = Throw e ->
  exists m, e = Error m /\
    (m = "secretOrPrivateKey must have a value" \/
     m = invalid_expiresIn).
Proof.
  unfold jwt_sign. case_bool_decide.
  - intros [= <-]. eauto.
  - destruct (ms (expiresIn o)); [discriminate|]. intros [= <-]. eauto.
Qed.

Lemma sign_error_not_early `{Platform} now payload secret o e :
  jwt_sign now payload secret o = Throw e -> ~ early_failure e.
Proof.
  intros Hs. apply jwt_sign_Throw in Hs as (m & -> & [-> | ->]);
    intros [Hc | [Hc | [Hc | Hc]]]; vm_compute in Hc; discriminate Hc.
Qed.

(** C9. When [refreshTokens] fails with [INVALID_TOKEN], [TOKEN_REVOKED],
    [SESSION_NOT_FOUND] or [SESSION_REVOKED], the database it leaves is the
    one it found: neither the session table nor the revocation ledger has
    been written. *)
Theorem early_refresh_failures_write_nothing `{Platform} deps io token db db' e :
  AuthService.refreshTokens deps io token db = (db', Throw e) ->
  early_failure e ->
  db' = db.
Proof.
  intros Hrun Hearly. unfold_service.
  destruct (tokenService deps) as [ts|]; [|congruence].
  destruct (verifyRefreshToken ts (now io) token) as [payload|e0]; [|congruence].
  destruct (rp_jti payload) as [|j| |]; try congruence.
  case_bool_decide; [congruence|].
  destruct (rp_sessionId payload) as [|sid| |]; try congruence.
  destruct (sessions db !! sid) as [row|] eqn:Hrow; simpl in Hrun; [|congruence].
  case_bool_decide; [congruence|].
  case_bool_decide; simpl in Hrun.
  - destruct (rp_userId payload) as [|uid| |]; try congruence.
    destruct (find _ (users db)) as [u|]; simpl in Hrun.
    + rewrite Hrow in Hrun.
      destruct (generateAccessToken _ _ _) as [at_|ea] eqn:Ha.
      * destruct (generateRefreshToken _ _ _) as [rt|er] eqn:Hr; [congruence|].
        injection Hrun as _ <-. apply sign_error_not_early in Hr. contradiction.
      * injection Hrun as _ <-. apply sign_error_not_early in Ha. contradiction.
    + injection Hrun as _ <-. destruct Hearly as [Hc | [Hc | [Hc | Hc]]]; discriminate Hc.
  - rewrite Hrow in Hrun. injection Hrun as _ <-.
    destruct Hearly as [Hc | [Hc | [Hc | Hc]]]; discriminate Hc.
Qed.

Lemma verifyRefreshToken_Ok ts now token payload :
  verifyRefreshToken ts now token = Ok payload ->
  exists c, decode token = Ok (Some c) /\
    type c = JString "refresh" /\
    rp_userId payload = sub c /\ rp_sessionId payload = sessionId c /\
    rp_jti payload = jti c.
Proof.
  unfold verifyRefreshToken.
  destruct (jwt_verify now token (refreshSecret ts) "sogas-rh" "sogas-rh-api")
    as [c|e] eqn:Hv.
  - apply jwt_verify_Ok in Hv as (j & -> & _ & _ & <- & _).
    case_bool_decide as Ht; simpl; [|discriminate].
    intros [= <-]. exists (claims j). auto.
  - destruct (rethrow_verify_error_Throw (A:=RefreshPayload) e) as [e' ->]. discriminate.
Qed.

Lemma generateRefreshToken_Ok `{Platform} ts now p token :
  generateRefreshToken ts now p = Ok token ->
  exists c, decode token = Ok (Some c) /\
    sessionId c = JString (ri_sessionId p) /\ jti c = JString (ri_jti p).
Proof.
  intros Hg. apply jwt_sign_Ok in Hg as (span & _ & _ & ->).
  eexists. split; [reflexivity|]. auto.
Qed.

(** What a successful refresh has checked and written. *)
Lemma refreshTokens_Ok `{Platform} deps io token db db' r :
  AuthService.refreshTokens deps io token db = (db', Ok r) ->
  exists ts payload j sid row,
    tokenService deps = Some ts /\
    verifyRefreshToken ts (now io) token = Ok payload /\
    rp_jti payload = JString j /\ rp_sessionId payload = JString sid /\
    (j ∉ revokedTokens db) /\
    sessions db !! sid = Some row /\
    row_revokedAt row = None /\ row_currentRefreshJti row = j /\
    users db' = users db /\
    sessions db' = <[sid := rotated row (randomUUID io)]> (sessions db) /\
    revokedTokens db' = {[j]} ∪ revokedTokens db /\
    jti_of (refreshToken r) = JString (randomUUID io) /\
    session_of (refreshToken r) = JString sid.
Proof.
  intros Hrun. unfold_service.
  destruct (tokenService deps) as [ts|]; [|congruence].
  destruct (verifyRefreshToken ts (now io) token) as [payload|e0] eqn:Hv; [|congruence].
  destruct (rp_jti payload) as [|j| |] eqn:Hj; try congruence.
  case_bool_decide as Hled; [congruence|].
  destruct (rp_sessionId payload) as [|sid| |] eqn:Hs; try congruence.
  destruct (sessions db !! sid) as [row|] eqn:Hrow; simpl in Hrun; [|congruence].
  case_bool_decide as Hrev; [congruence|].
  case_bool_decide as Hcur; simpl in Hrun.
  - destruct (rp_userId payload) as [|uid| |]; try congruence.
    destruct (find _ (users db)) as [u|]; simpl in Hrun; [|congruence].
    rewrite Hrow in Hrun.
    destruct (generateAccessToken _ _ _) as [at_|ea]; [|congruence].
    destruct (generateRefreshToken _ _ _) as [rt|er] eqn:Hr; [|congruence].
    injection Hrun as <- <-.
    apply generateRefreshToken_Ok in Hr as (c & Hd & Hsid & Hjti). simpl in Hsid, Hjti.
    exists ts, payload, j, sid, row.
    assert (row_revokedAt row = None) as Hnone.
    { destruct (row_revokedAt row) eqn:E; [|reflexivity].
      exfalso. apply Hrev. eauto. }
    unfold rotated, jti_of, session_of. simpl. rewrite Hd, Hnone.
    repeat split; auto.
  - rewrite Hrow in Hrun. congruence.
Qed.

(** ** What no request undoes *)

Lemma evolves_refl db : evolves db db.
Proof. split; [set_solver|auto]. Qed.

Lemma evolves_trans db1 db2 db3 :
  evolves db1 db2 -> evolves db2 db3 -> evolves db1 db3.
Proof. intros [L1 S1] [L2 S2]. split; [set_solver|auto]. Qed.

Lemma monotone_ret {A} (a : A) : monotone (ret a).
Proof. intros db. apply evolves_refl. Qed.

Lemma monotone_throw {A} e : monotone (throw (A:=A) e).
Proof. intros db. apply evolves_refl. Qed.

Lemma monotone_lift {A} (o : Outcome A) : monotone (lift o).
Proof. intros db. apply evolves_refl. Qed.

Lemma monotone_bind {A B} (m : M A) (k : A -> M B) :
  monotone m -> (forall a, monotone (k a)) -> monotone (bind m k).
Proof.
  intros Hm Hk db. unfold bind. specialize (Hm db).
  destruct (m db) as [db' [a|e]]; simpl in *; [|exact Hm].
  eapply evolves_trans; [exact Hm|apply Hk].
Qed.

Lemma monotone_try_catch {A} (m : M A) (handler : JsError -> M A) :
  monotone m -> (forall e, monotone (handler e)) -> monotone (try_catch m handler).
Proof.
  intros Hm Hh db. unfold try_catch. specialize (Hm db).
  destruct (m db) as [db' [a|e]]; simpl in *; [exact Hm|].
  eapply evolves_trans; [exact Hm|apply Hh].
Qed.

Lemma monotone_prisma_string v : monotone (prisma_string v).
Proof. destruct v; intros db; apply evolves_refl. Qed.

Lemma monotone_findByEmail email : monotone (PrismaUserRepository.findByEmail email).
Proof.
  intros db. unfold PrismaUserRepository.findByEmail.
  destruct (find _ (users db)); apply evolves_refl.
Qed.

Lemma monotone_get sid : monotone (PrismaSessionStore.get sid).
Proof. intros db. apply evolves_refl. Qed.

Lemma monotone_isRevoked j : monotone (PrismaRevocationStore.isRevoked j).
Proof. intros db. apply evolves_refl. Qed.

Lemma monotone_ledger_revoke j : monotone (PrismaRevocationStore.revoke j).
Proof. intros db. split; simpl; [set_solver|auto]. Qed.

Lemma monotone_create io userId refreshJti :
  monotone (PrismaSessionStore.create io userId refreshJti).
Proof.
  intros db. unfold PrismaSessionStore.create.
  destruct (sessions db !! newSessionId io) eqn:Hfree; [apply evolves_refl|].
  destruct (negb (existsb _ (users db))); [apply evolves_refl|].
  split; simpl; [set_solver|].
  intros sid (row & Hrow & Hrev). exists row. split; [|exact Hrev].
  simpl. rewrite lookup_insert_ne; [exact Hrow|congruence].
Qed.

(** An update keeps revoked sessions revoked when it never clears the
    timestamp of a row. *)
Lemma monotone_update sid f :
  (forall r, is_Some (row_revokedAt r) -> is_Some (row_revokedAt (f r))) ->
  monotone (PrismaSessionStore.update sid f).
Proof.
  intros Hf db. unfold PrismaSessionStore.update.
  destruct (sessions db !! sid) as [r|] eqn:Hr; [|apply evolves_refl].
  split; simpl; [set_solver|].
  intros sid' (row & Hrow & Hrev).
  destruct (decide (sid = sid')) as [<-|Hne].
  - exists (f r). simpl. rewrite lookup_insert_eq. split; [reflexivity|].
    apply Hf. congruence.
  - exists row. simpl. rewrite lookup_insert_ne by exact Hne. auto.
Qed.

Lemma monotone_setRefreshJti sid newJti :
  monotone (PrismaSessionStore.setRefreshJti sid newJti).
Proof. apply monotone_update. auto. Qed.

Lemma monotone_session_revoke io sid : monotone (PrismaSessionStore.revoke io sid).
Proof. apply monotone_update. simpl. eauto. Qed.

Create HintDb monotone.
#[local] Hint Resolve monotone_ret monotone_throw monotone_lift monotone_prisma_string
  monotone_findByEmail monotone_get monotone_isRevoked monotone_ledger_revoke
  monotone_create monotone_setRefreshJti monotone_session_revoke : monotone.

Ltac monotone_step :=
  match goal with
  | |- monotone (bind _ _) => apply monotone_bind; [|intros ?]
  | |- monotone (try_catch _ _) => apply monotone_try_catch; [|intros ?]
  | |- monotone (match ?x with _ => _ end) => destruct x
  | |- monotone (if ?b then _ else _) => destruct b
  | |- monotone _ => solve [auto with monotone]
  end.

Lemma monotone_logout io sid : monotone (AuthService.logout io sid).
Proof. unfold AuthService.logout. repeat monotone_step. Qed.

Lemma monotone_logoutWithToken deps io token :
  monotone (AuthService.logoutWithToken deps io token).
Proof.
  unfold AuthService.logoutWithToken. repeat monotone_step.
  apply monotone_logout.
Qed.

Lemma monotone_loginWithPassword `{Platform} deps io email password :
  monotone (AuthService.loginWithPassword deps io email password).
Proof. unfold AuthService.loginWithPassword. repeat monotone_step. Qed.

Lemma monotone_refreshTokens `{Platform} deps io token :
  monotone (AuthService.refreshTokens deps io token).
Proof. unfold AuthService.refreshTokens. repeat monotone_step. Qed.

Lemma serve_evolves `{Platform} deps r db : evolves db (serve deps r db).
Proof.
  destruct r; simpl.
  - apply monotone_loginWithPassword.
  - apply monotone_refreshTokens.
  - apply monotone_logout.
  - apply monotone_logoutWithToken.
Qed.

Lemma serve_all_evolves `{Platform} deps rs db : evolves db (serve_all deps rs db).
Proof.
  revert db. induction rs as [|r rs IH]; intros db; simpl.
  - apply evolves_refl.
  - eapply evolves_trans; [apply serve_evolves|apply IH].
Qed.

(** ** Reuse detection *)

(** A refresh that names a revoked session fails and writes nothing; when
    the token passes verification and carries a [jti], the failure is
    [TOKEN_REVOKED] or [SESSION_REVOKED]. *)
Lemma refresh_of_revoked_session `{Platform} deps ts io token db sid :
  tokenService deps = Some ts ->
  session_revoked db sid ->
  session_of token = JString sid ->
  exists e,
    AuthService.refreshTokens deps io token db = (db, Throw e) /\
    (forall p j, verifyRefreshToken ts (now io) token = Ok p ->
                 rp_jti p = JString j ->
                 e = TOKEN_REVOKED \/ e = SESSION_REVOKED).
Proof.
  intros Hts (row & Hrow & Hrev) Hsid. unfold_service. rewrite Hts.
  destruct (verifyRefreshToken ts (now io) token) as [payload|e0] eqn:Hv.
  - apply verifyRefreshToken_Ok in Hv as (c & Hd & _ & _ & Hs & Hj).
    unfold session_of in Hsid. rewrite Hd in Hsid. rewrite Hs, Hsid.
    destruct (rp_jti payload) as [|j| |] eqn:Hjti;
      try (eexists; split; [reflexivity|]; intros p j' [= <-]; congruence).
    case_bool_decide.
    + eexists; split; [reflexivity|]. auto.
    + rewrite Hrow. simpl. case_bool_decide; [|contradiction].
      eexists; split; [reflexivity|]. auto.
  - eexists; split; [reflexivity|]. intros p j [=].
Qed.

(** C2. A token that verifies, whose [jti] is not in the ledger and whose
    session exists and is not revoked, but whose [jti] is not the current
    one of the session: the call revokes the session, puts the presented
    [jti] in the ledger and fails with [TOKEN_REUSE_DETECTED]; after that,
    and after any further requests, every refresh naming that session
    fails. *)
Theorem reuse_detection_revokes_session `{Platform} deps ts io token db payload j sid row :
  tokenService deps = Some ts ->
  verifyRefreshToken ts (now io) token = Ok payload ->
  rp_jti payload = JString j ->
  rp_sessionId payload = JString sid ->
  j ∉ revokedTokens db ->
  sessions db !! sid = Some row ->
  row_revokedAt row = None ->
  row_currentRefreshJti row <> j ->
  exists db',
    AuthService.refreshTokens deps io token db = (db', Throw TOKEN_REUSE_DETECTED) /\
    session_revoked db' sid /\
    j ∈ revokedTokens db' /\
    forall rs io' token',
      session_of token' = JString sid ->
      exists e,
        snd (AuthService.refreshTokens deps io' token' (serve_all deps rs db')) = Throw e /\
        (forall p j', verifyRefreshToken ts (now io') token' = Ok p ->
                      rp_jti p = JString j' ->
                      e = TOKEN_REVOKED \/ e = SESSION_REVOKED).
Proof.
  intros Hts Hv Hj Hs Hled Hrow Hrev Hcur.
  eexists. split.
  { unfold_service. rewrite Hts, Hv, Hj. case_bool_decide; [contradiction|].
    rewrite Hs, Hrow. simpl. rewrite Hrev.
    case_bool_decide as Hsome; [destruct Hsome; discriminate|].
    case_bool_decide; [contradiction|]. simpl. rewrite Hrow. reflexivity. }
  assert (Hdead : session_revoked
            {| users := users db;
               sessions := <[sid := {| row_userId := row_userId row;
                                       row_currentRefreshJti := row_currentRefreshJti row;
                                       row_createdAt := row_createdAt row;
                                       row_revokedAt := Some (now io) |}]> (sessions db);
               revokedTokens := {[j]} ∪ revokedTokens db |} sid).
  { eexists. simpl. rewrite lookup_insert_eq. split; [reflexivity|]. simpl. eauto. }
  split; [exact Hdead|]. split; [simpl; set_solver|].
  intros rs io' token' Hnames.
  destruct (serve_all_evolves deps rs
              {| users := users db;
                 sessions := <[sid := {| row_userId := row_userId row;
                                         row_currentRefreshJti := row_currentRefreshJti row;
                                         row_createdAt := row_createdAt row;
                                         row_revokedAt := Some (now io) |}]> (sessions db);
                 revokedTokens := {[j]} ∪ revokedTokens db |}) as [_ Hkeep].
  destruct (refresh_of_revoked_session deps ts io' token' _ sid Hts (Hkeep _ Hdead) Hnames)
    as (e & Heq & He).
  exists e. split; [exact (f_equal snd Heq)|exact He].
Qed.

(** ** Rotation *)

Lemma loginWithPassword_Ok `{Platform} deps io email password db db' resp :
  AuthService.loginWithPassword deps io email password db = (db', Ok resp) ->
  sessions db !! newSessionId io = None /\
  jti_of (refreshToken (tokens resp)) = JString (randomUUID io) /\
  session_of (refreshToken (tokens resp)) = JString (newSessionId io) /\
  current_jti db' (newSessionId io) = Some (randomUUID io).
Proof.
  intros Hrun. unfold_service.
  destruct (hashService deps) as [hs|]; [|congruence].
  destruct (tokenService deps) as [ts|]; [|congruence].
  destruct (find _ (users db)) as [u|]; [|congruence].
  simpl in Hrun.
  destruct (hash_verify hs password (row_passwordHash u)); simpl in Hrun; [|congruence].
  destruct (sessions db !! newSessionId io) eqn:Hfree; [congruence|].
  destruct (negb (existsb _ (users db))); [congruence|].
  simpl in Hrun.
  destruct (generateAccessToken _ _ _) as [at_|ea]; [|congruence].
  destruct (generateRefreshToken _ _ _) as [rt|er] eqn:Hr; [|congruence].
  injection Hrun as <- <-.
  apply generateRefreshToken_Ok in Hr as (c & Hd & Hsid & Hjti). simpl in Hsid, Hjti.
  unfold jti_of, session_of, current_jti. simpl. rewrite Hd, lookup_insert_eq.
  auto.
Qed.





(** ** The identity lookup of a refresh *)

(** [USER_NOT_FOUND] is raised by the identity lookup only, and the lookup
    comes before the first write. *)
Lemma user_not_found_writes_nothing `{Platform} deps io token db db' :
  AuthService.refreshTokens deps io token db = (db', Throw USER_NOT_FOUND) ->
  db' = db.
Proof.
  intros Hrun. unfold_service.
  destruct (tokenService deps) as [ts|]; [|congruence].
  destruct (verifyRefreshToken ts (now io) token) as [payload|e0]; [|congruence].
  destruct (rp_jti payload) as [|j| |]; try congruence.
  case_bool_decide; [congruence|].
  destruct (rp_sessionId payload) as [|sid| |]; try congruence.
  destruct (sessions db !! sid) as [row|] eqn:Hrow; simpl in Hrun; [|congruence].
  case_bool_decide; [congruence|].
  case_bool_decide; simpl in Hrun.
  - destruct (rp_userId payload) as [|uid| |]; try congruence.
    destruct (find _ (users db)) as [u|]; simpl in Hrun; [|congruence].
    rewrite Hrow in Hrun.
    destruct (generateAccessToken _ _ _) as [at_|ea] eqn:Ha.
    + destruct (generateRefreshToken _ _ _) as [rt|er] eqn:Hr; [congruence|].
      injection Hrun as _ Her. apply jwt_sign_Throw in Hr as (m & -> & [-> | ->]);
        vm_compute in Her; discriminate Her.
    + injection Hrun as _ Hea. apply jwt_sign_Throw in Ha as (m & -> & [-> | ->]);
        vm_compute in Hea; discriminate Hea.
  - rewrite Hrow in Hrun. injection Hrun as _ Hreuse. discriminate Hreuse.
Qed.

(** C3. Alice has just logged in and presents her refresh token, the
    current one of her session. The token carries her identifier [u1], and
    the user table has her row under it; [refreshTokens] hands that
    identifier to the lookup by e-mail address, which finds nobody, and the
    call fails with [USER_NOT_FOUND]. Nothing has been written at that
    point: the presented [jti] is not in the ledger and is still the current
    one of the session, and the controller answers 400. Whatever the
    request, [USER_NOT_FOUND] is raised before the first write. *)
Theorem refresh_looks_up_identity_by_email :
  is_Ok (snd Fixture.login0) = true /\
  verifyRefreshToken Fixture.default_service (now Fixture.io1) Fixture.token0
  = Ok {| rp_userId := JString "u1"; rp_sessionId := JString "s0";
          rp_jti := JString "j0" |} /\
  find (fun u => bool_decide (row_id u = "u1")) (users Fixture.db1) = Some Fixture.alice /\
  row_email Fixture.alice = "a@x.com" /\
  snd (PrismaUserRepository.findByEmail "u1" Fixture.db1) = Ok None /\
  AuthService.refreshTokens (H:=Fixture.platform) Fixture.deps Fixture.io1 Fixture.token0
    Fixture.db1
  = (Fixture.db1, Throw USER_NOT_FOUND) /\
  ("j0" ∉ revokedTokens Fixture.db1) /\
  current_jti Fixture.db1 "s0" = Some "j0" /\
  snd (AuthController.refresh (H:=Fixture.platform) Fixture.deps Fixture.io1
         {| rb_refreshToken := TokenText Fixture.token0 |} Fixture.db1)
  = {| status := 400; json := CodeMessage "BAD_REQUEST" "Token refresh failed" |} /\
  (forall (P : Platform) deps io token db db',
     AuthService.refreshTokens (H:=P) deps io token db = (db', Throw USER_NOT_FOUND) ->
     db' = db).
Proof.
  repeat match goal with |- _ /\ _ => split end;
    try (vm_compute; reflexivity).
  - apply (proj1 (bool_decide_eq_false _)). vm_compute. reflexivity.
  - intros P deps io token db db'. apply user_not_found_writes_nothing.
Qed.

(** ** Revoking a session twice *)

(** C8, as amended. On a session whose revocation timestamp is set,
    [revoke] raises nothing and keeps the session revoked with its user,
    current [jti] and creation time; the timestamp itself is overwritten
    with the time of the call, so the record is unchanged exactly when that
    time is the stored one. *)
Theorem revoke_again_overwrites_timestamp io sid db row t :
  sessions db !! sid = Some row ->
  row_revokedAt row = Some t ->
  exists db',
    PrismaSessionStore.revoke io sid db = (db', Ok tt) /\
    users db' = users db /\ revokedTokens db' = revokedTokens db /\
    (forall sid', sid' <> sid -> sessions db' !! sid' = sessions db !! sid') /\
    sessions db' !! sid
    = Some {| row_userId := row_userId row;
              row_currentRefreshJti := row_currentRefreshJti row;
              row_createdAt := row_createdAt row;
              row_revokedAt := Some (now io) |} /\
    session_revoked db' sid /\
    (db' = db <-> now io = t).
Proof.
  intros Hrow Hrev. eexists. split.
  { unfold PrismaSessionStore.revoke, PrismaSessionStore.update. rewrite Hrow. reflexivity. }
  simpl. repeat split.
  - intros sid' Hne. apply lookup_insert_ne. congruence.
  - apply lookup_insert_eq.
  - eexists. simpl. rewrite lookup_insert_eq. split; [reflexivity|]. simpl. eauto.
  - intros Heq. apply (f_equal (fun d => sessions d !! sid)) in Heq. simpl in Heq.
    rewrite lookup_insert_eq, Hrow in Heq. injection Heq as Heq.
    apply (f_equal row_revokedAt) in Heq. simpl in Heq. congruence.
  - intros ->. destruct db as [us ss rv], row as [a b c d]. simpl in *.
    subst d. f_equal. apply insert_id. exact Hrow.
Qed.

(** ** Login failures *)

(** C5. A login with an e-mail address no user has and a login with the
    address of a user but a password that does not match both fail with
    [INVALID_CREDENTIALS] and write nothing, and the controller answers both
    with the same status, code and message. *)
Theorem credential_failures_indistinguishable `{Platform} deps ts hs io1 io2 db
    email1 password1 email2 password2 u :
  tokenService deps = Some ts ->
  hashService deps = Some hs ->
  snd (PrismaUserRepository.findByEmail email1 db) = Ok None ->
  snd (PrismaUserRepository.findByEmail email2 db) = Ok (Some u) ->
  hash_verify hs password2 (u_passwordHash u) = false ->
  AuthService.loginWithPassword deps io1 email1 password1 db
  = (db, Throw INVALID_CREDENTIALS) /\
  AuthService.loginWithPassword deps io2 email2 password2 db
  = (db, Throw INVALID_CREDENTIALS) /\
  (email1 <> "" -> password1 <> "" -> email2 <> "" -> password2 <> "" ->
   AuthController.login deps io1
     {| lb_email := JString email1; lb_password := JString password1 |} db
   = (db, {| status := 401;
             json := CodeMessage "INVALID_CREDENTIALS" "Invalid email or password" |}) /\
   AuthController.login deps io2
     {| lb_email := JString email2; lb_password := JString password2 |} db
   = (db, {| status := 401;
             json := CodeMessage "INVALID_CREDENTIALS" "Invalid email or password" |})).
Proof.
  intros Hts Hhs Hnone Hsome Hwrong.
  assert (H1 : AuthService.loginWithPassword deps io1 email1 password1 db
               = (db, Throw INVALID_CREDENTIALS)).
  { unfold_service. rewrite Hhs, Hts.
    destruct (find _ (users db)); [discriminate|reflexivity]. }
  assert (H2 : AuthService.loginWithPassword deps io2 email2 password2 db
               = (db, Throw INVALID_CREDENTIALS)).
  { unfold_service. rewrite Hhs, Hts.
    destruct (find (fun u0 => bool_decide (row_email u0 = email2)) (users db));
      [|discriminate].
    simpl in *. injection Hsome as <-. simpl in Hwrong. rewrite Hwrong. reflexivity. }
  split; [exact H1|]. split; [exact H2|].
  intros He1 Hp1 He2 Hp2. unfold AuthController.login. simpl.
  repeat (case_bool_decide; [contradiction|]). simpl.
  rewrite H1, H2. split; reflexivity.
Qed.

(** ** Logout *)

Lemma logout_Ok io sid db : exists db', AuthService.logout io sid db = (db', Ok tt).
Proof.
  unfold_service. destruct (sessions db !! sid) as [row|] eqn:Hrow; simpl.
  - rewrite Hrow. case_bool_decide; simpl; eauto.
  - eauto.
Qed.

(** C6. [logout] returns without error for every session identifier,
    whether the session is unknown, active or already revoked, and again
    when called a second time; the controller answers a request that
    carries a session identifier with 200 and [success: true]; and whatever
    the request, its answer does not depend on the database. *)
Theorem logout_is_idempotent deps io io' sid db :
  (exists db' db'',
     AuthService.logout io sid db = (db', Ok tt) /\
     AuthService.logout io' sid db' = (db'', Ok tt)) /\
  (sid <> "" ->
   snd (AuthController.logout deps io
          {| ob_sessionId := JString sid; ob_refreshToken := TokenAbsent |} db)
   = {| status := 200; json := Success true |}) /\
  (forall body db2,
     snd (AuthController.logout deps io body db)
     = snd (AuthController.logout deps io body db2)).
Proof.
  split; [|split].
  - destruct (logout_Ok io sid db) as [db' H1].
    destruct (logout_Ok io' sid db') as [db'' H2]. eauto.
  - intros Hsid. unfold AuthController.logout. simpl.
    case_bool_decide; [contradiction|]. simpl.
    destruct (logout_Ok io sid db) as [db' ->]. reflexivity.
  - intros body db2. unfold AuthController.logout.
    repeat match goal with
           | |- context [if ?b then _ else _] => destruct b
           end; try reflexivity;
      match goal with
      | |- snd (match ?m db with _ => _ end) = snd (match ?m db2 with _ => _ end) =>
          destruct (m db) as [? [?|?]]; destruct (m db2) as [? [?|?]]; reflexivity
      end.
Qed.

(** ** Expired refresh tokens *)

Lemma refreshTokens_verification_failure `{Platform} deps ts io token db e :
  tokenService deps = Some ts ->
  verifyRefreshToken ts (now io) token = Throw e ->
  AuthService.refreshTokens deps io token db = (db, Throw INVALID_TOKEN).
Proof. intros Hts Hv. unfold_service. rewrite Hts, Hv. reflexivity. Qed.

(** C4. The refresh token Alice got at login, presented seven days later:
    the token service reports [TOKEN_EXPIRED], yet [refreshTokens] fails
    with [INVALID_TOKEN], and the controller answers [INVALID_TOKEN], the
    same as for a token with a bad signature. *)
Theorem expired_refresh_token_reported_invalid :
  let late := Fixture.draw Fixture.seven_days "j1" "s1" in
  verifyRefreshToken Fixture.default_service (now late) Fixture.token0
  = Throw TOKEN_EXPIRED /\
  AuthService.refreshTokens (H:=Fixture.platform) Fixture.deps late Fixture.token0 Fixture.db1
  = (Fixture.db1, Throw INVALID_TOKEN) /\
  snd (AuthController.refresh (H:=Fixture.platform) Fixture.deps late
         {| rb_refreshToken := TokenText Fixture.token0 |} Fixture.db1)
  = {| status := 401; json := CodeMessage "INVALID_TOKEN" "Invalid refresh token" |} /\
  snd (AuthController.refresh (H:=Fixture.platform) Fixture.deps late
         {| rb_refreshToken :=
              TokenText (Signed (Fixture.refresh_jws "forged" "refresh" 1000000)) |}
         Fixture.db1)
  = {| status := 401; json := CodeMessage "INVALID_TOKEN" "Invalid refresh token" |}.
Proof.
  repeat split; vm_compute; reflexivity.
Qed.

(** * The properties at concrete inputs *)

Section Concrete.

Import Fixture.
#[local] Existing Instance platform.

(** The two secrets of a service built without configuration differ. *)
Lemma default_secrets_differ : accessSecret default_service <> refreshSecret default_service.
Proof. discriminate. Qed.



Ltac by_computation := vm_compute; reflexivity.
Ltac not_in_ledger := apply (proj1 (bool_decide_eq_false _)); vm_compute; reflexivity.

Lemma reuse_detection_witness :
  tokenService deps = Some default_service /\
  verifyRefreshToken default_service (now io1) token_j1 = Ok payload_j1 /\
  ("j1" ∉ revokedTokens db_rotated) /\
  sessions db_rotated !! "s1" = Some (session_row "j2" None) /\
  row_currentRefreshJti (session_row "j2" None) <> "j1" /\
  exists db',
    AuthService.refreshTokens deps io1 token_j1 db_rotated
    = (db', Throw TOKEN_REUSE_DETECTED) /\
    session_revoked db' "s1" /\
    "j1" ∈ revokedTokens db' /\
    forall rs io' token',
      session_of token' = JString "s1" ->
      exists e,
        snd (AuthService.refreshTokens deps io' token' (serve_all deps rs db')) = Throw e /\
        (forall p j', verifyRefreshToken default_service (now io') token' = Ok p ->
                      rp_jti p = JString j' ->
                      e = TOKEN_REVOKED \/ e = SESSION_REVOKED).
Proof.
  assert (Hv : verifyRefreshToken default_service (now io1) token_j1 = Ok payload_j1)
    by by_computation.
  assert (Hled : "j1" ∉ revokedTokens db_rotated) by not_in_ledger.
  assert (Hrow : sessions db_rotated !! "s1" = Some (session_row "j2" None))
    by by_computation.
  assert (Hcur : row_currentRefreshJti (session_row "j2" None) <> "j1") by discriminate.
  repeat (split; [first [reflexivity | assumption]|]).
  exact (reuse_detection_revokes_session deps default_service io1 token_j1 db_rotated
           payload_j1 "j1" "s1" (session_row "j2" None)
           eq_refl Hv eq_refl eq_refl Hled Hrow eq_refl Hcur).
Defined.

Lemma credential_failures_witness :
  snd (PrismaUserRepository.findByEmail "nobody@x.com" db0) = Ok None /\
  hash_verify {| saltRounds := 10 |} "guess" "$2b$P@ss1" = false /\
  AuthService.loginWithPassword deps io0 "nobody@x.com" "P@ss1" db0
  = (db0, Throw INVALID_CREDENTIALS) /\
  AuthService.loginWithPassword deps io1 "a@x.com" "guess" db0
  = (db0, Throw INVALID_CREDENTIALS) /\
  AuthController.login deps io0
    {| lb_email := JString "nobody@x.com"; lb_password := JString "P@ss1" |} db0
  = (db0, {| status := 401;
             json := CodeMessage "INVALID_CREDENTIALS" "Invalid email or password" |}) /\
  AuthController.login deps io1
    {| lb_email := JString "a@x.com"; lb_password := JString "guess" |} db0
  = (db0, {| status := 401;
             json := CodeMessage "INVALID_CREDENTIALS" "Invalid email or password" |}).
Proof.
  assert (Hnone : snd (PrismaUserRepository.findByEmail "nobody@x.com" db0) = Ok None)
    by by_computation.
  assert (Hwrong : hash_verify {| saltRounds := 10 |} "guess" "$2b$P@ss1" = false)
    by by_computation.
  destruct (credential_failures_indistinguishable deps default_service
              {| saltRounds := 10 |} io0 io1 db0
              "nobody@x.com" "P@ss1" "a@x.com" "guess"
              {| u_id := "u1"; u_email := "a@x.com"; u_passwordHash := "$2b$P@ss1";
                 u_roleIds := ["r1"; "r2"];
                 u_permissions := ["users.read"; "users.write"] |}
              eq_refl eq_refl Hnone ltac:(by_computation) Hwrong)
    as (H1 & H2 & H3).
  destruct H3 as [H3 H4]; try discriminate.
  repeat (split; [assumption|]). assumption.
Defined.

Lemma logout_witness :
  "ghost" <> "" /\
  sessions db0 !! "ghost" = None /\
  snd (AuthController.logout deps io0
         {| ob_sessionId := JString "ghost"; ob_refreshToken := TokenAbsent |} db0)
  = {| status := 200; json := Success true |}.
Proof.
  assert (Hne : "ghost" <> "") by discriminate.
  split; [exact Hne|]. split; [by_computation|].
  exact (proj1 (proj2 (logout_is_idempotent deps io0 io1 "ghost" db0)) Hne).
Defined.

Lemma token_kinds_witness :
  generateAccessToken default_service 0 alice_claims = Ok alice_access /\
  accessSecret default_service <> refreshSecret default_service /\
  verifyRefreshToken default_service 5000 alice_access = Throw INVALID_TOKEN.
Proof.
  assert (Hgen : generateAccessToken default_service 0 alice_claims = Ok alice_access)
    by by_computation.
  split; [exact Hgen|]. split; [exact default_secrets_differ|].
  exact (proj2 (proj1 (token_kinds_not_interchangeable default_service 0 5000)
                  alice_claims alice_access Hgen) default_secrets_differ).
Defined.

(** A service given one secret for both kinds refuses an access token
    presented as a refresh token with the plain error, not with
    [INVALID_TOKEN]. *)
Lemma one_secret_counterexample :
  generateAccessToken one_secret_service 0 alice_claims = Ok one_secret_access /\
  verifyRefreshToken one_secret_service 5000 one_secret_access
  = Throw (Error "Invalid token type") /\
  Throw (A:=RefreshPayload) (Error "Invalid token type") <> Throw INVALID_TOKEN.
Proof.
  repeat split; try by_computation. discriminate.
Qed.

Lemma revoke_again_witness :
  sessions db_revoked !! "s1" = Some (session_row "j1" (Some 100)) /\
  exists db',
    PrismaSessionStore.revoke io1 "s1" db_revoked = (db', Ok tt) /\
    users db' = users db_revoked /\ revokedTokens db' = revokedTokens db_revoked /\
    (forall sid', sid' <> "s1" -> sessions db' !! sid' = sessions db_revoked !! sid') /\
    sessions db' !! "s1" = Some (session_row "j1" (Some (now io1))) /\
    session_revoked db' "s1" /\
    (db' = db_revoked <-> now io1 = 100).
Proof.
  assert (Hrow : sessions db_revoked !! "s1" = Some (session_row "j1" (Some 100)))
    by by_computation.
  split; [exact Hrow|].
  exact (revoke_again_overwrites_timestamp io1 "s1" db_revoked
           (session_row "j1" (Some 100)) 100 Hrow eq_refl).
Defined.

(** Revoking at time 1000 a session revoked at time 100 moves its
    revocation timestamp to 1000. *)
Lemma revoke_again_counterexample :
  (row_revokedAt <$> sessions db_revoked !! "s1") = Some (Some 100) /\
  snd (PrismaSessionStore.revoke io1 "s1" db_revoked) = Ok tt /\
  (row_revokedAt <$> sessions (fst (PrismaSessionStore.revoke io1 "s1" db_revoked)) !! "s1")
  = Some (Some 1000) /\
  fst (PrismaSessionStore.revoke io1 "s1" db_revoked) <> db_revoked.
Proof.
  repeat split; try by_computation.
  intros Heq.
  apply (f_equal (fun d => row_revokedAt <$> sessions d !! "s1")) in Heq.
  vm_compute in Heq. discriminate Heq.
Qed.

Lemma early_failure_witness :
  AuthService.refreshTokens deps io1 token_j1 db_revoked = (db_revoked, Throw TOKEN_REVOKED) /\
  early_failure TOKEN_REVOKED /\
  db_revoked = db_revoked.
Proof.
  assert (Hrun : AuthService.refreshTokens deps io1 token_j1 db_revoked
                 = (db_revoked, Throw TOKEN_REVOKED)) by by_computation.
  assert (Hearly : early_failure TOKEN_REVOKED) by (right; left; reflexivity).
  split; [exact Hrun|]. split; [exact Hearly|].
  exact (early_refresh_failures_write_nothing deps io1 token_j1 db_revoked db_revoked
           TOKEN_REVOKED Hrun Hearly).
Defined.

Lemma wrong_type_witness :
  jwt_verify 5000 (mistyped 1000000) (accessSecret default_service)
    "sogas-rh" "sogas-rh-api"
  = Ok (claims (refresh_jws "access-secret-change-me" "refresh" 1000000)) /\
  JString "refresh" <> JString "access" /\
  verifyAccessToken default_service 5000 (mistyped 1000000)
  = Throw (Error "Invalid token type") /\
  requireAuth default_service 5000 (Some (bearer (mistyped 1000000)))
  = Respond {| status := 401;
               json := ErrorMessage "Unauthorized" "Authentication failed" |}.
Proof.
  assert (Hv : jwt_verify 5000 (mistyped 1000000) (accessSecret default_service)
                 "sogas-rh" "sogas-rh-api"
               = Ok (claims (refresh_jws "access-secret-change-me" "refresh" 1000000)))
    by by_computation.
  assert (Ht : JString "refresh" <> JString "access") by discriminate.
  destruct (proj1 (wrong_type_is_a_plain_error default_service 5000 (mistyped 1000000)
                     (claims (refresh_jws "access-secret-change-me" "refresh" 1000000)))
              Hv Ht) as [Hplain Hmw].
  split; [exact Hv|]. split; [exact Ht|]. split; [exact Hplain|].
  exact (Hmw (bearer (mistyped 1000000)) eq_refl eq_refl).
Defined.

(** A token signed with the access secret and typed [refresh], but past
    its expiry: [verifyAccessToken] throws [TOKEN_EXPIRED], not the plain
    error. *)
Lemma expired_wrong_type_counterexample :
  signedWith (refresh_jws "access-secret-change-me" "refresh" 10)
  = accessSecret default_service /\
  type (claims (refresh_jws "access-secret-change-me" "refresh" 10)) <> JString "access" /\
  verifyAccessToken default_service 20000 (mistyped 10) = Throw TOKEN_EXPIRED /\
  Throw (A:=AccessPayload) TOKEN_EXPIRED <> Throw (Error "Invalid token type").
Proof.
  repeat split; try by_computation; discriminate.
Qed.

End Concrete.

(** * Further properties of the code *)

(** ** Tokens through the token service *)

Lemma jwt_verify_signed now j secret issuer audience :
  secret <> "" ->
  signedWith j = secret -> aud j = audience -> iss j = issuer ->
  jwt_verify now (Signed j) secret issuer audience
  = if match exp j with Some e => bool_decide (e <= now / 1000) | None => false end
    then Throw (JwtError TokenExpiredError "jwt expired")
    else Ok (claims j).
Proof.
  intros Hs Hk Ha Hi. unfold jwt_verify.
  repeat (case_bool_decide; try congruence); simpl;
    destruct (match exp j with Some e => bool_decide (e <= now / 1000) | None => false end);
    reflexivity.
Qed.

(** X1. An access token made by [generateAccessToken] at time [now] and
    presented to [verifyAccessToken] of the same service at time [now']
    gives back the user id, e-mail address, roles and permissions it was
    made from as long as the second of [now'] is before the second of [now]
    plus the lifetime; from that second on it is [TOKEN_EXPIRED]. *)
Theorem access_token_round_trip `{Platform} ts now now' p token span :
  generateAccessToken ts now p = Ok token ->
  ms (accessExpiresIn ts) = Some span ->
  verifyAccessToken ts now' token
  = if bool_decide (now / 1000 + span / 1000 <= now' / 1000) then Throw TOKEN_EXPIRED
    else Ok {| ap_userId := JString (ai_userId p);
               ap_email := JString (ai_email p);
               ap_roleIds := JStrings (ai_roleIds p);
               ap_permissions := JStrings (ai_permissions p) |}.
Proof.
  intros Hgen Hspan. apply jwt_sign_Ok in Hgen as (span' & Hspan' & Hsecret & ->).
  simpl in Hspan'. rewrite Hspan in Hspan'. injection Hspan' as <-.
  unfold verifyAccessToken. rewrite jwt_verify_signed by auto. simpl.
  case_bool_decide; reflexivity.
Qed.

(** X2. The same for refresh tokens: [verifyRefreshToken] gives back the
    user id, session id and [jti] of a token made by [generateRefreshToken]
    until the lifetime has passed, and [TOKEN_EXPIRED] afterwards. *)
Theorem refresh_token_round_trip `{Platform} ts now now' p token span :
  generateRefreshToken ts now p = Ok token ->
  ms (refreshExpiresIn ts) = Some span ->
  verifyRefreshToken ts now' token
  = if bool_decide (now / 1000 + span / 1000 <= now' / 1000) then Throw TOKEN_EXPIRED
    else Ok {| rp_userId := JString (ri_userId p);
               rp_sessionId := JString (ri_sessionId p);
               rp_jti := JString (ri_jti p) |}.
Proof.
  intros Hgen Hspan. apply jwt_sign_Ok in Hgen as (span' & Hspan' & Hsecret & ->).
  simpl in Hspan'. rewrite Hspan in Hspan'. injection Hspan' as <-.
  unfold verifyRefreshToken. rewrite jwt_verify_signed by auto. simpl.
  case_bool_decide; reflexivity.
Qed.

Lemma jwt_verify_Throw now token secret issuer audience e :
  jwt_verify now token secret issuer audience = Throw e ->
  (exists cls m, e = JwtError cls m) \/
  (exists m, token = BadPayload m /\ e = SyntaxError m).
Proof.
  unfold jwt_verify. destruct token as [raw|j|m].
  - case_bool_decide; intros [= <-]; eauto.
  - case_bool_decide; [intros [= <-]; eauto|].
    case_bool_decide; simpl; [|intros [= <-]; eauto].
    destruct (match exp j with Some e0 => bool_decide (e0 <= now / 1000) | None => false end);
      [intros [= <-]; eauto|].
    case_bool_decide; simpl; [|intros [= <-]; eauto].
    case_bool_decide; simpl; [discriminate|intros [= <-]; eauto].
  - intros [= <-]. eauto.
Qed.

Lemma rethrow_jwt_error {A} cls m :
  rethrow_verify_error (A:=A) (JwtError cls m) = Throw TOKEN_EXPIRED \/
  rethrow_verify_error (A:=A) (JwtError cls m) = Throw INVALID_TOKEN.
Proof. destruct cls; simpl; auto. Qed.

(** X3. Whatever the token and the time, the two verifiers throw nothing
    but [TOKEN_EXPIRED], [INVALID_TOKEN], the plain [Invalid token type], or
    the [SyntaxError] the library lets escape, which they throw again as it
    is: an error of the library's own classes never gets out. A string the
    library reads no token from and a token signed with another secret are
    [INVALID_TOKEN]; a string whose payload is not JSON makes both verifiers
    throw the [SyntaxError], which is none of the stable kinds. *)
Theorem verifier_errors ts now token :
  (forall e, verifyAccessToken ts now token = Throw e ->
     e = TOKEN_EXPIRED \/ e = INVALID_TOKEN \/ e = Error "Invalid token type" \/
     exists m, token = BadPayload m /\ e = SyntaxError m) /\
  (forall e, verifyRefreshToken ts now token = Throw e ->
     e = TOKEN_EXPIRED \/ e = INVALID_TOKEN \/ e = Error "Invalid token type" \/
     exists m, token = BadPayload m /\ e = SyntaxError m) /\
  (forall raw, token = NotAJwt raw ->
     verifyAccessToken ts now token = Throw INVALID_TOKEN /\
     verifyRefreshToken ts now token = Throw INVALID_TOKEN) /\
  (forall j, token = Signed j ->
     (signedWith j <> accessSecret ts -> verifyAccessToken ts now token = Throw INVALID_TOKEN) /\
     (signedWith j <> refreshSecret ts -> verifyRefreshToken ts now token = Throw INVALID_TOKEN)) /\
  (forall m, token = BadPayload m ->
     verifyAccessToken ts now token = Throw (SyntaxError m) /\
     verifyRefreshToken ts now token = Throw (SyntaxError m)).
Proof.
  split; [|split; [|split; [|split]]].
  - intros e. unfold verifyAccessToken.
    destruct (jwt_verify now token (accessSecret ts) "sogas-rh" "sogas-rh-api")
      as [c|e0] eqn:Hv.
    + case_bool_decide; simpl; [discriminate|]. intros [= <-]. auto.
    + apply jwt_verify_Throw in Hv as [(cls & m & ->) | (m & -> & ->)].
      * destruct (rethrow_jwt_error (A:=AccessPayload) cls m) as [-> | ->];
          intros [= <-]; auto.
      * intros [= <-]. eauto 6.
  - intros e. unfold verifyRefreshToken.
    destruct (jwt_verify now token (refreshSecret ts) "sogas-rh" "sogas-rh-api")
      as [c|e0] eqn:Hv.
    + case_bool_decide; simpl; [discriminate|]. intros [= <-]. auto.
    + apply jwt_verify_Throw in Hv as [(cls & m & ->) | (m & -> & ->)].
      * destruct (rethrow_jwt_error (A:=RefreshPayload) cls m) as [-> | ->];
          intros [= <-]; auto.
      * intros [= <-]. eauto 6.
  - intros raw ->. unfold verifyAccessToken, verifyRefreshToken, jwt_verify.
    case_bool_decide; split; reflexivity.
  - intros j ->. split; intros Hne.
    + unfold verifyAccessToken.
      edestruct (jwt_verify_other_secret now) as [m ->]; [exact Hne|]. reflexivity.
    + unfold verifyRefreshToken.
      edestruct (jwt_verify_other_secret now) as [m ->]; [exact Hne|]. reflexivity.
  - intros m ->. split; reflexivity.
Qed.

Lemma or_else_not_empty a b : b <> "" -> or_else a b <> "".
Proof.
  intros Hb. unfold or_else. destruct a as [s|]; [|exact Hb].
  case_bool_decide; [exact Hb|assumption].
Qed.

(** X4. A service built by the constructor never has an empty secret or an
    empty lifetime, whatever the configuration and the environment; so its
    [generateAccessToken] and [generateRefreshToken] succeed exactly when
    the platform reads the configured lifetime as a time span. A
    configuration or environment entry that is the empty string counts as
    absent. *)
Theorem constructed_service_signs `{Platform} config env now pa pr :
  let ts := new_TokenService config env in
  accessSecret ts <> "" /\ refreshSecret ts <> "" /\
  accessExpiresIn ts <> "" /\ refreshExpiresIn ts <> "" /\
  (is_Ok (generateAccessToken ts now pa) = true <-> is_Some (ms (accessExpiresIn ts))) /\
  (is_Ok (generateRefreshToken ts now pr) = true <-> is_Some (ms (refreshExpiresIn ts))) /\
  new_TokenService
    (Some {| cfg_accessSecret := Some ""; cfg_refreshSecret := Some "";
             cfg_accessExpiresIn := Some ""; cfg_refreshExpiresIn := Some "" |}) env
  = new_TokenService None env /\
  new_TokenService config
    {| JWT_ACCESS_SECRET := Some ""; JWT_REFRESH_SECRET := Some "";
       JWT_ACCESS_EXPIRES_IN := Some ""; JWT_REFRESH_EXPIRES_IN := Some "" |}
  = new_TokenService config
      {| JWT_ACCESS_SECRET := None; JWT_REFRESH_SECRET := None;
         JWT_ACCESS_EXPIRES_IN := None; JWT_REFRESH_EXPIRES_IN := None |}.
Proof.
  intros ts.
  assert (Ha : accessSecret ts <> "")
    by (apply or_else_not_empty, or_else_not_empty; discriminate).
  assert (Hr : refreshSecret ts <> "")
    by (apply or_else_not_empty, or_else_not_empty; discriminate).
  split; [exact Ha|]. split; [exact Hr|].
  split; [apply or_else_not_empty, or_else_not_empty; discriminate|].
  split; [apply or_else_not_empty, or_else_not_empty; discriminate|].
  split; [|split; [|split; reflexivity]].
  - clearbody ts. unfold generateAccessToken, jwt_sign.
    case_bool_decide; [contradiction|]. simpl.
    destruct (ms (accessExpiresIn ts)); split; eauto; try discriminate.
    intros [? Hx]; discriminate Hx.
  - clearbody ts. unfold generateRefreshToken, jwt_sign.
    case_bool_decide; [contradiction|]. simpl.
    destruct (ms (refreshExpiresIn ts)); split; eauto; try discriminate.
    intros [? Hx]; discriminate Hx.
Qed.

(** ** Guards on roles and permissions *)

Lemma some_included_spec required held :
  some_included required held = true <-> exists x, x ∈ required /\ x ∈ held.
Proof.
  unfold some_included. rewrite existsb_exists. split.
  - intros (x & Hin & Hx). apply bool_decide_eq_true in Hx.
    exists x. split; [apply list_elem_of_In; exact Hin|exact Hx].
  - intros (x & Hin & Hx). exists x.
    split; [apply list_elem_of_In; exact Hin|apply bool_decide_eq_true; exact Hx].
Qed.

Lemma every_included_spec required held :
  every_included required held = true <-> forall x, x ∈ required -> x ∈ held.
Proof.
  unfold every_included. rewrite forallb_forall. split.
  - intros Hall x Hin. apply list_elem_of_In in Hin.
    apply Hall in Hin. apply bool_decide_eq_true in Hin. exact Hin.
  - intros Hall x Hin. apply bool_decide_eq_true, Hall, list_elem_of_In, Hin.
Qed.

(** X5. [requireRole] and [requirePermission] let an authenticated user
    through exactly when the user holds at least one of the listed roles
    (permissions) and answer 403 otherwise; called with an empty list they
    answer 403 to every authenticated user; without [req.user] they answer
    401 whatever the list. *)
Theorem any_mode_guards required user :
  (requireRole required (Some user) = GuardNext <->
   exists r, r ∈ required /\ r ∈ au_roleIds user) /\
  (requirePermission required (Some user) = GuardNext <->
   exists p, p ∈ required /\ p ∈ au_permissions user) /\
  (requireRole required (Some user) = GuardNext \/
   requireRole required (Some user) = forbidden) /\
  (requirePermission required (Some user) = GuardNext \/
   requirePermission required (Some user) = forbidden) /\
  requireRole [] (Some user) = forbidden /\
  requirePermission [] (Some user) = forbidden /\
  requireRole required None = unauthorized /\
  requirePermission required None = unauthorized.
Proof.
  unfold requireRole, requirePermission, forbidden, unauthorized. simpl.
  pose proof (some_included_spec required (au_roleIds user)) as Hr.
  pose proof (some_included_spec required (au_permissions user)) as Hp.
  destruct (some_included required (au_roleIds user));
    destruct (some_included required (au_permissions user)); simpl;
    repeat split; auto; try (intros; apply Hr; reflexivity);
    try (intros; apply Hp; reflexivity); try discriminate;
    try (intros Hex; apply Hr in Hex; discriminate Hex);
    try (intros Hex; apply Hp in Hex; discriminate Hex).
Qed.

(** X6. [requireAllPermissions] lets an authenticated user through exactly
    when the user holds every listed permission; with an empty list it lets
    every authenticated user through; and for a list that is not empty, a
    user it lets through is also let through by [requirePermission]. *)
Theorem all_mode_guard required user :
  (requireAllPermissions required (Some user) = GuardNext <->
   forall p, p ∈ required -> p ∈ au_permissions user) /\
  (requireAllPermissions required (Some user) = GuardNext \/
   requireAllPermissions required (Some user) = forbidden) /\
  requireAllPermissions [] (Some user) = GuardNext /\
  requireAllPermissions required None = unauthorized /\
  (required <> [] ->
   requireAllPermissions required (Some user) = GuardNext ->
   requirePermission required (Some user) = GuardNext).
Proof.
  unfold requireAllPermissions, forbidden, unauthorized. simpl.
  pose proof (every_included_spec required (au_permissions user)) as Hall.
  split; [|split; [|split; [|split]]].
  - destruct (every_included required (au_permissions user)); simpl.
    + split; [intros _; apply Hall; reflexivity|reflexivity].
    + split; [discriminate|]. intros H. apply Hall in H. discriminate H.
  - destruct (every_included required (au_permissions user)); simpl; auto.
  - reflexivity.
  - reflexivity.
  - intros Hne Hpass.
    destruct (every_included required (au_permissions user)) eqn:He; [|discriminate].
    destruct required as [|p rest]; [congruence|].
    unfold requirePermission.
    assert (Hsome : some_included (p :: rest) (au_permissions user) = true).
    { apply some_included_spec. exists p. split; [apply elem_of_cons; auto|].
      apply (proj1 Hall eq_refl). apply elem_of_cons. auto. }
    rewrite Hsome. reflexivity.
Qed.

(** X7. Granting a user more never closes a door: if every role and
    permission of [user] is also held by [user'], each of the three guards
    that lets [user] through lets [user'] through. *)
Theorem guards_monotone required user user' :
  (forall r, r ∈ au_roleIds user -> r ∈ au_roleIds user') ->
  (forall p, p ∈ au_permissions user -> p ∈ au_permissions user') ->
  (requireRole required (Some user) = GuardNext ->
   requireRole required (Some user') = GuardNext) /\
  (requirePermission required (Some user) = GuardNext ->
   requirePermission required (Some user') = GuardNext) /\
  (requireAllPermissions required (Some user) = GuardNext ->
   requireAllPermissions required (Some user') = GuardNext).
Proof.
  intros Hroles Hperms.
  unfold requireRole, requirePermission, requireAllPermissions.
  split; [|split].
  - destruct (some_included required (au_roleIds user)) eqn:E; [|discriminate].
    apply some_included_spec in E as (r & Hin & Hheld).
    assert (some_included required (au_roleIds user') = true) as ->
      by (apply some_included_spec; eauto).
    reflexivity.
  - destruct (some_included required (au_permissions user)) eqn:E; [|discriminate].
    apply some_included_spec in E as (r & Hin & Hheld).
    assert (some_included required (au_permissions user') = true) as ->
      by (apply some_included_spec; eauto).
    reflexivity.
  - destruct (every_included required (au_permissions user)) eqn:E; [|discriminate].
    assert (every_included required (au_permissions user') = true) as ->.
    { apply every_included_spec. intros p Hin. apply Hperms.
      apply (proj1 (every_included_spec _ _) E). exact Hin. }
    reflexivity.
Qed.

(** X8. The helpers of the type module and the guards never disagree: a
    guard lets a user through exactly when the matching helper says yes on
    the user's roles or permissions; for a single required role the three
    role helpers agree; and a user with every role of a list that is not
    empty has at least one of them. *)
Theorem helpers_agree_with_guards required user role :
  (requireRole required (Some user) = GuardNext <->
   hasAnyRole (au_roleIds user) required = true) /\
  (requirePermission required (Some user) = GuardNext <->
   hasAnyPermission (au_permissions user) required = true) /\
  (requireAllPermissions required (Some user) = GuardNext <->
   hasAllPermissions (au_permissions user) required = true) /\
  hasAnyRole (au_roleIds user) [role] = hasRole (au_roleIds user) role /\
  hasAllRoles (au_roleIds user) [role] = hasRole (au_roleIds user) role /\
  (required <> [] ->
   hasAllRoles (au_roleIds user) required = true ->
   hasAnyRole (au_roleIds user) required = true) /\
  (required <> [] ->
   hasAllPermissions (au_permissions user) required = true ->
   hasAnyPermission (au_permissions user) required = true).
Proof.
  unfold requireRole, requirePermission, requireAllPermissions,
    hasAnyRole, hasAnyPermission, hasAllPermissions, hasAllRoles, hasRole,
    some_included, every_included.
  split; [|split; [|split; [|split; [|split; [|split]]]]].
  - destruct (existsb _ required); simpl; split; auto; discriminate.
  - destruct (existsb _ required); simpl; split; auto; discriminate.
  - destruct (forallb _ required); simpl; split; auto; discriminate.
  - simpl. apply orb_false_r.
  - simpl. apply andb_true_r.
  - intros Hne Hall. destruct required as [|r rest]; [congruence|].
    simpl in *. apply andb_true_iff in Hall as [-> _]. reflexivity.
  - intros Hne Hall. destruct required as [|r rest]; [congruence|].
    simpl in *. apply andb_true_iff in Hall as [-> _]. reflexivity.
Qed.

(** ** The bearer middleware *)

Lemma verifyAccessToken_Ok_signed ts now token u :
  verifyAccessToken ts now token = Ok u -> exists j, token = Signed j.
Proof.
  unfold verifyAccessToken.
  destruct (jwt_verify now token (accessSecret ts) "sogas-rh" "sogas-rh-api")
    as [c|e] eqn:Hv.
  - apply jwt_verify_Ok in Hv as (j & -> & _). eauto.
  - destruct (rethrow_verify_error_Throw (A:=AccessPayload) e) as [e' ->]. discriminate.
Qed.

Lemma requireAuth_Next ts clock h token u :
  credentials h = [token] ->
  toLowerCase (scheme h) = "bearer" ->
  verifyAccessToken ts clock token = Ok u ->
  requireAuth ts clock (Some h) = Next u.
Proof.
  intros Hc Hs Hv. unfold requireAuth. rewrite Hc, Hs. simpl.
  destruct (verifyAccessToken_Ok_signed _ _ _ _ Hv) as [j ->]. simpl.
  rewrite Hv. destruct u. reflexivity.
Qed.

(** X9. [requireAuth] calls [next()] exactly for a header of two parts
    whose first part is [bearer] in any letter case and whose second part is
    a token [verifyAccessToken] accepts, and it then sets [req.user] to the
    verified claims; every other request is answered with status 401 and the
    error [Unauthorized]. *)
Theorem requireAuth_lets_through_verified_tokens_only ts clock authHeader :
  (forall u, requireAuth ts clock authHeader = Next u <->
     exists h token,
       authHeader = Some h /\ credentials h = [token] /\
       toLowerCase (scheme h) = "bearer" /\
       verifyAccessToken ts clock token = Ok u) /\
  (forall r, requireAuth ts clock authHeader = Respond r ->
     status r = 401 /\ exists m, json r = ErrorMessage "Unauthorized" m).
Proof.
  split.
  - intros u. split.
    + unfold requireAuth. destruct authHeader as [h|]; [|discriminate].
      destruct (credentials h) as [|token [|t2 rest]] eqn:Hc; try discriminate.
      destruct (negb (bool_decide (toLowerCase (scheme h) = "bearer"))) eqn:Hs;
        [discriminate|].
      destruct (negb (token_truthy (TokenText token))); [discriminate|].
      destruct (verifyAccessToken ts clock token) as [p|e] eqn:Hv.
      * intros [= <-]. exists h, token. destruct p.
        apply negb_false_iff, bool_decide_eq_true in Hs. auto.
      * repeat case_bool_decide; discriminate.
    + intros (h & token & -> & Hc & Hs & Hv). unfold requireAuth.
      rewrite Hc, Hs. simpl.
      destruct (verifyAccessToken_Ok_signed _ _ _ _ Hv) as [j ->]. simpl.
      rewrite Hv. destruct u. reflexivity.
  - intros r. unfold requireAuth. destruct authHeader as [h|].
    + destruct (credentials h) as [|token [|t2 rest]];
        try (intros [= <-]; simpl; eauto).
      destruct (negb (bool_decide (toLowerCase (scheme h) = "bearer")));
        [intros [= <-]; simpl; eauto|].
      destruct (negb (token_truthy (TokenText token))); [intros [= <-]; simpl; eauto|].
      destruct (verifyAccessToken ts clock token) as [p|e]; [discriminate|].
      repeat case_bool_decide; intros [= <-]; simpl; eauto.
    + intros [= <-]. simpl. eauto.
Qed.

(** ** The Prisma-backed stores *)

Lemma set_add_elem acc x p : p ∈ set_add acc x <-> p ∈ acc \/ p = x.
Proof.
  unfold set_add. case_bool_decide as Hin.
  - split; [auto|]. intros [H| ->]; assumption.
  - rewrite elem_of_app, list_elem_of_singleton. reflexivity.
Qed.

Lemma set_add_NoDup acc x : NoDup acc -> NoDup (set_add acc x).
Proof.
  intros Hnd. unfold set_add. case_bool_decide as Hin; [exact Hnd|].
  apply NoDup_app. split; [exact Hnd|]. split.
  - intros y Hy Hy'. apply list_elem_of_singleton in Hy' as ->. contradiction.
  - apply NoDup_singleton.
Qed.

Lemma fold_set_add_elem l : forall acc p,
  p ∈ fold_left set_add l acc <-> p ∈ acc \/ p ∈ l.
Proof.
  induction l as [|x l IH]; intros acc p; simpl.
  - rewrite elem_of_nil. tauto.
  - rewrite IH, set_add_elem, elem_of_cons. tauto.
Qed.

Lemma fold_set_add_NoDup l : forall acc, NoDup acc -> NoDup (fold_left set_add l acc).
Proof.
  induction l as [|x l IH]; intros acc Hnd; simpl; [exact Hnd|].
  apply IH, set_add_NoDup, Hnd.
Qed.

Lemma flatten_elem links : forall acc p,
  p ∈ fold_left (fun set link => fold_left set_add (rolePerms link) set) links acc
  <-> p ∈ acc \/ exists link, link ∈ links /\ p ∈ rolePerms link.
Proof.
  induction links as [|l links IH]; intros acc p; simpl.
  - split; [auto|]. intros [H|(link & Hin & _)]; [exact H|].
    apply elem_of_nil in Hin. contradiction.
  - rewrite IH, fold_set_add_elem. split.
    + intros [[H|H]|(link & Hin & Hp)]; [auto| |].
      * right. exists l. split; [apply elem_of_cons; auto|exact H].
      * right. exists link. split; [apply elem_of_cons; auto|exact Hp].
    + intros [H|(link & Hin & Hp)]; [auto|].
      apply elem_of_cons in Hin as [->|Hin]; [auto|].
      right. exists link. auto.
Qed.

Lemma flatten_NoDup links : forall acc,
  NoDup acc ->
  NoDup (fold_left (fun set link => fold_left set_add (rolePerms link) set) links acc).
Proof.
  induction links as [|l links IH]; intros acc Hnd; simpl; [exact Hnd|].
  apply IH, fold_set_add_NoDup, Hnd.
Qed.

Lemma find_email_Some email rows row :
  find (fun u => bool_decide (row_email u = email)) rows = Some row ->
  row ∈ rows /\ row_email row = email.
Proof.
  intros Hf. apply find_some in Hf as [Hin Heq].
  split; [apply list_elem_of_In; exact Hin|].
  apply bool_decide_eq_true in Heq. exact Heq.
Qed.

(** X10. [findByEmail] reads and never writes. It finds nobody exactly
    when no user row has that e-mail address, compared as it is written.
    The record it returns for a row has the role identifiers of the row's
    links in their order, and as permissions the names granted by at least
    one of the row's roles, each of them once. *)
Theorem findByEmail_flattens_roles email db :
  fst (PrismaUserRepository.findByEmail email db) = db /\
  (snd (PrismaUserRepository.findByEmail email db) = Ok None <->
   forall row, row ∈ users db -> row_email row <> email) /\
  (forall u, snd (PrismaUserRepository.findByEmail email db) = Ok (Some u) ->
   u_email u = email /\
   NoDup (u_permissions u) /\
   exists row, row ∈ users db /\ row_email row = email /\
     u_id u = row_id row /\ u_passwordHash u = row_passwordHash row /\
     u_roleIds u = map roleId (roleLinks row) /\
     forall p, p ∈ u_permissions u <->
               exists link, link ∈ roleLinks row /\ p ∈ rolePerms link).
Proof.
  unfold PrismaUserRepository.findByEmail.
  destruct (find (fun u => bool_decide (row_email u = email)) (users db))
    as [row|] eqn:Hf; simpl.
  - apply find_email_Some in Hf as Hrow. destruct Hrow as [Hin Heq].
    split; [reflexivity|]. split.
    + split; [discriminate|]. intros Hnone. exfalso. exact (Hnone row Hin Heq).
    + intros u [= <-]. simpl. split; [exact Heq|]. split.
      * apply flatten_NoDup, NoDup_nil. exact I.
      * exists row. repeat split; auto.
        -- intros Hp. apply flatten_elem in Hp as [Hp|Hp]; [|exact Hp].
           apply elem_of_nil in Hp. contradiction.
        -- intros Hp. apply flatten_elem. auto.
  - split; [reflexivity|]. split; [|discriminate].
    split; [|reflexivity]. intros _ row Hin Heq.
    apply list_elem_of_In in Hin.
    apply (find_none _ _ Hf) in Hin. simpl in Hin.
    apply bool_decide_eq_false in Hin. contradiction.
Qed.

(** The foreign-key check of [create] passes exactly when a user row has
    the identifier. *)
Lemma user_row_exists userId (rows : list UserRow) :
  existsb (fun u => bool_decide (row_id u = userId)) rows = true <->
  exists u, u ∈ rows /\ row_id u = userId.
Proof.
  rewrite existsb_exists. split.
  - intros (u & Hin & Hu). exists u. split; [apply list_elem_of_In; exact Hin|].
    apply bool_decide_eq_true in Hu. exact Hu.
  - intros (u & Hin & Hu). exists u. split; [apply list_elem_of_In; exact Hin|].
    apply bool_decide_eq_true. exact Hu.
Qed.

(** A user the repository has just read has a row under its identifier. *)
Lemma findByEmail_row_exists email db u :
  snd (PrismaUserRepository.findByEmail email db) = Ok (Some u) ->
  existsb (fun r => bool_decide (row_id r = u_id u)) (users db) = true.
Proof.
  unfold PrismaUserRepository.findByEmail.
  destruct (find _ (users db)) as [row|] eqn:Hfind; [|discriminate].
  simpl. intros [= <-]. simpl. apply user_row_exists.
  apply find_some in Hfind as [Hin _]. exists row.
  split; [apply list_elem_of_In; exact Hin|reflexivity].
Qed.

(** X11. [create] followed by [get]: when the identifier the database
    draws is free and a user row has the given user identifier, [create]
    returns a record with the drawn identifier, the given user and [jti],
    the creation time and no revocation time; [get] of that identifier then
    returns the same record, every other identifier reads as before, and
    users and ledger are untouched. When the identifier is free and no user
    row has the user identifier, [create] fails on the foreign key (P2003),
    and when the identifier is taken it fails on the primary key (P2002);
    both write nothing. *)
Theorem session_create_then_get io userId refreshJti db :
  (sessions db !! newSessionId io = None ->
   (exists u, u ∈ users db /\ row_id u = userId) ->
   exists db' record,
     PrismaSessionStore.create io userId refreshJti db = (db', Ok record) /\
     record = {| s_id := newSessionId io; s_userId := userId;
                 currentRefreshJti := refreshJti; createdAt := now io;
                 revokedAt := None |} /\
     PrismaSessionStore.get (newSessionId io) db' = (db', Ok (Some record)) /\
     (forall sid, sid <> newSessionId io ->
        snd (PrismaSessionStore.get sid db') = snd (PrismaSessionStore.get sid db)) /\
     users db' = users db /\ revokedTokens db' = revokedTokens db) /\
  (sessions db !! newSessionId io = None ->
   (forall u, u ∈ users db -> row_id u <> userId) ->
   PrismaSessionStore.create io userId refreshJti db
   = (db, Throw (PrismaError "P2003" "Foreign key constraint failed"))) /\
  (forall row, sessions db !! newSessionId io = Some row ->
   PrismaSessionStore.create io userId refreshJti db
   = (db, Throw (PrismaError "P2002" "Unique constraint failed"))).
Proof.
  split; [|split].
  - intros Hfree Huser. apply user_row_exists in Huser.
    unfold PrismaSessionStore.create. rewrite Hfree, Huser. simpl.
    eexists _, _. split; [reflexivity|]. split; [reflexivity|].
    unfold PrismaSessionStore.get. simpl. rewrite lookup_insert_eq.
    split; [reflexivity|]. split; [|auto].
    intros sid Hne. rewrite lookup_insert_ne by congruence. reflexivity.
  - intros Hfree Hnone. unfold PrismaSessionStore.create. rewrite Hfree.
    destruct (existsb _ (users db)) eqn:Huser; [|reflexivity].
    apply user_row_exists in Huser as (u & Hin & Hu).
    destruct (Hnone u Hin Hu).
  - intros row Hrow. unfold PrismaSessionStore.create. rewrite Hrow. reflexivity.
Qed.

(** X12. [setRefreshJti] and [revoke] on an identifier no session has fail
    with P2025 and write nothing. On a stored session [setRefreshJti]
    succeeds whether or not the session is revoked: [get] then returns the
    record with the new [jti] and the same user, creation time and
    revocation time, and nothing else changes. *)
Theorem setRefreshJti_overwrites_jti_only io sid newJti db :
  (sessions db !! sid = None ->
   PrismaSessionStore.setRefreshJti sid newJti db
   = (db, Throw (PrismaError "P2025" "Record to update not found")) /\
   PrismaSessionStore.revoke io sid db
   = (db, Throw (PrismaError "P2025" "Record to update not found"))) /\
  (forall record, snd (PrismaSessionStore.get sid db) = Ok (Some record) ->
   exists db',
     PrismaSessionStore.setRefreshJti sid newJti db = (db', Ok tt) /\
     snd (PrismaSessionStore.get sid db')
     = Ok (Some {| s_id := sid; s_userId := s_userId record;
                   currentRefreshJti := newJti; createdAt := createdAt record;
                   revokedAt := revokedAt record |}) /\
     (forall sid', sid' <> sid ->
        snd (PrismaSessionStore.get sid' db') = snd (PrismaSessionStore.get sid' db)) /\
     users db' = users db /\ revokedTokens db' = revokedTokens db).
Proof.
  unfold PrismaSessionStore.setRefreshJti, PrismaSessionStore.revoke,
    PrismaSessionStore.update, PrismaSessionStore.get.
  split.
  - intros ->. split; reflexivity.
  - intros record. simpl. destruct (sessions db !! sid) as [row|] eqn:Hrow;
      simpl; [|discriminate].
    intros [= <-]. eexists. split; [reflexivity|]. simpl.
    rewrite lookup_insert_eq. split; [reflexivity|]. split; [|auto].
    intros sid' Hne. rewrite lookup_insert_ne by congruence. reflexivity.
Qed.

(** X13. The ledger: [revoke] never fails and touches neither users nor
    sessions; after [revoke j], [isRevoked] answers true for [j] and for any
    other identifier what it answered before; revoking twice is the same as
    revoking once, and the order of two revocations does not matter. *)
Theorem ledger_revoke_laws j j' db :
  snd (PrismaRevocationStore.revoke j db) = Ok tt /\
  users (fst (PrismaRevocationStore.revoke j db)) = users db /\
  sessions (fst (PrismaRevocationStore.revoke j db)) = sessions db /\
  snd (PrismaRevocationStore.isRevoked j (fst (PrismaRevocationStore.revoke j db)))
  = Ok true /\
  (j' <> j ->
   snd (PrismaRevocationStore.isRevoked j' (fst (PrismaRevocationStore.revoke j db)))
   = snd (PrismaRevocationStore.isRevoked j' db)) /\
  fst (PrismaRevocationStore.revoke j (fst (PrismaRevocationStore.revoke j db)))
  = fst (PrismaRevocationStore.revoke j db) /\
  fst (PrismaRevocationStore.revoke j (fst (PrismaRevocationStore.revoke j' db)))
  = fst (PrismaRevocationStore.revoke j' (fst (PrismaRevocationStore.revoke j db))).
Proof.
  unfold PrismaRevocationStore.revoke, PrismaRevocationStore.isRevoked. simpl.
  repeat split.
  - rewrite bool_decide_eq_true_2; [reflexivity|].
    apply elem_of_union_l, elem_of_singleton. reflexivity.
  - intros Hne. f_equal. apply bool_decide_ext.
    rewrite elem_of_union, elem_of_singleton. tauto.
  - f_equal. apply set_eq. intros x. rewrite !elem_of_union. tauto.
  - f_equal. apply set_eq. intros x. rewrite !elem_of_union. tauto.
Qed.

(** ** Login, logout and refresh, step by step *)

Lemma verify_generated_access `{Platform} ts now now' p token span :
  generateAccessToken ts now p = Ok token ->
  ms (accessExpiresIn ts) = Some span ->
  now' / 1000 < now / 1000 + span / 1000 ->
  verifyAccessToken ts now' token
  = Ok {| ap_userId := JString (ai_userId p);
          ap_email := JString (ai_email p);
          ap_roleIds := JStrings (ai_roleIds p);
          ap_permissions := JStrings (ai_permissions p) |}.
Proof.
  intros Hgen Hspan Hfresh. apply jwt_sign_Ok in Hgen as (span' & Hspan' & Hsecret & ->).
  simpl in Hspan'. rewrite Hspan in Hspan'. injection Hspan' as <-.
  unfold verifyAccessToken. rewrite jwt_verify_signed by auto. simpl.
  case_bool_decide; [lia|reflexivity].
Qed.

Lemma verify_generated_refresh `{Platform} ts now now' p token span :
  generateRefreshToken ts now p = Ok token ->
  ms (refreshExpiresIn ts) = Some span ->
  now' / 1000 < now / 1000 + span / 1000 ->
  verifyRefreshToken ts now' token
  = Ok {| rp_userId := JString (ri_userId p);
          rp_sessionId := JString (ri_sessionId p);
          rp_jti := JString (ri_jti p) |}.
Proof.
  intros Hgen Hspan Hfresh. apply jwt_sign_Ok in Hgen as (span' & Hspan' & Hsecret & ->).
  simpl in Hspan'. rewrite Hspan in Hspan'. injection Hspan' as <-.
  unfold verifyRefreshToken. rewrite jwt_verify_signed by auto. simpl.
  case_bool_decide; [lia|reflexivity].
Qed.

Lemma generate_access_Ok `{Platform} ts now p span :
  accessSecret ts <> "" -> ms (accessExpiresIn ts) = Some span ->
  exists token, generateAccessToken ts now p = Ok token.
Proof.
  intros Hs Hspan. unfold generateAccessToken, jwt_sign.
  case_bool_decide; [contradiction|]. simpl. rewrite Hspan. eauto.
Qed.

Lemma generate_refresh_Ok `{Platform} ts now p span :
  refreshSecret ts <> "" -> ms (refreshExpiresIn ts) = Some span ->
  exists token, generateRefreshToken ts now p = Ok token.
Proof.
  intros Hs Hspan. unfold generateRefreshToken, jwt_sign.
  case_bool_decide; [contradiction|]. simpl. rewrite Hspan. eauto.
Qed.

Lemma findByEmail_reads email db :
  PrismaUserRepository.findByEmail email db
  = (db, snd (PrismaUserRepository.findByEmail email db)).
Proof.
  unfold PrismaUserRepository.findByEmail.
  destruct (find _ (users db)); reflexivity.
Qed.

Lemma login_success_run `{Platform} deps ts hs io email password db u sa sr :
  tokenService deps = Some ts ->
  hashService deps = Some hs ->
  accessSecret ts <> "" -> refreshSecret ts <> "" ->
  ms (accessExpiresIn ts) = Some sa -> ms (refreshExpiresIn ts) = Some sr ->
  snd (PrismaUserRepository.findByEmail email db) = Ok (Some u) ->
  hash_verify hs password (u_passwordHash u) = true ->
  sessions db !! newSessionId io = None ->
  exists resp,
    AuthService.loginWithPassword deps io email password db
    = (with_session db (newSessionId io) (fresh_row io (u_id u)), Ok resp) /\
    user resp = summary_of u /\
    (forall now', now' / 1000 < now io / 1000 + sa / 1000 ->
       verifyAccessToken ts now' (accessToken (tokens resp))
       = Ok (payload_of_user (authenticated u))) /\
    (forall now', now' / 1000 < now io / 1000 + sr / 1000 ->
       verifyRefreshToken ts now' (refreshToken (tokens resp))
       = Ok {| rp_userId := JString (u_id u);
               rp_sessionId := JString (newSessionId io);
               rp_jti := JString (randomUUID io) |}).
Proof.
  intros Hts Hhs Hsa Hsr Hma Hmr Hfind Hpw Hfree.
  destruct (generate_access_Ok ts (now io)
              {| ai_userId := u_id u; ai_email := u_email u;
                 ai_roleIds := u_roleIds u; ai_permissions := u_permissions u |}
              sa Hsa Hma) as [at_ Hat].
  destruct (generate_refresh_Ok ts (now io)
              {| ri_userId := u_id u; ri_sessionId := newSessionId io;
                 ri_jti := randomUUID io |} sr Hsr Hmr) as [rt Hrt].
  eexists. split.
  { unfold AuthService.loginWithPassword. rewrite Hhs, Hts.
    unfold bind at 1. rewrite findByEmail_reads, Hfind. rewrite Hpw. simpl.
    unfold bind at 1, PrismaSessionStore.create.
    rewrite Hfree, (findByEmail_row_exists _ _ _ Hfind). simpl.
    unfold bind at 1, lift at 1. simpl. rewrite Hat.
    unfold bind at 1, lift at 1. rewrite Hrt. reflexivity. }
  simpl. split; [reflexivity|]. split.
  - intros now' Hfresh.
    exact (verify_generated_access ts (now io) now' _ at_ sa Hat Hma Hfresh).
  - intros now' Hfresh.
    exact (verify_generated_refresh ts (now io) now' _ rt sr Hrt Hmr Hfresh).
Qed.

(** X14. A login with the e-mail address of a user and a password that
    verifies, on a service whose secrets are set and whose lifetimes parse,
    with a free session identifier: it returns the user's id, e-mail, roles
    and permissions, writes exactly one session row (owned by the user,
    current [jti] the drawn one, not revoked) and leaves users and ledger
    alone; the access token verifies to the user's claims and the refresh
    token to user, session and [jti], at every time before their expiry. *)
Theorem login_success `{Platform} deps ts hs io email password db u sa sr :
  tokenService deps = Some ts ->
  hashService deps = Some hs ->
  accessSecret ts <> "" -> refreshSecret ts <> "" ->
  ms (accessExpiresIn ts) = Some sa -> ms (refreshExpiresIn ts) = Some sr ->
  snd (PrismaUserRepository.findByEmail email db) = Ok (Some u) ->
  hash_verify hs password (u_passwordHash u) = true ->
  sessions db !! newSessionId io = None ->
  exists resp,
    AuthService.loginWithPassword deps io email password db
    = (with_session db (newSessionId io) (fresh_row io (u_id u)), Ok resp) /\
    user resp = summary_of u /\
    (forall now', now' / 1000 < now io / 1000 + sa / 1000 ->
       verifyAccessToken ts now' (accessToken (tokens resp))
       = Ok (payload_of_user (authenticated u))) /\
    (forall now', now' / 1000 < now io / 1000 + sr / 1000 ->
       verifyRefreshToken ts now' (refreshToken (tokens resp))
       = Ok {| rp_userId := JString (u_id u);
               rp_sessionId := JString (newSessionId io);
               rp_jti := JString (randomUUID io) |}).
Proof. apply login_success_run. Qed.

(** X15. The session is written before the tokens are signed, and nothing
    is rolled back: when the credentials are good and the session
    identifier is free but the platform cannot read the access-token
    lifetime, the login throws the error of the signing, which is not
    [INVALID_CREDENTIALS], and the new session row stays in the database.
    The login handler then answers 400 [Authentication failed] and leaves
    the same row behind. *)
Theorem login_signing_failure_leaves_session `{Platform} deps ts hs io email password
    db u :
  tokenService deps = Some ts ->
  hashService deps = Some hs ->
  accessSecret ts <> "" ->
  ms (accessExpiresIn ts) = None ->
  snd (PrismaUserRepository.findByEmail email db) = Ok (Some u) ->
  hash_verify hs password (u_passwordHash u) = true ->
  sessions db !! newSessionId io = None ->
  exists e,
    AuthService.loginWithPassword deps io email password db
    = (with_session db (newSessionId io) (fresh_row io (u_id u)), Throw e) /\
    message_of e <> "INVALID_CREDENTIALS" /\
    snd (PrismaSessionStore.get (newSessionId io)
           (fst (AuthService.loginWithPassword deps io email password db)))
    = Ok (Some {| s_id := newSessionId io; s_userId := u_id u;
                  currentRefreshJti := randomUUID io; createdAt := now io;
                  revokedAt := None |}) /\
    (email <> "" -> password <> "" ->
     AuthController.login deps io
       {| lb_email := JString email; lb_password := JString password |} db
     = (with_session db (newSessionId io) (fresh_row io (u_id u)),
        {| status := 400; json := CodeMessage "BAD_REQUEST" "Authentication failed" |})).
Proof.
  intros Hts Hhs Hsa Hma Hfind Hpw Hfree.
  assert (Hrun : AuthService.loginWithPassword deps io email password db
    = (with_session db (newSessionId io) (fresh_row io (u_id u)),
       Throw (Error invalid_expiresIn))).
  { unfold AuthService.loginWithPassword. rewrite Hhs, Hts.
    unfold bind at 1. rewrite findByEmail_reads, Hfind. rewrite Hpw. simpl.
    unfold bind at 1, PrismaSessionStore.create.
    rewrite Hfree, (findByEmail_row_exists _ _ _ Hfind). simpl.
    unfold bind at 1, lift at 1. simpl.
    unfold generateAccessToken, jwt_sign. case_bool_decide; [contradiction|].
    simpl. rewrite Hma. reflexivity. }
  assert (Hmessage : message_of (Error invalid_expiresIn) <> "INVALID_CREDENTIALS").
  { vm_compute. discriminate. }
  exists (Error invalid_expiresIn).
  split; [exact Hrun|]. split; [exact Hmessage|]. split.
  - rewrite Hrun. unfold PrismaSessionStore.get. simpl.
    rewrite lookup_insert_eq. reflexivity.
  - intros Hemail Hpassword. unfold AuthController.login. simpl.
    rewrite (bool_decide_eq_false_2 _ Hemail), (bool_decide_eq_false_2 _ Hpassword).
    simpl. rewrite Hrun.
    rewrite (bool_decide_eq_false_2 _ Hmessage). reflexivity.
Qed.

Lemma logout_run io sid db row :
  sessions db !! sid = Some row ->
  AuthService.logout io sid db
  = ({| users := users db;
        sessions := <[sid := revoked_row io row]> (sessions db);
        revokedTokens := ledger_after_logout db (row_currentRefreshJti row) |}, Ok tt).
Proof.
  intros Hrow. unfold_service. rewrite Hrow. simpl. rewrite Hrow.
  unfold ledger_after_logout, revoked_row.
  case_bool_decide; simpl; reflexivity.
Qed.

(** X16. [logout] of an unknown session writes nothing. [logout] of a
    stored session stamps it revoked at the time of the call, keeps its
    other fields, puts its current [jti] in the ledger unless that is empty,
    and leaves users and other sessions alone; from then on, after any
    further requests, every refresh that names the session fails. *)
Theorem logout_revokes_session_and_token `{Platform} deps ts io sid db :
  tokenService deps = Some ts ->
  (sessions db !! sid = None -> AuthService.logout io sid db = (db, Ok tt)) /\
  (forall row, sessions db !! sid = Some row ->
   let db' := {| users := users db;
                 sessions := <[sid := revoked_row io row]> (sessions db);
                 revokedTokens := ledger_after_logout db (row_currentRefreshJti row) |} in
   AuthService.logout io sid db = (db', Ok tt) /\
   forall rs io' token',
     session_of token' = JString sid ->
     exists e,
       snd (AuthService.refreshTokens deps io' token' (serve_all deps rs db')) = Throw e).
Proof.
  intros Hts. split.
  - intros Hnone. unfold_service. rewrite Hnone. reflexivity.
  - intros row Hrow db'.
    assert (Hrun : AuthService.logout io sid db = (db', Ok tt)).
    { unfold_service. rewrite Hrow. simpl. rewrite Hrow. subst db'.
      unfold ledger_after_logout, revoked_row.
      case_bool_decide; simpl; reflexivity. }
    split; [exact Hrun|].
    intros rs io' token' Hnames.
    assert (Hdead : session_revoked db' sid).
    { exists (revoked_row io row). subst db'. simpl. rewrite lookup_insert_eq.
      split; [reflexivity|]. simpl. eauto. }
    destruct (serve_all_evolves deps rs db') as [_ Hkeep].
    destruct (refresh_of_revoked_session deps ts io' token' _ sid Hts
                (Hkeep _ Hdead) Hnames) as (e & Heq & _).
    exists e. exact (f_equal snd Heq).
Qed.

(** X17. [logoutWithToken] never throws on a configured service. With a
    token the verifier refuses, an expired one included, it writes nothing:
    the session stays as it was. With a token the verifier accepts it does
    what [logout] does on the session the token names, whether or not the
    token's [jti] is still the current one or is in the ledger. *)
Theorem logoutWithToken_swallows_bad_tokens deps ts io token db :
  tokenService deps = Some ts ->
  (exists db', AuthService.logoutWithToken deps io token db = (db', Ok tt)) /\
  (forall e, verifyRefreshToken ts (now io) token = Throw e ->
     AuthService.logoutWithToken deps io token db = (db, Ok tt)) /\
  (forall p sid, verifyRefreshToken ts (now io) token = Ok p ->
     rp_sessionId p = JString sid ->
     AuthService.logoutWithToken deps io token db = AuthService.logout io sid db).
Proof.
  intros Hts.
  assert (Hbad : forall e, verifyRefreshToken ts (now io) token = Throw e ->
            AuthService.logoutWithToken deps io token db = (db, Ok tt)).
  { intros e Hv. unfold AuthService.logoutWithToken. rewrite Hts.
    unfold try_catch, bind, lift. rewrite Hv. reflexivity. }
  assert (Hgood : forall p sid, verifyRefreshToken ts (now io) token = Ok p ->
            rp_sessionId p = JString sid ->
            AuthService.logoutWithToken deps io token db = AuthService.logout io sid db).
  { intros p sid Hv Hs. unfold AuthService.logoutWithToken. rewrite Hts.
    unfold try_catch, bind at 1, lift. rewrite Hv.
    unfold bind at 1. rewrite Hs. simpl.
    destruct (logout_Ok io sid db) as [db' ->]. reflexivity. }
  split; [|split; [exact Hbad|exact Hgood]].
  destruct (verifyRefreshToken ts (now io) token) as [p|e] eqn:Hv.
  - destruct (rp_sessionId p) as [|sid| |] eqn:Hs.
    + exists db. unfold AuthService.logoutWithToken. rewrite Hts.
      unfold try_catch, bind, lift. rewrite Hv, Hs. reflexivity.
    + rewrite (Hgood p sid eq_refl Hs). apply logout_Ok.
    + exists db. unfold AuthService.logoutWithToken. rewrite Hts.
      unfold try_catch, bind, lift. rewrite Hv, Hs. reflexivity.
    + exists db. unfold AuthService.logoutWithToken. rewrite Hts.
      unfold try_catch, bind, lift. rewrite Hv, Hs. reflexivity.
  - exists db. exact (Hbad e eq_refl).
Qed.

(** X18. A refresh that passes every check: the token verifies, its [jti]
    is not in the ledger and is the current one of its session, the session
    is not revoked, and the identity lookup finds a user. On a service whose
    secrets are set and whose lifetimes parse it succeeds; the database then
    differs only by the presented [jti] in the ledger and the drawn [jti] in
    the session row (owner, creation time and other sessions untouched); the
    new access token carries the claims of the user found, and the new
    refresh token names the same session with the drawn [jti]. *)
Theorem refresh_success `{Platform} deps ts io token db payload j sid uid row u sa sr :
  tokenService deps = Some ts ->
  accessSecret ts <> "" -> refreshSecret ts <> "" ->
  ms (accessExpiresIn ts) = Some sa -> ms (refreshExpiresIn ts) = Some sr ->
  verifyRefreshToken ts (now io) token = Ok payload ->
  rp_jti payload = JString j ->
  rp_sessionId payload = JString sid ->
  rp_userId payload = JString uid ->
  j ∉ revokedTokens db ->
  sessions db !! sid = Some row ->
  row_revokedAt row = None ->
  row_currentRefreshJti row = j ->
  snd (PrismaUserRepository.findByEmail uid db) = Ok (Some u) ->
  exists resp,
    AuthService.refreshTokens deps io token db
    = ({| users := users db;
          sessions := <[sid := rotated row (randomUUID io)]> (sessions db);
          revokedTokens := {[j]} ∪ revokedTokens db |}, Ok resp) /\
    (forall now', now' / 1000 < now io / 1000 + sa / 1000 ->
       verifyAccessToken ts now' (accessToken resp)
       = Ok (payload_of_user (authenticated u))) /\
    (forall now', now' / 1000 < now io / 1000 + sr / 1000 ->
       verifyRefreshToken ts now' (refreshToken resp)
       = Ok {| rp_userId := JString (u_id u);
               rp_sessionId := JString sid;
               rp_jti := JString (randomUUID io) |}).
Proof.
  intros Hts Hsa Hsr Hma Hmr Hv Hj Hs Hu Hled Hrow Hrev Hcur Hfind.
  destruct (generate_access_Ok ts (now io)
              {| ai_userId := u_id u; ai_email := u_email u;
                 ai_roleIds := u_roleIds u; ai_permissions := u_permissions u |}
              sa Hsa Hma) as [at_ Hat].
  destruct (generate_refresh_Ok ts (now io)
              {| ri_userId := u_id u; ri_sessionId := sid;
                 ri_jti := randomUUID io |} sr Hsr Hmr) as [rt Hrt].
  exists {| accessToken := at_; refreshToken := rt |}. split.
  { unfold AuthService.refreshTokens. rewrite Hts.
    unfold try_catch, lift at 1, bind at 1. rewrite Hv.
    unfold bind at 1. rewrite Hj. unfold prisma_string at 1, ret at 1.
    unfold bind at 1, PrismaRevocationStore.isRevoked.
    case_bool_decide; [contradiction|].
    unfold bind at 1. rewrite Hs. unfold prisma_string at 1, ret at 1.
    unfold bind at 1, PrismaSessionStore.get. rewrite Hrow. simpl.
    rewrite Hrev. case_bool_decide as Hsome; [destruct Hsome; discriminate|].
    case_bool_decide; [|contradiction]. simpl.
    unfold bind at 1. rewrite Hu. unfold prisma_string at 1, ret at 1.
    unfold bind at 1. rewrite findByEmail_reads, Hfind.
    unfold bind at 1, PrismaRevocationStore.revoke.
    unfold bind at 1, PrismaSessionStore.setRefreshJti, PrismaSessionStore.update.
    simpl. rewrite Hrow.
    unfold bind at 1, lift at 1. rewrite Hat.
    unfold bind at 1, lift at 1. rewrite Hrt. unfold rotated. reflexivity. }
  simpl. split.
  - intros now' Hfresh.
    exact (verify_generated_access ts (now io) now' _ at_ sa Hat Hma Hfresh).
  - intros now' Hfresh.
    exact (verify_generated_refresh ts (now io) now' _ rt sr Hrt Hmr Hfresh).
Qed.

(** ** Tokens the service has issued are never taken for reused ones *)

Lemma extends_refl db : extends db db.
Proof. split; [set_solver|]. intros sid row Hrow. exists row. auto. Qed.

Lemma extends_trans db1 db2 db3 :
  extends db1 db2 -> extends db2 db3 -> extends db1 db3.
Proof.
  intros [L1 S1] [L2 S2]. split; [set_solver|].
  intros sid row Hrow.
  destruct (S1 sid row Hrow) as (row2 & Hrow2 & H12).
  destruct (S2 sid row2 Hrow2) as (row3 & Hrow3 & H23).
  exists row3. split; [exact Hrow3|].
  destruct H12 as [H12|H12].
  - rewrite <- H12. exact H23.
  - right. apply L2. exact H12.
Qed.

Lemma extends_same_sessions db ledger :
  revokedTokens db ⊆ ledger ->
  extends db {| users := users db; sessions := sessions db; revokedTokens := ledger |}.
Proof. intros Hsub. split; [exact Hsub|]. intros sid row Hrow. exists row. auto. Qed.

Lemma extends_insert_fresh db sid row :
  sessions db !! sid = None ->
  extends db (with_session db sid row).
Proof.
  intros Hfree. split; [set_solver|]. intros sid' row' Hrow'.
  exists row'. split; [|auto]. simpl.
  rewrite lookup_insert_ne; [exact Hrow'|congruence].
Qed.

Lemma extends_overwrite db sid row row' ledger :
  sessions db !! sid = Some row ->
  revokedTokens db ⊆ ledger ->
  (row_currentRefreshJti row' = row_currentRefreshJti row \/
   row_currentRefreshJti row ∈ ledger) ->
  extends db {| users := users db;
                sessions := <[sid := row']> (sessions db);
                revokedTokens := ledger |}.
Proof.
  intros Hrow Hsub Hcur. split; [exact Hsub|]. intros sid0 row0 Hrow0. simpl.
  destruct (decide (sid = sid0)) as [<-|Hne].
  - exists row'. rewrite lookup_insert_eq. split; [reflexivity|]. congruence.
  - exists row0. rewrite lookup_insert_ne by exact Hne. auto.
Qed.

Lemma conservative_ret {A} (a : A) : conservative (ret a).
Proof. intros db. apply extends_refl. Qed.

Lemma conservative_throw {A} e : conservative (throw (A:=A) e).
Proof. intros db. apply extends_refl. Qed.

Lemma conservative_lift {A} (o : Outcome A) : conservative (lift o).
Proof. intros db. apply extends_refl. Qed.

Lemma conservative_bind {A B} (m : M A) (k : A -> M B) :
  conservative m -> (forall a, conservative (k a)) -> conservative (bind m k).
Proof.
  intros Hm Hk db. unfold bind. specialize (Hm db).
  destruct (m db) as [db' [a|e]]; simpl in *; [|exact Hm].
  eapply extends_trans; [exact Hm|apply Hk].
Qed.

Lemma conservative_try_catch {A} (m : M A) (handler : JsError -> M A) :
  conservative m -> (forall e, conservative (handler e)) ->
  conservative (try_catch m handler).
Proof.
  intros Hm Hh db. unfold try_catch. specialize (Hm db).
  destruct (m db) as [db' [a|e]]; simpl in *; [exact Hm|].
  eapply extends_trans; [exact Hm|apply Hh].
Qed.

Lemma conservative_prisma_string v : conservative (prisma_string v).
Proof. destruct v; intros db; apply extends_refl. Qed.

Lemma conservative_findByEmail email :
  conservative (PrismaUserRepository.findByEmail email).
Proof. intros db. rewrite findByEmail_reads. apply extends_refl. Qed.

Lemma conservative_get sid : conservative (PrismaSessionStore.get sid).
Proof. intros db. apply extends_refl. Qed.

Lemma conservative_ledger_revoke j : conservative (PrismaRevocationStore.revoke j).
Proof. intros db. apply extends_same_sessions. set_solver. Qed.

Lemma conservative_create io userId refreshJti :
  conservative (PrismaSessionStore.create io userId refreshJti).
Proof.
  intros db. unfold PrismaSessionStore.create.
  destruct (sessions db !! newSessionId io) eqn:Hfree; [apply extends_refl|].
  destruct (negb (existsb _ (users db))); [apply extends_refl|].
  apply (extends_insert_fresh db _ _ Hfree).
Qed.

Lemma conservative_session_revoke io sid : conservative (PrismaSessionStore.revoke io sid).
Proof.
  intros db. unfold PrismaSessionStore.revoke, PrismaSessionStore.update.
  destruct (sessions db !! sid) as [row|] eqn:Hrow; [|apply extends_refl].
  apply (extends_overwrite db sid row); [exact Hrow|set_solver|auto].
Qed.

Create HintDb conservative.
#[local] Hint Resolve conservative_ret conservative_throw conservative_lift
  conservative_prisma_string conservative_findByEmail conservative_get
  conservative_ledger_revoke conservative_create conservative_session_revoke
  : conservative.

Ltac conservative_step :=
  match goal with
  | |- conservative (bind _ _) => apply conservative_bind; [|intros ?]
  | |- conservative (try_catch _ _) => apply conservative_try_catch; [|intros ?]
  | |- conservative (match ?x with _ => _ end) => destruct x
  | |- conservative (if ?b then _ else _) => destruct b
  | |- conservative _ => solve [auto with conservative]
  end.

Lemma conservative_logout io sid : conservative (AuthService.logout io sid).
Proof. unfold AuthService.logout. repeat conservative_step. Qed.

Lemma conservative_logoutWithToken deps io token :
  conservative (AuthService.logoutWithToken deps io token).
Proof.
  unfold AuthService.logoutWithToken. repeat conservative_step.
  apply conservative_logout.
Qed.

Lemma conservative_loginWithPassword `{Platform} deps io email password :
  conservative (AuthService.loginWithPassword deps io email password).
Proof. unfold AuthService.loginWithPassword. repeat conservative_step. Qed.

(** A refresh moves the current [jti] of a session only after it has put
    the former one in the ledger. *)
Lemma conservative_refreshTokens `{Platform} deps io token :
  conservative (AuthService.refreshTokens deps io token).
Proof.
  intros db. unfold_service.
  destruct (tokenService deps) as [ts|]; [|apply extends_refl].
  destruct (verifyRefreshToken ts (now io) token) as [payload|e0]; [|apply extends_refl].
  destruct (rp_jti payload) as [|j| |]; try apply extends_refl.
  case_bool_decide; [apply extends_refl|].
  destruct (rp_sessionId payload) as [|sid| |]; try apply extends_refl.
  destruct (sessions db !! sid) as [row|] eqn:Hrow; simpl; [|apply extends_refl].
  case_bool_decide; [apply extends_refl|].
  case_bool_decide as Hcur; simpl.
  - destruct (rp_userId payload) as [|uid| |]; try apply extends_refl.
    destruct (find _ (users db)) as [u|]; simpl; [|apply extends_refl].
    rewrite Hrow.
    assert (Hext : extends db
              {| users := users db;
                 sessions := <[sid := rotated row (randomUUID io)]> (sessions db);
                 revokedTokens := {[j]} ∪ revokedTokens db |}).
    { apply (extends_overwrite db sid row); [exact Hrow|set_solver|].
      right. rewrite Hcur. apply elem_of_union_l, elem_of_singleton. reflexivity. }
    destruct (generateAccessToken _ _ _); [destruct (generateRefreshToken _ _ _)|];
      exact Hext.
  - rewrite Hrow. simpl.
    apply (extends_overwrite db sid row); [exact Hrow|set_solver|auto].
Qed.

Lemma serve_extends `{Platform} deps r db : extends db (serve deps r db).
Proof.
  destruct r; simpl.
  - apply conservative_loginWithPassword.
  - apply conservative_refreshTokens.
  - apply conservative_logout.
  - apply conservative_logoutWithToken.
Qed.

Lemma serve_all_extends `{Platform} deps rs db : extends db (serve_all deps rs db).
Proof.
  revert db. induction rs as [|r rs IH]; intros db; simpl.
  - apply extends_refl.
  - eapply extends_trans; [apply serve_extends|apply IH].
Qed.

Lemma accounted_extends db db' t : accounted db t -> extends db db' -> accounted db' t.
Proof.
  intros (sid & j & row & Hs & Hj & Hrow & Hcur) [Hled Hsess].
  destruct (Hsess sid row Hrow) as (row' & Hrow' & Hcur').
  exists sid, j, row'. repeat split; auto.
  destruct Hcur as [<-|Hin]; [|auto].
  destruct Hcur' as [Heq|Hin]; auto.
Qed.

Lemma issued_by_accounted `{Platform} deps r db t :
  t ∈ issued_by deps r db -> accounted (serve deps r db) t.
Proof.
  destruct r as [io email password|io token|io sid|io token]; simpl;
    try (intros Hin; apply elem_of_nil in Hin; contradiction).
  - destruct (AuthService.loginWithPassword deps io email password db)
      as [db' [resp|e]] eqn:Hrun; simpl;
      [|intros Hin; apply elem_of_nil in Hin; contradiction].
    intros Hin. apply list_elem_of_singleton in Hin as ->.
    apply loginWithPassword_Ok in Hrun as (_ & Hj & Hs & Hcur).
    unfold current_jti in Hcur.
    destruct (sessions db' !! newSessionId io) as [row|] eqn:Hrow; [|discriminate].
    injection Hcur as Hcur.
    exists (newSessionId io), (randomUUID io), row. auto.
  - destruct (AuthService.refreshTokens deps io token db)
      as [db' [resp|e]] eqn:Hrun; simpl;
      [|intros Hin; apply elem_of_nil in Hin; contradiction].
    intros Hin. apply list_elem_of_singleton in Hin as ->.
    apply refreshTokens_Ok in Hrun
      as (ts & payload & j & sid & row & _ & _ & _ & _ & _ & Hrow & _ & _ & _
          & Hsessions & _ & Hnewjti & Hnewsid).
    exists sid, (randomUUID io), (rotated row (randomUUID io)).
    repeat split; auto. rewrite Hsessions. apply lookup_insert_eq.
Qed.

Lemma issued_all_accounted `{Platform} deps rs : forall db t,
  t ∈ issued_all deps rs db -> accounted (serve_all deps rs db) t.
Proof.
  induction rs as [|r rs IH]; intros db t; simpl.
  - intros Hin. apply elem_of_nil in Hin. contradiction.
  - intros Hin. apply elem_of_app in Hin as [Hin|Hin].
    + eapply accounted_extends; [apply issued_by_accounted; exact Hin|].
      apply serve_all_extends.
    + apply IH. exact Hin.
Qed.

Lemma accounted_token_not_reused `{Platform} deps io t db :
  accounted db t ->
  snd (AuthService.refreshTokens deps io t db) <> Throw TOKEN_REUSE_DETECTED.
Proof.
  intros (sid & j & row & Hs & Hj & Hrow & Hcur). unfold_service.
  destruct (tokenService deps) as [ts|]; [|discriminate].
  destruct (verifyRefreshToken ts (now io) t) as [payload|e0] eqn:Hv; [|discriminate].
  apply verifyRefreshToken_Ok in Hv as (c & Hd & _ & _ & Hsc & Hjc).
  unfold session_of in Hs. unfold jti_of in Hj. rewrite Hd in Hs, Hj.
  rewrite Hjc, Hj. case_bool_decide as Hled; [discriminate|].
  rewrite Hsc, Hs, Hrow. simpl.
  case_bool_decide; [discriminate|].
  destruct Hcur as [Hcur|Hin]; [|contradiction].
  case_bool_decide; [|contradiction]. simpl.
  destruct (rp_userId payload) as [|uid| |]; try discriminate.
  destruct (find _ (users db)) as [u|]; simpl; [|discriminate].
  rewrite Hrow.
  destruct (generateAccessToken _ _ _) as [at_|ea] eqn:Ha;
    [destruct (generateRefreshToken _ _ _) as [rt|er] eqn:Hr|]; simpl.
  - discriminate.
  - apply jwt_sign_Throw in Hr as (m & -> & [-> | ->]); discriminate.
  - apply jwt_sign_Throw in Ha as (m & -> & [-> | ->]); discriminate.
Qed.

(** X19. Start from any database and serve any requests, with any tokens.
    Every refresh token the service hands out on the way (by a login or by a
    refresh) stays accounted for: its session is stored and its [jti] is
    either the current one of the session or in the ledger. So presenting
    such a token afterwards never ends in [TOKEN_REUSE_DETECTED]: a token
    that was rotated away is caught by the ledger first. *)
Theorem issued_tokens_never_raise_reuse `{Platform} deps rs db t io :
  t ∈ issued_all deps rs db ->
  accounted (serve_all deps rs db) t /\
  snd (AuthService.refreshTokens deps io t (serve_all deps rs db))
  <> Throw TOKEN_REUSE_DETECTED.
Proof.
  intros Hin. apply issued_all_accounted in Hin.
  split; [exact Hin|]. apply accounted_token_not_reused. exact Hin.
Qed.

(** ** What the service never touches *)

Lemma frames_refl db : frames db db.
Proof. split; [reflexivity|]. intros sid row Hrow. exists row. auto. Qed.

Lemma frames_trans db1 db2 db3 : frames db1 db2 -> frames db2 db3 -> frames db1 db3.
Proof.
  intros [U1 S1] [U2 S2]. split; [congruence|].
  intros sid row Hrow.
  destruct (S1 sid row Hrow) as (row2 & Hrow2 & Hu2 & Hc2).
  destruct (S2 sid row2 Hrow2) as (row3 & Hrow3 & Hu3 & Hc3).
  exists row3. repeat split; congruence.
Qed.

Lemma framing_ret {A} (a : A) : framing (ret a).
Proof. intros db. apply frames_refl. Qed.

Lemma framing_throw {A} e : framing (throw (A:=A) e).
Proof. intros db. apply frames_refl. Qed.

Lemma framing_lift {A} (o : Outcome A) : framing (lift o).
Proof. intros db. apply frames_refl. Qed.

Lemma framing_bind {A B} (m : M A) (k : A -> M B) :
  framing m -> (forall a, framing (k a)) -> framing (bind m k).
Proof.
  intros Hm Hk db. unfold bind. specialize (Hm db).
  destruct (m db) as [db' [a|e]]; simpl in *; [|exact Hm].
  eapply frames_trans; [exact Hm|apply Hk].
Qed.

Lemma framing_try_catch {A} (m : M A) (handler : JsError -> M A) :
  framing m -> (forall e, framing (handler e)) -> framing (try_catch m handler).
Proof.
  intros Hm Hh db. unfold try_catch. specialize (Hm db).
  destruct (m db) as [db' [a|e]]; simpl in *; [exact Hm|].
  eapply frames_trans; [exact Hm|apply Hh].
Qed.

Lemma framing_prisma_string v : framing (prisma_string v).
Proof. destruct v; intros db; apply frames_refl. Qed.

Lemma framing_findByEmail email : framing (PrismaUserRepository.findByEmail email).
Proof. intros db. rewrite findByEmail_reads. apply frames_refl. Qed.

Lemma framing_get sid : framing (PrismaSessionStore.get sid).
Proof. intros db. apply frames_refl. Qed.

Lemma framing_isRevoked j : framing (PrismaRevocationStore.isRevoked j).
Proof. intros db. apply frames_refl. Qed.

Lemma framing_ledger_revoke j : framing (PrismaRevocationStore.revoke j).
Proof. intros db. split; [reflexivity|]. intros sid row Hrow. exists row. auto. Qed.

Lemma framing_create io userId refreshJti :
  framing (PrismaSessionStore.create io userId refreshJti).
Proof.
  intros db. unfold PrismaSessionStore.create.
  destruct (sessions db !! newSessionId io) eqn:Hfree; [apply frames_refl|].
  destruct (negb (existsb _ (users db))); [apply frames_refl|].
  split; [reflexivity|]. intros sid row Hrow. exists row. simpl.
  rewrite lookup_insert_ne; [auto|congruence].
Qed.

Lemma framing_update sid f :
  (forall r, row_userId (f r) = row_userId r /\ row_createdAt (f r) = row_createdAt r) ->
  framing (PrismaSessionStore.update sid f).
Proof.
  intros Hf db. unfold PrismaSessionStore.update.
  destruct (sessions db !! sid) as [r|] eqn:Hr; [|apply frames_refl].
  split; [reflexivity|]. intros sid' row Hrow. simpl.
  destruct (decide (sid = sid')) as [<-|Hne].
  - exists (f r). rewrite lookup_insert_eq. split; [reflexivity|].
    assert (row = r) as -> by congruence. apply Hf.
  - exists row. rewrite lookup_insert_ne by exact Hne. auto.
Qed.

Lemma framing_setRefreshJti sid newJti :
  framing (PrismaSessionStore.setRefreshJti sid newJti).
Proof. apply framing_update. auto. Qed.

Lemma framing_session_revoke io sid : framing (PrismaSessionStore.revoke io sid).
Proof. apply framing_update. auto. Qed.

Create HintDb framing.
#[local] Hint Resolve framing_ret framing_throw framing_lift framing_prisma_string
  framing_findByEmail framing_get framing_isRevoked framing_ledger_revoke
  framing_create framing_setRefreshJti framing_session_revoke : framing.

Ltac framing_step :=
  match goal with
  | |- framing (bind _ _) => apply framing_bind; [|intros ?]
  | |- framing (try_catch _ _) => apply framing_try_catch; [|intros ?]
  | |- framing (match ?x with _ => _ end) => destruct x
  | |- framing (if ?b then _ else _) => destruct b
  | |- framing _ => solve [auto with framing]
  end.

Lemma framing_logout io sid : framing (AuthService.logout io sid).
Proof. unfold AuthService.logout. repeat framing_step. Qed.

Lemma framing_logoutWithToken deps io token :
  framing (AuthService.logoutWithToken deps io token).
Proof.
  unfold AuthService.logoutWithToken. repeat framing_step. apply framing_logout.
Qed.

Lemma framing_loginWithPassword `{Platform} deps io email password :
  framing (AuthService.loginWithPassword deps io email password).
Proof. unfold AuthService.loginWithPassword. repeat framing_step. Qed.

Lemma framing_refreshTokens `{Platform} deps io token :
  framing (AuthService.refreshTokens deps io token).
Proof. unfold AuthService.refreshTokens. repeat framing_step. Qed.

Lemma serve_frames `{Platform} deps r db : frames db (serve deps r db).
Proof.
  destruct r; simpl.
  - apply framing_loginWithPassword.
  - apply framing_refreshTokens.
  - apply framing_logout.
  - apply framing_logoutWithToken.
Qed.

(** X20. Whatever requests the service handles, with whatever tokens, it
    never changes the user table, never removes a session, never changes the
    owner or the creation time of a session, never clears a revocation
    timestamp and never removes an entry from the ledger. *)
Theorem requests_never_undo `{Platform} deps rs db :
  users (serve_all deps rs db) = users db /\
  revokedTokens db ⊆ revokedTokens (serve_all deps rs db) /\
  forall sid row, sessions db !! sid = Some row ->
    exists row', sessions (serve_all deps rs db) !! sid = Some row' /\
      row_userId row' = row_userId row /\
      row_createdAt row' = row_createdAt row /\
      (is_Some (row_revokedAt row) -> is_Some (row_revokedAt row')).
Proof.
  assert (Hframes : frames db (serve_all deps rs db)).
  { revert db. induction rs as [|r rs IH]; intros db; simpl.
    - apply frames_refl.
    - eapply frames_trans; [apply serve_frames|apply IH]. }
  destruct Hframes as [Husers Hsess].
  destruct (serve_all_evolves deps rs db) as [Hled Hrev].
  split; [exact Husers|]. split; [exact Hled|].
  intros sid row Hrow.
  destruct (Hsess sid row Hrow) as (row' & Hrow' & Hu & Hc).
  exists row'. repeat split; auto.
  intros Hsome.
  destruct (Hrev sid) as (row'' & Hrow'' & Hsome''); [exists row; auto|].
  congruence.
Qed.

(** ** The controller and the routes *)

Lemma refreshTokens_message `{Platform} deps io token db e :
  snd (AuthService.refreshTokens deps io token db) = Throw e ->
  message_of e <> "TOKEN_EXPIRED".
Proof.
  unfold_service.
  destruct (tokenService deps) as [ts|]; [|intros [= <-]; discriminate].
  destruct (verifyRefreshToken ts (now io) token) as [payload|e0];
    [|intros [= <-]; discriminate].
  destruct (rp_jti payload) as [|j| |]; try (intros [= <-]; discriminate).
  case_bool_decide; [intros [= <-]; discriminate|].
  destruct (rp_sessionId payload) as [|sid| |]; try (intros [= <-]; discriminate).
  destruct (sessions db !! sid) as [row|] eqn:Hrow; simpl;
    [|intros [= <-]; discriminate].
  case_bool_decide; [intros [= <-]; discriminate|].
  case_bool_decide; simpl.
  - destruct (rp_userId payload) as [|uid| |]; try (intros [= <-]; discriminate).
    destruct (find _ (users db)) as [u|]; simpl; [|intros [= <-]; discriminate].
    rewrite Hrow.
    destruct (generateAccessToken _ _ _) as [at_|ea] eqn:Ha;
      [destruct (generateRefreshToken _ _ _) as [rt|er] eqn:Hr|]; simpl.
    + discriminate.
    + intros [= <-]. apply jwt_sign_Throw in Hr as (m & -> & [-> | ->]); discriminate.
    + intros [= <-]. apply jwt_sign_Throw in Ha as (m & -> & [-> | ->]); discriminate.
  - rewrite Hrow. simpl. intros [= <-]. discriminate.
Qed.

(** X21. The refresh handler. A body without a refresh token, with an
    empty one or with one that is not a string is answered 400 without the
    service being called. Its status is always 200, 400 or 401, and it
    never answers with code [TOKEN_EXPIRED]. A verified token whose session
    is revoked is answered 401 with code [TOKEN_REVOKED]; a verified token
    whose session is not stored is answered 400 [BAD_REQUEST]. *)
Theorem refresh_handler_answers `{Platform} deps ts io body db :
  tokenService deps = Some ts ->
  (token_truthy (rb_refreshToken body) && token_is_string (rb_refreshToken body) = false ->
   AuthController.refresh deps io body db
   = (db, {| status := 400;
             json := CodeMessage "BAD_REQUEST" "Refresh token is required" |})) /\
  (status (snd (AuthController.refresh deps io body db)) = 200 \/
   status (snd (AuthController.refresh deps io body db)) = 400 \/
   status (snd (AuthController.refresh deps io body db)) = 401) /\
  (forall m, json (snd (AuthController.refresh deps io body db))
             <> CodeMessage "TOKEN_EXPIRED" m) /\
  (forall token p j sid row,
     rb_refreshToken body = TokenText token ->
     verifyRefreshToken ts (now io) token = Ok p ->
     rp_jti p = JString j -> rp_sessionId p = JString sid ->
     j ∉ revokedTokens db ->
     (sessions db !! sid = Some row -> is_Some (row_revokedAt row) ->
      AuthController.refresh deps io body db
      = (db, {| status := 401;
                json := CodeMessage "TOKEN_REVOKED" "Token has been revoked" |})) /\
     (sessions db !! sid = None ->
      AuthController.refresh deps io body db
      = (db, {| status := 400;
                json := CodeMessage "BAD_REQUEST" "Token refresh failed" |}))).
Proof.
  intros Hts. split; [|split; [|split]].
  - unfold AuthController.refresh.
    destruct (rb_refreshToken body) as [|token|b]; simpl; try reflexivity.
    rewrite andb_true_r. intros ->. reflexivity.
  - unfold AuthController.refresh.
    destruct (rb_refreshToken body) as [|token|b]; simpl; auto.
    destruct (negb _); simpl; auto.
    destruct (AuthService.refreshTokens deps io token db) as [db' [r|e]]; simpl; auto.
    repeat (case_bool_decide; simpl; auto);
      destruct (bool_decide _); simpl; auto.
  - intros m. unfold AuthController.refresh.
    destruct (rb_refreshToken body) as [|token|b]; simpl; try discriminate.
    destruct (negb _); simpl; [discriminate|].
    destruct (AuthService.refreshTokens deps io token db) as [db' [r|e]] eqn:Hrun;
      simpl; [discriminate|].
    pose proof (refreshTokens_message deps io token db e) as Hmsg.
    rewrite Hrun in Hmsg. specialize (Hmsg eq_refl).
    case_bool_decide; [contradiction|].
    destruct (bool_decide _ || bool_decide _); simpl; [discriminate|].
    repeat (case_bool_decide; simpl; try discriminate).
  - intros token p j sid row Hbody Hv Hj Hs Hled.
    assert (Htruthy : token_truthy (TokenText token) = true).
    { apply verifyRefreshToken_Ok in Hv as (c & Hd & _).
      destruct token; [discriminate|reflexivity..]. }
    split.
    + intros Hrow Hrev.
      assert (Hrun : AuthService.refreshTokens deps io token db = (db, Throw SESSION_REVOKED)).
      { unfold_service. rewrite Hts, Hv, Hj. case_bool_decide; [contradiction|].
        rewrite Hs, Hrow. simpl. case_bool_decide; [reflexivity|contradiction]. }
      unfold AuthController.refresh. rewrite Hbody, Htruthy. simpl.
      rewrite Hrun. reflexivity.
    + intros Hnone.
      assert (Hrun : AuthService.refreshTokens deps io token db
                     = (db, Throw SESSION_NOT_FOUND)).
      { unfold_service. rewrite Hts, Hv, Hj. case_bool_decide; [contradiction|].
        rewrite Hs, Hnone. reflexivity. }
      unfold AuthController.refresh. rewrite Hbody, Htruthy. simpl.
      rewrite Hrun. reflexivity.
Qed.

(** X22. The login handler. A body whose e-mail address or password is
    missing, empty or not a string is answered 400 without the service being
    called. Otherwise the answer is 200 with the tokens and the user of the
    service, or 401 [INVALID_CREDENTIALS], or 400 [BAD_REQUEST] with the
    fixed message [Authentication failed]: the message of the error is
    never passed on. *)
Theorem login_handler_answers `{Platform} deps io body db :
  (well_formed_login body = false ->
   AuthController.login deps io body db
   = (db, {| status := 400;
             json := CodeMessage "BAD_REQUEST" "Email and password are required" |})) /\
  (forall email password,
     body = {| lb_email := JString email; lb_password := JString password |} ->
     well_formed_login body = true ->
     fst (AuthController.login deps io body db)
     = fst (AuthService.loginWithPassword deps io email password db) /\
     match snd (AuthService.loginWithPassword deps io email password db) with
     | Ok result =>
         snd (AuthController.login deps io body db)
         = {| status := 200; json := LoginOk (tokens result) (user result) |}
     | Throw e =>
         snd (AuthController.login deps io body db)
         = (if bool_decide (message_of e = "INVALID_CREDENTIALS")
            then {| status := 401;
                    json := CodeMessage "INVALID_CREDENTIALS" "Invalid email or password" |}
            else {| status := 400;
                    json := CodeMessage "BAD_REQUEST" "Authentication failed" |})
     end).
Proof.
  split.
  - unfold well_formed_login, AuthController.login.
    destruct (lb_email body) as [|email| |]; destruct (lb_password body) as [|password| |];
      simpl; try reflexivity.
    rewrite !andb_true_r.
    repeat case_bool_decide; simpl; try reflexivity; discriminate.
  - intros email password -> Hwf. unfold well_formed_login in Hwf. simpl in Hwf.
    rewrite !andb_true_r in Hwf. apply andb_true_iff in Hwf as [He Hp].
    apply negb_true_iff in He, Hp.
    unfold AuthController.login. simpl. rewrite He, Hp. simpl.
    destruct (AuthService.loginWithPassword deps io email password db) as [db' [r|e]];
      simpl; [auto|].
    destruct (bool_decide (message_of e = "INVALID_CREDENTIALS")); auto.
Qed.

(** X23. The routes. [POST /logout] is behind [requireAuth]: when the
    request carries no access token the middleware accepts, the answer is
    the 401 of the middleware and nothing is written, whatever the body
    says; when it carries one, the answer is that of the logout handler.
    [POST /login] and [POST /refresh] do not look at the header. *)
Theorem logout_route_requires_access_token `{Platform} deps env io authorization
    body db :
  (forall r, requireAuth (new_TokenService None env) (now io) authorization = Respond r ->
     buildAuthRoutes deps env io authorization (PostLogout body) db = (db, r) /\
     status r = 401) /\
  (forall u, requireAuth (new_TokenService None env) (now io) authorization = Next u ->
     buildAuthRoutes deps env io authorization (PostLogout body) db
     = AuthController.logout deps io body db) /\
  (forall lb, buildAuthRoutes deps env io authorization (PostLogin lb) db
              = AuthController.login deps io lb db) /\
  (forall rb, buildAuthRoutes deps env io authorization (PostRefresh rb) db
              = AuthController.refresh deps io rb db).
Proof.
  split; [|split; [|split]].
  - intros r Hauth. unfold buildAuthRoutes. rewrite Hauth. split; [reflexivity|].
    unfold requireAuth in Hauth. destruct authorization as [h|].
    + destruct (credentials h) as [|token [|t2 rest]];
        try (injection Hauth as <-; reflexivity).
      destruct (negb (bool_decide (toLowerCase (scheme h) = "bearer")));
        [injection Hauth as <-; reflexivity|].
      destruct (negb (token_truthy (TokenText token)));
        [injection Hauth as <-; reflexivity|].
      destruct (verifyAccessToken _ _ token) as [p|e]; [discriminate|].
      repeat case_bool_decide; injection Hauth as <-; reflexivity.
    + injection Hauth as <-. reflexivity.
  - intros u Hauth. unfold buildAuthRoutes. rewrite Hauth. reflexivity.
  - reflexivity.
  - reflexivity.
Qed.

(** X24. The application end to end. On the Prisma-backed service, built
    from an environment whose lifetimes the platform can read, a user who
    logs in through [POST /login] with good credentials gets 200; with the
    access token of that answer in a bearer header, before it expires,
    [POST /logout] for the session of the login passes the middleware, is
    answered 200 and leaves the session revoked with its [jti] in the
    ledger. *)
Theorem login_then_logout_through_the_routes `{Platform} env io io' email password
    db u sa sr scheme :
  let ts := new_TokenService None env in
  ms (accessExpiresIn ts) = Some sa -> ms (refreshExpiresIn ts) = Some sr ->
  snd (PrismaUserRepository.findByEmail email db) = Ok (Some u) ->
  hash_verify (new_HashService None) password (u_passwordHash u) = true ->
  sessions db !! newSessionId io = None ->
  email <> "" -> password <> "" -> newSessionId io <> "" -> randomUUID io <> "" ->
  toLowerCase scheme = "bearer" ->
  now io' / 1000 < now io / 1000 + sa / 1000 ->
  exists resp db2,
    buildApp env io None
      (PostLogin {| lb_email := JString email; lb_password := JString password |}) db
    = (with_session db (newSessionId io) (fresh_row io (u_id u)),
       {| status := 200; json := LoginOk (tokens resp) (user resp) |}) /\
    user resp = summary_of u /\
    buildApp env io'
      (Some {| scheme := scheme; credentials := [accessToken (tokens resp)] |})
      (PostLogout {| ob_sessionId := JString (newSessionId io);
                     ob_refreshToken := TokenAbsent |})
      (with_session db (newSessionId io) (fresh_row io (u_id u)))
    = (db2, {| status := 200; json := Success true |}) /\
    session_revoked db2 (newSessionId io) /\
    randomUUID io ∈ revokedTokens db2.
Proof.
  intros ts Hma Hmr Hfind Hpw Hfree He Hp Hsid Huuid Hscheme Hfresh.
  assert (Hsa : accessSecret ts <> "")
    by (apply or_else_not_empty, or_else_not_empty; discriminate).
  assert (Hsr : refreshSecret ts <> "")
    by (apply or_else_not_empty, or_else_not_empty; discriminate).
  destruct (login_success_run (buildPrismaAuthService env) ts (new_HashService None)
              io email password db u sa sr eq_refl eq_refl Hsa Hsr Hma Hmr Hfind Hpw Hfree)
    as (resp & Hrun & Huser & Hat & _).
  assert (Hrow : sessions (with_session db (newSessionId io) (fresh_row io (u_id u)))
                 !! newSessionId io = Some (fresh_row io (u_id u))).
  { simpl. apply lookup_insert_eq. }
  pose proof (logout_run io' _ _ _ Hrow) as Hout.
  exists resp. eexists.
  split; [|split; [exact Huser|split; [|split]]].
  - unfold buildApp, buildAuthRoutes, AuthController.login. simpl.
    repeat (case_bool_decide; [contradiction|]). simpl.
    rewrite Hrun. reflexivity.
  - unfold buildApp, buildAuthRoutes.
    assert (Hnext : requireAuth (new_TokenService None env) (now io')
                      (Some {| scheme := scheme;
                               credentials := [accessToken (tokens resp)] |})
                    = Next (payload_of_user (authenticated u))).
    { apply requireAuth_Next with (token := accessToken (tokens resp));
        [reflexivity|exact Hscheme|exact (Hat (now io') Hfresh)]. }
    rewrite Hnext. unfold AuthController.logout.
    cbn [ob_sessionId ob_refreshToken truthy token_truthy is_string token_is_string
         negb andb].
    case_bool_decide; [contradiction|]. cbn [negb andb].
    rewrite Hout. reflexivity.
  - eexists. simpl. rewrite lookup_insert_eq. split; [reflexivity|]. simpl. eauto.
  - simpl. unfold ledger_after_logout. simpl. case_bool_decide; [contradiction|].
    apply elem_of_union_l, elem_of_singleton. reflexivity.
Qed.

(** ** The configuration module *)

Lemma split_last_append digits unit :
  split_last (digits +:+ String unit EmptyString) = Some (digits, unit).
Proof.
  induction digits as [|c digits IH]; simpl; [reflexivity|].
  change (String.append digits (String unit "")) with (digits +:+ String unit "").
  rewrite IH. reflexivity.
Qed.

Lemma split_last_Some s : forall front last,
  split_last s = Some (front, last) -> s = front +:+ String last EmptyString.
Proof.
  induction s as [|c s IH]; intros front last; simpl; [discriminate|].
  destruct (split_last s) as [[f l]|] eqn:Hs.
  - intros [= <- <-]. rewrite (IH f l eq_refl) at 1. reflexivity.
  - intros [= <- <-]. destruct s as [|c' s']; [reflexivity|].
    simpl in Hs. destruct (split_last s') as [[f l]|]; discriminate.
Qed.

Lemma is_digit_range c :
  is_digit c = true -> 0 <= Z.of_nat (Ascii.nat_of_ascii c) - 48 <= 9.
Proof.
  unfold is_digit. intros H. apply andb_true_iff in H as [H1 H2].
  apply Nat.leb_le in H1, H2. lia.
Qed.

Lemma decimal_value_nonneg digits : forall acc,
  all_digits digits = true -> 0 <= acc -> 0 <= decimal_value acc digits.
Proof.
  induction digits as [|c digits IH]; intros acc Hd Hacc; simpl; [exact Hacc|].
  simpl in Hd. apply andb_true_iff in Hd as [Hc Hd].
  apply IH; [exact Hd|]. apply is_digit_range in Hc. lia.
Qed.

Lemma js_integer_exact n : 0 <= n <= 2 ^ 53 -> js_integer n = Exact n.
Proof. intros Hn. unfold js_integer. case_bool_decide; [reflexivity|lia]. Qed.

Lemma js_integer_Exact n m : js_integer n = Exact m -> m = n.
Proof. unfold js_integer. case_bool_decide; [intros [= <-]; reflexivity|discriminate]. Qed.

Lemma js_times_Exact a k m :
  js_times a k = Exact m -> exists n, a = Exact n /\ m = n * k.
Proof.
  destruct a as [n|]; simpl; [|discriminate].
  intros Hm. apply js_integer_Exact in Hm. eauto.
Qed.

Lemma match_duration_Some s digits unit :
  match_duration s = Some (digits, unit) ->
  s = digits +:+ String unit EmptyString /\
  digits <> "" /\ all_digits digits = true /\
  (unit = "m"%char \/ unit = "h"%char \/ unit = "d"%char).
Proof.
  unfold match_duration.
  destruct (split_last s) as [[front last]|] eqn:Hs; [|discriminate].
  destruct (negb (bool_decide (front = "")) && all_digits front
            && (bool_decide (last = "m"%char) || bool_decide (last = "h"%char)
                || bool_decide (last = "d"%char))) eqn:Hok; [|discriminate].
  intros [= <- <-].
  apply andb_true_iff in Hok as [Hok Hunit]. apply andb_true_iff in Hok as [Hne Hd].
  apply negb_true_iff, bool_decide_eq_false in Hne.
  split; [apply split_last_Some; exact Hs|]. split; [exact Hne|]. split; [exact Hd|].
  apply orb_true_iff in Hunit as [Hunit|Hunit];
    [apply orb_true_iff in Hunit as [Hunit|Hunit]|];
    apply bool_decide_eq_true in Hunit; auto.
Qed.

Lemma unit_factor_values :
  unit_factor "m"%char = 60000 /\ unit_factor "h"%char = 3600000 /\
  unit_factor "d"%char = 86400000.
Proof. repeat split; vm_compute; reflexivity. Qed.

Lemma parseDuration_matched duration digits unit :
  match_duration duration = Some (digits, unit) ->
  parseDuration duration
  = if bool_decide (unit = "m"%char) then
      Ok (js_times (js_times (js_integer (decimal_value 0 digits)) 60) 1000)
    else if bool_decide (unit = "h"%char) then
      Ok (js_times (js_times (js_times (js_integer (decimal_value 0 digits)) 60) 60) 1000)
    else if bool_decide (unit = "d"%char) then
      Ok (js_times (js_times (js_times (js_times (js_integer (decimal_value 0 digits)) 24)
                                60) 60) 1000)
    else Throw (Error ("Unité de temps non supportée: " +:+ String unit EmptyString)).
Proof. intros Hm. unfold parseDuration. rewrite Hm. reflexivity. Qed.

Lemma match_duration_append digits unit :
  digits <> "" -> all_digits digits = true ->
  unit = "m"%char \/ unit = "h"%char \/ unit = "d"%char ->
  match_duration (digits +:+ String unit EmptyString) = Some (digits, unit).
Proof.
  intros Hne Hd Hunit. unfold match_duration. rewrite split_last_append, Hd.
  rewrite (bool_decide_eq_false_2 _ Hne).
  destruct Hunit as [-> | [-> | ->]]; reflexivity.
Qed.

Lemma js_times_exact n k :
  0 <= n * k <= 2 ^ 53 -> js_times (Exact n) k = Exact (n * k).
Proof. intros Hn. simpl. apply js_integer_exact. exact Hn. Qed.

(** X25. [parseDuration] accepts exactly the strings made of one or more
    decimal digits followed by one of [m], [h], [d], and every other string
    makes it throw the invalid-format error; the error for an unsupported
    unit is never thrown. On an accepted string whose value fits a safe
    integer the result is the number written times 60000, 3600000 or
    86400000; an accepted result is never negative. *)
Theorem parseDuration_accepts_digits_and_unit duration :
  (forall digits unit,
     duration = digits +:+ String unit EmptyString ->
     digits <> "" -> all_digits digits = true ->
     unit = "m"%char \/ unit = "h"%char \/ unit = "d"%char ->
     decimal_value 0 digits * unit_factor unit <= 2 ^ 53 ->
     parseDuration duration = Ok (Exact (decimal_value 0 digits * unit_factor unit))) /\
  (forall result, parseDuration duration = Ok result ->
     exists digits unit,
       duration = digits +:+ String unit EmptyString /\
       digits <> "" /\ all_digits digits = true /\
       (unit = "m"%char \/ unit = "h"%char \/ unit = "d"%char) /\
       forall n, result = Exact n ->
                 n = decimal_value 0 digits * unit_factor unit /\ 0 <= n) /\
  (forall e, parseDuration duration = Throw e -> e = invalid_duration duration).
Proof.
  destruct unit_factor_values as (Fm & Fh & Fd).
  split; [|split].
  - intros digits unit -> Hne Hd Hunit Hfit.
    pose proof (decimal_value_nonneg digits 0 Hd ltac:(lia)) as Hv.
    rewrite (parseDuration_matched _ digits unit (match_duration_append _ _ Hne Hd Hunit)).
    change (2 ^ 53) with 9007199254740992 in Hfit.
    destruct Hunit as [-> | [-> | ->]].
    + rewrite Fm in *. rewrite bool_decide_eq_true_2 by reflexivity.
      rewrite js_integer_exact by (change (2 ^ 53) with 9007199254740992; lia).
      rewrite !js_times_exact by (change (2 ^ 53) with 9007199254740992; lia).
      do 2 f_equal. lia.
    + rewrite Fh in *. rewrite bool_decide_eq_false_2 by discriminate.
      rewrite bool_decide_eq_true_2 by reflexivity.
      rewrite js_integer_exact by (change (2 ^ 53) with 9007199254740992; lia).
      rewrite !js_times_exact by (change (2 ^ 53) with 9007199254740992; lia).
      do 2 f_equal. lia.
    + rewrite Fd in *. rewrite !bool_decide_eq_false_2 by discriminate.
      rewrite bool_decide_eq_true_2 by reflexivity.
      rewrite js_integer_exact by (change (2 ^ 53) with 9007199254740992; lia).
      rewrite !js_times_exact by (change (2 ^ 53) with 9007199254740992; lia).
      do 2 f_equal. lia.
  - intros result Hres.
    destruct (match_duration duration) as [[digits unit]|] eqn:Hm;
      [|unfold parseDuration in Hres; rewrite Hm in Hres; discriminate].
    rewrite (parseDuration_matched _ _ _ Hm) in Hres.
    apply match_duration_Some in Hm as (-> & Hne & Hd & Hunit).
    pose proof (decimal_value_nonneg digits 0 Hd ltac:(lia)) as Hv.
    exists digits, unit. repeat (split; [assumption || reflexivity|]).
    intros n ->.
    destruct Hunit as [-> | [-> | ->]].
    + rewrite Fm. rewrite bool_decide_eq_true_2 in Hres by reflexivity.
      injection Hres as Hres.
      repeat (apply js_times_Exact in Hres as (? & Hres & ->)).
      apply js_integer_Exact in Hres as ->. lia.
    + rewrite Fh. rewrite bool_decide_eq_false_2 in Hres by discriminate.
      rewrite bool_decide_eq_true_2 in Hres by reflexivity.
      injection Hres as Hres.
      repeat (apply js_times_Exact in Hres as (? & Hres & ->)).
      apply js_integer_Exact in Hres as ->. lia.
    + rewrite Fd. rewrite !bool_decide_eq_false_2 in Hres by discriminate.
      rewrite bool_decide_eq_true_2 in Hres by reflexivity.
      injection Hres as Hres.
      repeat (apply js_times_Exact in Hres as (? & Hres & ->)).
      apply js_integer_Exact in Hres as ->. lia.
  - intros e Hres.
    destruct (match_duration duration) as [[digits unit]|] eqn:Hm.
    + rewrite (parseDuration_matched _ _ _ Hm) in Hres.
      apply match_duration_Some in Hm as (_ & _ & _ & Hunit).
      destruct Hunit as [-> | [-> | ->]].
      * discriminate Hres.
      * discriminate Hres.
      * discriminate Hres.
    + unfold parseDuration in Hres. rewrite Hm in Hres.
      injection Hres as <-. reflexivity.
Qed.

Lemma lower_ascii_letter (c lower upper : Ascii.ascii) :
  (lower, upper) = ("t", "T")%char \/ (lower, upper) = ("r", "R")%char \/
  (lower, upper) = ("u", "U")%char \/ (lower, upper) = ("e", "E")%char ->
  lower_ascii c = lower <-> c = lower \/ c = upper.
Proof.
  intros [[= -> ->] | [[= -> ->] | [[= -> ->] | [= -> ->]]]];
    destruct c as [[] [] [] [] [] [] [] []]; vm_compute;
    (split; [intros H; try discriminate H; auto
            |intros [H|H]; try discriminate H; reflexivity]).
Qed.

(** X26. [toBool] is true for the word [true] written in any mix of
    upper and lower case, and false for every other string (so for [1],
    [yes], the empty string, or [true] with a space around it) and for an
    absent value. *)
Theorem toBool_accepts_only_true value :
  toBool value = true <->
  exists a b c d,
    value = Some (String a (String b (String c (String d EmptyString)))) /\
    (a = "t" \/ a = "T")%char /\ (b = "r" \/ b = "R")%char /\
    (c = "u" \/ c = "U")%char /\ (d = "e" \/ d = "E")%char.
Proof.
  unfold toBool. destruct value as [v|].
  - rewrite bool_decide_eq_true. split.
    + destruct v as [|a [|b [|c [|d [|x rest]]]]]; simpl; try discriminate.
      intros [= Ha Hb Hc Hd]. exists a, b, c, d.
      split; [reflexivity|].
      apply (lower_ascii_letter a "t" "T") in Ha; [|auto].
      apply (lower_ascii_letter b "r" "R") in Hb; [|auto].
      apply (lower_ascii_letter c "u" "U") in Hc; [|auto 6].
      apply (lower_ascii_letter d "e" "E") in Hd; [|auto 6].
      auto.
    + intros (a & b & c & d & [= ->] & Ha & Hb & Hc & Hd). simpl.
      apply (lower_ascii_letter a "t" "T") in Ha; [|auto].
      apply (lower_ascii_letter b "r" "R") in Hb; [|auto].
      apply (lower_ascii_letter c "u" "U") in Hc; [|auto 6].
      apply (lower_ascii_letter d "e" "E") in Hd; [|auto 6].
      rewrite Ha, Hb, Hc, Hd. reflexivity.
  - split; [discriminate|]. intros (a & b & c & d & H & _). discriminate H.
Qed.

(** X27. The configuration module loads only when both secrets are set,
    not empty and different from each other, and both lifetimes are in the
    format [parseDuration] accepts. When it loads, its secrets are those of
    the environment, its millisecond lifetimes and the cookie's [maxAge] are
    what [parseDuration] gives, and a token service built from the same
    environment signs with the same two secrets, so that an access token it
    makes is refused by [verifyRefreshToken] as [INVALID_TOKEN]. *)
Theorem authConfig_guards_the_secrets `{Builtins} `{Platform} env config :
  authConfig env = Ok config ->
  jwtAccessSecret config <> "" /\ jwtRefreshSecret config <> "" /\
  jwtAccessSecret config <> jwtRefreshSecret config /\
  JWT_ACCESS_SECRET (token_env env) = Some (jwtAccessSecret config) /\
  JWT_REFRESH_SECRET (token_env env) = Some (jwtRefreshSecret config) /\
  parseDuration (jwtAccessExpires config) = Ok (jwtAccessExpiresMs config) /\
  parseDuration (jwtRefreshExpires config) = Ok (jwtRefreshExpiresMs config) /\
  maxAge (cookieOptions config) = jwtRefreshExpiresMs config /\
  accessSecret (new_TokenService None (token_env env)) = jwtAccessSecret config /\
  refreshSecret (new_TokenService None (token_env env)) = jwtRefreshSecret config /\
  (forall now now' p token,
     generateAccessToken (new_TokenService None (token_env env)) now p = Ok token ->
     verifyRefreshToken (new_TokenService None (token_env env)) now' token
     = Throw INVALID_TOKEN).
Proof.
  unfold authConfig.
  destruct (JWT_ACCESS_SECRET (token_env env)) as [access|] eqn:Ha; [|discriminate].
  case_bool_decide as Hae; [discriminate|].
  destruct (JWT_REFRESH_SECRET (token_env env)) as [refresh|] eqn:Hr; [|discriminate].
  case_bool_decide as Hre; [discriminate|].
  case_bool_decide as Hdiff; [discriminate|].
  destruct (parseDuration (or_else (JWT_ACCESS_EXPIRES env) "15m")) as [accessMs|] eqn:Hpa;
    [|discriminate].
  destruct (parseDuration (or_else (JWT_REFRESH_EXPIRES env) "30d")) as [refreshMs|] eqn:Hpr;
    [|discriminate].
  intros [= <-]. simpl.
  assert (Hsa : accessSecret (new_TokenService None (token_env env)) = access).
  { simpl. rewrite Ha. simpl. rewrite bool_decide_eq_false_2 by exact Hae. reflexivity. }
  assert (Hsr : refreshSecret (new_TokenService None (token_env env)) = refresh).
  { simpl. rewrite Hr. simpl. rewrite bool_decide_eq_false_2 by exact Hre. reflexivity. }
  repeat (split; [first [assumption | reflexivity]|]).
  intros now now' p token Hgen.
  apply jwt_sign_Ok in Hgen as (span & _ & _ & ->).
  unfold verifyRefreshToken.
  edestruct (jwt_verify_other_secret now') as [m ->]; [|reflexivity].
  intros Heq. apply Hdiff. rewrite <- Hsa, <- Hsr. exact Heq.
Qed.

(** X28. The logout handler looks at the refresh token first. When the
    body carries a refresh token, the session identifier beside it is not
    used: the handler does what [logoutWithToken] does with the token and
    answers 200 with [success: true], also when the service throws. So a
    request that names a session but carries a token the verifier refuses,
    or that reaches a service without token service, is answered 200 and
    writes nothing. *)
Theorem logout_handler_prefers_the_token deps io sessionId token db :
  let body := {| ob_sessionId := sessionId; ob_refreshToken := TokenText token |} in
  token_truthy (TokenText token) = true ->
  (truthy sessionId = true -> is_string sessionId = true) ->
  AuthController.logout deps io body db
  = (fst (AuthService.logoutWithToken deps io token db),
     {| status := 200; json := Success true |}) /\
  (tokenService deps = None ->
   AuthController.logout deps io body db
   = (db, {| status := 200; json := Success true |})) /\
  (forall ts e, tokenService deps = Some ts ->
     verifyRefreshToken ts (now io) token = Throw e ->
     AuthController.logout deps io body db
     = (db, {| status := 200; json := Success true |})).
Proof.
  intros body Htoken Hsid.
  assert (Hcall : AuthController.logout deps io body db
                  = (fst (AuthService.logoutWithToken deps io token db),
                     {| status := 200; json := Success true |})).
  { unfold AuthController.logout, body.
    cbn [ob_sessionId ob_refreshToken]. rewrite Htoken.
    rewrite andb_false_r.
    destruct (truthy sessionId) eqn:Ht.
    - rewrite (Hsid eq_refl). cbn [negb andb token_is_string].
      destruct (AuthService.logoutWithToken deps io token db) as [db' [[]|e]]; reflexivity.
    - cbn [negb andb token_is_string].
      destruct (AuthService.logoutWithToken deps io token db) as [db' [[]|e]]; reflexivity. }
  split; [exact Hcall|]. split.
  - intros Hnone. rewrite Hcall. unfold AuthService.logoutWithToken. rewrite Hnone.
    reflexivity.
  - intros ts e Hts Hv. rewrite Hcall. unfold AuthService.logoutWithToken. rewrite Hts.
    unfold try_catch, bind, lift. rewrite Hv. reflexivity.
Qed.

(** X29. The refresh lifetime of the configuration module does not reach
    the tokens. The module reads [JWT_REFRESH_EXPIRES] and falls back on 30
    days; the token service reads [JWT_REFRESH_EXPIRES_IN] and falls back on
    7 days. So when the module loads in an environment without
    [JWT_REFRESH_EXPIRES_IN], the [maxAge] of the refresh cookie follows
    [JWT_REFRESH_EXPIRES] (30 days when it is not set), while a refresh
    token the service signs lives the 7 days of the service, whatever the
    module says. *)
Theorem config_lifetime_does_not_reach_the_tokens `{Builtins} `{Platform} env config
    now now' p token span :
  authConfig env = Ok config ->
  JWT_REFRESH_EXPIRES_IN (token_env env) = None ->
  ms "7d" = Some span ->
  generateRefreshToken (new_TokenService None (token_env env)) now p = Ok token ->
  parseDuration (or_else (JWT_REFRESH_EXPIRES env) "30d") = Ok (maxAge (cookieOptions config)) /\
  (JWT_REFRESH_EXPIRES env = None ->
   maxAge (cookieOptions config) = Exact 2592000000) /\
  verifyRefreshToken (new_TokenService None (token_env env)) now' token
  = if bool_decide (now / 1000 + span / 1000 <= now' / 1000) then Throw TOKEN_EXPIRED
    else Ok {| rp_userId := JString (ri_userId p);
               rp_sessionId := JString (ri_sessionId p);
               rp_jti := JString (ri_jti p) |}.
Proof.
  intros Hload Hin Hspan Hgen.
  assert (Hage : parseDuration (or_else (JWT_REFRESH_EXPIRES env) "30d")
                 = Ok (maxAge (cookieOptions config))).
  { revert Hload. unfold authConfig.
    destruct (JWT_ACCESS_SECRET (token_env env)) as [access|]; [|discriminate].
    case_bool_decide; [discriminate|].
    destruct (JWT_REFRESH_SECRET (token_env env)) as [refresh|]; [|discriminate].
    case_bool_decide; [discriminate|].
    case_bool_decide; [discriminate|].
    destruct (parseDuration (or_else (JWT_ACCESS_EXPIRES env) "15m")); [|discriminate].
    destruct (parseDuration (or_else (JWT_REFRESH_EXPIRES env) "30d")); [|discriminate].
    intros [= <-]. reflexivity. }
  split; [exact Hage|]. split.
  - intros Hnone. rewrite Hnone in Hage.
    assert (Hdefault : parseDuration (or_else None "30d") = Ok (Exact 2592000000))
      by (vm_compute; reflexivity).
    rewrite Hdefault in Hage. injection Hage as <-. reflexivity.
  - assert (Hlife : ms (refreshExpiresIn (new_TokenService None (token_env env)))
                    = Some span).
    { simpl. rewrite Hin. exact Hspan. }
    apply jwt_sign_Ok in Hgen as (span' & Hspan' & Hsecret & ->).
    assert (Hsame : Some span' = Some span) by (rewrite <- Hspan', <- Hlife; reflexivity).
    injection Hsame as ->.
    unfold verifyRefreshToken. rewrite jwt_verify_signed by auto.
    cbn [exp]. case_bool_decide; reflexivity.
Qed.

(** * The further properties at concrete inputs *)

Section ConcreteFurther.

Import Fixture.
#[local] Existing Instance platform.
#[local] Existing Instance builtins.

Ltac computed := vm_compute; reflexivity.
Ltac absent_from_ledger := apply (proj1 (bool_decide_eq_false _)); vm_compute; reflexivity.

Lemma access_token_round_trip_witness :
  generateAccessToken default_service 0 alice_claims = Ok alice_access /\
  ms (accessExpiresIn default_service) = Some 900000 /\
  verifyAccessToken default_service 899999 alice_access
  = Ok {| ap_userId := JString "u1"; ap_email := JString "a@x.com";
          ap_roleIds := JStrings ["r1"; "r2"];
          ap_permissions := JStrings ["users.read"; "users.write"] |} /\
  verifyAccessToken default_service 900000 alice_access = Throw TOKEN_EXPIRED.
Proof.
  assert (Hgen : generateAccessToken default_service 0 alice_claims = Ok alice_access)
    by computed.
  assert (Hms : ms (accessExpiresIn default_service) = Some 900000) by computed.
  split; [exact Hgen|]. split; [exact Hms|]. split.
  - exact (access_token_round_trip default_service 0 899999 alice_claims alice_access
             900000 Hgen Hms).
  - exact (access_token_round_trip default_service 0 900000 alice_claims alice_access
             900000 Hgen Hms).
Defined.

Lemma refresh_token_round_trip_witness :
  generateRefreshToken default_service 0
    {| ri_userId := "u1"; ri_sessionId := "s0"; ri_jti := "j0" |} = Ok alice_refresh /\
  ms (refreshExpiresIn default_service) = Some seven_days /\
  verifyRefreshToken default_service 1000 alice_refresh = Ok payload0 /\
  verifyRefreshToken default_service seven_days alice_refresh = Throw TOKEN_EXPIRED.
Proof.
  assert (Hgen : generateRefreshToken default_service 0
                   {| ri_userId := "u1"; ri_sessionId := "s0"; ri_jti := "j0" |}
                 = Ok alice_refresh) by computed.
  assert (Hms : ms (refreshExpiresIn default_service) = Some seven_days) by computed.
  split; [exact Hgen|]. split; [exact Hms|]. split.
  - exact (refresh_token_round_trip default_service 0 1000 _ alice_refresh
             seven_days Hgen Hms).
  - exact (refresh_token_round_trip default_service 0 seven_days _ alice_refresh
             seven_days Hgen Hms).
Defined.

Lemma guards_monotone_witness :
  requirePermission ["users.read"] (Some reader) = GuardNext /\
  requirePermission ["users.read"] (Some editor) = GuardNext /\
  requireAllPermissions ["users.read"] (Some editor) = GuardNext /\
  requireRole ["r2"] (Some editor) = GuardNext.
Proof.
  assert (Hroles : forall r, r ∈ au_roleIds reader -> r ∈ au_roleIds editor).
  { intros r Hr. apply list_elem_of_singleton in Hr as ->.
    apply list_elem_of_further, list_elem_of_here. }
  assert (Hperms : forall p, p ∈ au_permissions reader -> p ∈ au_permissions editor).
  { intros p Hp. apply list_elem_of_singleton in Hp as ->. apply list_elem_of_here. }
  destruct (guards_monotone ["users.read"] reader editor Hroles Hperms) as (_ & Hany & Hall).
  destruct (guards_monotone ["r2"] reader editor Hroles Hperms) as (Hrole & _).
  split; [reflexivity|]. split; [exact (Hany eq_refl)|]. split; [exact (Hall eq_refl)|].
  exact (Hrole eq_refl).
Defined.

Lemma login_success_witness :
  snd (PrismaUserRepository.findByEmail "a@x.com" db0) = Ok (Some alice_record) /\
  hash_verify hash10 "P@ss1" (u_passwordHash alice_record) = true /\
  sessions db0 !! newSessionId io0 = None /\
  exists resp,
    AuthService.loginWithPassword deps io0 "a@x.com" "P@ss1" db0
    = (with_session db0 "s0" (fresh_row io0 "u1"), Ok resp) /\
    user resp = summary_of alice_record /\
    (forall now', now' / 1000 < now io0 / 1000 + 900000 / 1000 ->
       verifyAccessToken default_service now' (accessToken (tokens resp))
       = Ok (payload_of_user (authenticated alice_record))) /\
    (forall now', now' / 1000 < now io0 / 1000 + seven_days / 1000 ->
       verifyRefreshToken default_service now' (refreshToken (tokens resp))
       = Ok {| rp_userId := JString "u1"; rp_sessionId := JString "s0";
               rp_jti := JString "j0" |}).
Proof.
  assert (Hfind : snd (PrismaUserRepository.findByEmail "a@x.com" db0)
                  = Ok (Some alice_record)) by computed.
  assert (Hpw : hash_verify hash10 "P@ss1" (u_passwordHash alice_record) = true)
    by computed.
  assert (Hfree : sessions db0 !! newSessionId io0 = None) by computed.
  split; [exact Hfind|]. split; [exact Hpw|]. split; [exact Hfree|].
  exact (login_success deps default_service hash10 io0 "a@x.com" "P@ss1" db0
           alice_record 900000 seven_days eq_refl eq_refl
           ltac:(discriminate) ltac:(discriminate) ltac:(computed) ltac:(computed)
           Hfind Hpw Hfree).
Defined.

Lemma login_signing_failure_witness :
  ms (accessExpiresIn unreadable_service) = None /\
  exists e,
    AuthService.loginWithPassword unreadable_deps io0 "a@x.com" "P@ss1" db0
    = (with_session db0 "s0" (fresh_row io0 "u1"), Throw e) /\
    message_of e <> "INVALID_CREDENTIALS" /\
    snd (PrismaSessionStore.get "s0"
           (fst (AuthService.loginWithPassword unreadable_deps io0 "a@x.com" "P@ss1" db0)))
    = Ok (Some {| s_id := "s0"; s_userId := "u1"; currentRefreshJti := "j0";
                  createdAt := 0; revokedAt := None |}) /\
    AuthController.login unreadable_deps io0
      {| lb_email := JString "a@x.com"; lb_password := JString "P@ss1" |} db0
    = (with_session db0 "s0" (fresh_row io0 "u1"),
       {| status := 400; json := CodeMessage "BAD_REQUEST" "Authentication failed" |}).
Proof.
  assert (Hms : ms (accessExpiresIn unreadable_service) = None) by computed.
  split; [exact Hms|].
  destruct (login_signing_failure_leaves_session unreadable_deps unreadable_service hash10
              io0 "a@x.com" "P@ss1" db0 alice_record eq_refl eq_refl
              ltac:(discriminate) Hms ltac:(computed) ltac:(computed) ltac:(computed))
    as (e & Hrun & Hmessage & Hrow & Hhandler).
  exists e. split; [exact Hrun|]. split; [exact Hmessage|]. split; [exact Hrow|].
  apply Hhandler; discriminate.
Defined.

Lemma logout_revokes_witness :
  sessions db1 !! "s0" = Some row0 /\
  AuthService.logout io1 "s0" db1
  = ({| users := users db1;
        sessions := <["s0" := revoked_row io1 row0]> (sessions db1);
        revokedTokens := ledger_after_logout db1 "j0" |}, Ok tt).
Proof.
  assert (Hrow : sessions db1 !! "s0" = Some row0) by computed.
  split; [exact Hrow|].
  exact (proj1 (proj2 (logout_revokes_session_and_token deps default_service io1 "s0" db1
                         eq_refl) row0 Hrow)).
Defined.

Lemma logoutWithToken_witness :
  verifyRefreshToken default_service (now late) token0 = Throw TOKEN_EXPIRED /\
  AuthService.logoutWithToken deps late token0 db1 = (db1, Ok tt) /\
  verifyRefreshToken default_service (now io1) token0 = Ok payload0 /\
  AuthService.logoutWithToken deps io1 token0 db1 = AuthService.logout io1 "s0" db1.
Proof.
  assert (Hbad : verifyRefreshToken default_service (now late) token0 = Throw TOKEN_EXPIRED)
    by computed.
  assert (Hgood : verifyRefreshToken default_service (now io1) token0 = Ok payload0)
    by computed.
  split; [exact Hbad|]. split.
  - exact (proj1 (proj2 (logoutWithToken_swallows_bad_tokens deps default_service late
                           token0 db1 eq_refl)) TOKEN_EXPIRED Hbad).
  - split; [exact Hgood|].
    exact (proj2 (proj2 (logoutWithToken_swallows_bad_tokens deps default_service io1
                           token0 db1 eq_refl)) payload0 "s0" Hgood eq_refl).
Defined.

Lemma refresh_success_witness :
  verifyRefreshToken default_service (now io1) loop_token0 = Ok loop_payload /\
  ("j0" ∉ revokedTokens loop_db1) /\
  sessions loop_db1 !! "s0" = Some loop_row /\
  snd (PrismaUserRepository.findByEmail "loop" loop_db1) = Ok (Some loop_record) /\
  exists resp,
    AuthService.refreshTokens deps io1 loop_token0 loop_db1
    = ({| users := users loop_db1;
          sessions := <["s0" := rotated loop_row "j1"]> (sessions loop_db1);
          revokedTokens := {["j0"]} ∪ revokedTokens loop_db1 |}, Ok resp) /\
    (forall now', now' / 1000 < now io1 / 1000 + 900000 / 1000 ->
       verifyAccessToken default_service now' (accessToken resp)
       = Ok (payload_of_user (authenticated loop_record))) /\
    (forall now', now' / 1000 < now io1 / 1000 + seven_days / 1000 ->
       verifyRefreshToken default_service now' (refreshToken resp)
       = Ok {| rp_userId := JString "loop"; rp_sessionId := JString "s0";
               rp_jti := JString "j1" |}).
Proof.
  assert (Hv : verifyRefreshToken default_service (now io1) loop_token0 = Ok loop_payload)
    by computed.
  assert (Hled : "j0" ∉ revokedTokens loop_db1) by absent_from_ledger.
  assert (Hrow : sessions loop_db1 !! "s0" = Some loop_row) by computed.
  assert (Hfind : snd (PrismaUserRepository.findByEmail "loop" loop_db1)
                  = Ok (Some loop_record)) by computed.
  repeat (split; [assumption|]).
  exact (refresh_success deps default_service io1 loop_token0 loop_db1 loop_payload
           "j0" "s0" "loop" loop_row loop_record 900000 seven_days eq_refl
           ltac:(discriminate) ltac:(discriminate) ltac:(computed) ltac:(computed)
           Hv eq_refl eq_refl eq_refl Hled Hrow eq_refl eq_refl Hfind).
Defined.

Lemma issued_tokens_witness :
  issued_all deps two_requests db0 = loop_token0 :: snd loop_once /\
  accounted (serve_all deps two_requests db0) loop_token0 /\
  snd (AuthService.refreshTokens deps io2 loop_token0 (serve_all deps two_requests db0))
  = Throw TOKEN_REVOKED.
Proof.
  assert (Hall : issued_all deps two_requests db0 = loop_token0 :: snd loop_once)
    by computed.
  split; [exact Hall|].
  assert (Hin : loop_token0 ∈ issued_all deps two_requests db0).
  { rewrite Hall. apply list_elem_of_here. }
  split.
  - exact (proj1 (issued_tokens_never_raise_reuse deps two_requests db0 loop_token0 io2 Hin)).
  - computed.
Defined.

Lemma refresh_handler_witness :
  verifyRefreshToken default_service (now io1) token_j1 = Ok payload_j1 /\
  ("j1" ∉ revokedTokens db_revoked_only) /\
  sessions db_revoked_only !! "s1" = Some (session_row "j1" (Some 100)) /\
  AuthController.refresh deps io1 {| rb_refreshToken := TokenText token_j1 |}
    db_revoked_only
  = (db_revoked_only,
     {| status := 401; json := CodeMessage "TOKEN_REVOKED" "Token has been revoked" |}).
Proof.
  assert (Hv : verifyRefreshToken default_service (now io1) token_j1 = Ok payload_j1)
    by computed.
  assert (Hled : "j1" ∉ revokedTokens db_revoked_only) by absent_from_ledger.
  assert (Hrow : sessions db_revoked_only !! "s1" = Some (session_row "j1" (Some 100)))
    by computed.
  repeat (split; [assumption|]).
  exact (proj1 (proj2 (proj2 (proj2 (refresh_handler_answers deps default_service io1
                                       {| rb_refreshToken := TokenText token_j1 |}
                                       db_revoked_only eq_refl)))
                  token_j1 payload_j1 "j1" "s1" (session_row "j1" (Some 100))
                  eq_refl Hv eq_refl eq_refl Hled)
           Hrow (ex_intro _ 100 eq_refl)).
Defined.

Lemma routes_witness :
  exists resp db2,
    buildApp no_env io0 None
      (PostLogin {| lb_email := JString "a@x.com"; lb_password := JString "P@ss1" |}) db0
    = (with_session db0 "s0" (fresh_row io0 "u1"),
       {| status := 200; json := LoginOk (tokens resp) (user resp) |}) /\
    user resp = summary_of alice_record /\
    buildApp no_env io1
      (Some {| scheme := "BEARER"; credentials := [accessToken (tokens resp)] |})
      (PostLogout {| ob_sessionId := JString "s0"; ob_refreshToken := TokenAbsent |})
      (with_session db0 "s0" (fresh_row io0 "u1"))
    = (db2, {| status := 200; json := Success true |}) /\
    session_revoked db2 "s0" /\
    "j0" ∈ revokedTokens db2.
Proof.
  exact (login_then_logout_through_the_routes (H:=platform) no_env io0 io1 "a@x.com" "P@ss1" db0
           alice_record 900000 seven_days "BEARER"
           ltac:(computed) ltac:(computed) ltac:(computed) ltac:(computed)
           ltac:(computed) ltac:(discriminate) ltac:(discriminate)
           ltac:(discriminate) ltac:(discriminate) ltac:(computed)
           ltac:(vm_compute; reflexivity)).
Defined.

Lemma authConfig_witness :
  authConfig config_env = Ok config0 /\
  jwtAccessSecret config0 <> jwtRefreshSecret config0 /\
  accessSecret (new_TokenService None (token_env config_env)) = "access-key" /\
  refreshSecret (new_TokenService None (token_env config_env)) = "refresh-key".
Proof.
  assert (Hload : authConfig config_env = Ok config0) by computed.
  destruct (authConfig_guards_the_secrets config_env config0 Hload)
    as (_ & _ & Hdiff & _ & _ & _ & _ & _ & Ha & Hr & _).
  split; [exact Hload|]. split; [exact Hdiff|]. split; [exact Ha|exact Hr].
Defined.

Lemma parseDuration_witness :
  parseDuration "30d" = Ok (Exact 2592000000) /\
  parseDuration "015m" = Ok (Exact 900000).
Proof.
  split.
  - exact (proj1 (parseDuration_accepts_digits_and_unit "30d") "30" "d"%char
             eq_refl ltac:(discriminate) eq_refl ltac:(auto)
             ltac:(apply Z.leb_le; vm_compute; reflexivity)).
  - exact (proj1 (parseDuration_accepts_digits_and_unit "015m") "015" "m"%char
             eq_refl ltac:(discriminate) eq_refl ltac:(auto)
             ltac:(apply Z.leb_le; vm_compute; reflexivity)).
Defined.

Lemma logout_handler_witness :
  verifyRefreshToken default_service (now late) token0 = Throw TOKEN_EXPIRED /\
  sessions db1 !! "s0" = Some row0 /\
  AuthController.logout deps late
    {| ob_sessionId := JString "s0"; ob_refreshToken := TokenText token0 |} db1
  = (db1, {| status := 200; json := Success true |}).
Proof.
  assert (Hbad : verifyRefreshToken default_service (now late) token0 = Throw TOKEN_EXPIRED)
    by computed.
  split; [exact Hbad|]. split; [computed|].
  exact (proj2 (proj2 (logout_handler_prefers_the_token deps late (JString "s0") token0 db1
                         ltac:(computed) ltac:(reflexivity)))
           default_service TOKEN_EXPIRED eq_refl Hbad).
Defined.

Lemma config_lifetime_witness :
  authConfig secrets_only_env = Ok secrets_only_config /\
  maxAge (cookieOptions secrets_only_config) = Exact 2592000000 /\
  verifyRefreshToken (new_TokenService None (token_env secrets_only_env)) seven_days
    (token_or_nothing
       (generateRefreshToken (new_TokenService None (token_env secrets_only_env)) 0
          {| ri_userId := "u1"; ri_sessionId := "s0"; ri_jti := "j0" |}))
  = Throw TOKEN_EXPIRED.
Proof.
  assert (Hload : authConfig secrets_only_env = Ok secrets_only_config) by computed.
  assert (Hspan : ms "7d" = Some seven_days) by computed.
  assert (Hgen : generateRefreshToken
                   (new_TokenService None (token_env secrets_only_env)) 0
                   {| ri_userId := "u1"; ri_sessionId := "s0"; ri_jti := "j0" |}
                 = Ok (token_or_nothing
                         (generateRefreshToken
                            (new_TokenService None (token_env secrets_only_env)) 0
                            {| ri_userId := "u1"; ri_sessionId := "s0"; ri_jti := "j0" |})))
    by computed.
  split; [exact Hload|].
  destruct (config_lifetime_does_not_reach_the_tokens secrets_only_env secrets_only_config
              0 seven_days _ _ seven_days Hload eq_refl Hspan Hgen)
    as (_ & Hage & Hverify).
  split; [exact (Hage eq_refl)|exact Hverify].
Defined.

End ConcreteFurther.
